(** * Correlation mining, trace-based variant:
      pm4py/algo/discovery/correlation_mining/versions/trace_based.py

    A shallow embedding of the module and the properties of its functions.

    Modelling conventions.
    - Python [int] values are [Z]; the variables of a [for] over a [range]
      are [nat].
    - Python [float] values (timestamps, matrix cells) are the rationals
      they denote, [Q], with exact arithmetic: rounding is not modelled.
      Statements about arithmetic identities are therefore up to [Qeq].
    - A dict built with string keys is a finite map, [gmap string _]: a
      later entry replaces an earlier one with the same key.
    - Exceptions are values of [exn]; a computation is a [result].  Loops
      written with [while] take fuel; running out of it is the separate
      outcome [OutOfFuel], so that [Ok] always is a genuine return. *)

From stdpp Require Import base list strings gmap.
From Stdlib Require Import QArith Qminmax ZArith Lia DecimalString.

Local Open Scope Z_scope.

(** ** Results of Python computations *)

Inductive exn :=
  | NameError (name : string)
  | UnboundLocalError (name : string)
  | IndexError
  | KeyError (key : string)
  | AttributeError
  | TypeError.

Inductive result (A : Type) :=
  | Ok (a : A)
  | Raise (e : exn)
  | OutOfFuel.
Arguments Ok {A} a.
Arguments Raise {A} e.
Arguments OutOfFuel {A}.

#[global] Instance result_ret : MRet result := λ A a, Ok a.
#[global] Instance result_bind : MBind result := λ A B f m,
  match m with
  | Ok a => f a
  | Raise e => Raise e
  | OutOfFuel => OutOfFuel
  end.

(** [for x in l: s = body(s, x)] *)
Fixpoint for_each {S A : Type} (body : S → A → result S) (s : S) (l : list A)
  : result S :=
  match l with
  | [] => Ok s
  | x :: l' => s' ← body s x; for_each body s' l'
  end.

(** How one pass through a [while] body ends. *)
Inductive flow := Next | Break.

(** [while cond(s): body(s)], where the body may [break]. *)
Fixpoint while {S : Type} (fuel : nat) (cond : S → bool)
    (body : S → result (flow * S)) (s : S) : result S :=
  match fuel with
  | O => OutOfFuel
  | Datatypes.S fuel' =>
      if cond s then
        r ← body s;
        match r with
        | (Break, s') => Ok s'
        | (Next, s') => while fuel' cond body s'
        end
      else Ok s
  end.

(** [l[i]] for a Python [int] index: negative indices count from the end,
    anything out of range raises [IndexError]. *)
Definition py_index {A : Type} (l : list A) (i : Z) : result A :=
  let pos := if 0 <=? i then i else Z.of_nat (length l) + i in
  if 0 <=? pos then
    match l !! Z.to_nat pos with
    | Some x => Ok x
    | None => Raise IndexError
    end
  else Raise IndexError.

(** [l[i]] for a position [i] that is a [range] variable. *)
Definition py_item {A : Type} (l : list A) (i : nat) : result A :=
  match l !! i with
  | Some x => Ok x
  | None => Raise IndexError
  end.

(** [a < b] on floats. *)
Definition float_lt (a b : Q) : bool := negb (Qle_bool b a).

(** [if l:] on a list. *)
Definition truthy {A : Type} (l : list A) : bool :=
  match l with [] => false | _ => true end.

(** ** Events and grouped traces *)

(** An attribute value of a raw event: a string, or a [datetime] given by
    the POSIX timestamp its [.timestamp()] method returns. *)
Inductive attr :=
  | AStr (s : string)
  | ATime (posix : Q).

(** An event of a preprocessed trace as the triple (activity, timestamp,
    index): the dict [{activity_key: ..., timestamp_key: ..., index_key: i}]
    of three distinct keys.  The estimators read it only through
    [x[timestamp_key]], the field [ev_timestamp]. *)
Record Event := mkEvent {
  ev_activity : attr;
  ev_timestamp : Q;
  ev_index : Z
}.

(** ** numpy matrices of floats *)

Abbreviation Matrix := (list (list Q)).

Definition np_zeros (rows cols : nat) : Matrix := replicate rows (replicate cols 0%Q).

(** [ret[i, j]] *)
Definition mat_get (ret : Matrix) (i j : nat) : result Q :=
  row ← py_item ret i; py_item row j.

(** [ret[i, j] = v] *)
Definition mat_set (ret : Matrix) (i j : nat) (v : Q) : result Matrix :=
  row ← py_item ret i;
  _ ← py_item row j;
  Ok (<[i := <[j := v]> row]> ret).

(** Reading a cell of a returned matrix in statements. *)
Definition cell (M : Matrix) (i j : nat) : option Q :=
  row ← M !! i; row !! j.

(** ** get_precede_succeed_matrix (lines 92-132) *)

Record ps_state := mk_ps { ps_k : Z; ps_z : Z; ps_count : Z }.

Definition len {A : Type} (l : list A) : Z := Z.of_nat (length l).

(** Lines 123-126: advance [z] to the first [aj[z]] after [ai[k]]. *)
Definition ps_inner_body (ai aj : list Q) (s : ps_state) : result (flow * ps_state) :=
  a ← py_index ai (ps_k s);
  b ← py_index aj (ps_z s);
  if float_lt a b then Ok (Break, s)
  else Ok (Next, mk_ps (ps_k s) (ps_z s + 1) (ps_count s)).

(** Lines 122-128. *)
Definition ps_outer_body (ai aj : list Q) (s : ps_state) : result (flow * ps_state) :=
  s1 ← while (S (length aj)) (λ s, ps_z s <? len aj) (ps_inner_body ai aj) s;
  Ok (Next, mk_ps (ps_k s1 + 1) (ps_z s1) (ps_count s1 + (len aj - ps_z s1))).

(** Lines 116-128: the contribution of one grouped trace to [(count, total)]. *)
Definition ps_trace (i j : nat) (ct : Z * Z) (tr : list (list Event)) : result (Z * Z) :=
  let '(count, total) := ct in
  tr_i ← py_item tr i;
  let ai := ev_timestamp <$> tr_i in
  tr_j ← py_item tr j;
  let aj := ev_timestamp <$> tr_j in
  if truthy ai && truthy aj then
    let total := total + len ai * len aj in
    s ← while (S (length ai)) (λ s, ps_k s <? len ai) (ps_outer_body ai aj)
          (mk_ps 0 0 count);
    Ok (ps_count s, total)
  else Ok (count, total).

(** [count / float(total)] *)
Definition float_div (count total : Z) : Q := (inject_Z count / inject_Z total)%Q.

(** Lines 113-131: the body of the loop over [j]. *)
Definition ps_cell (trace_grouped_list : list (list (list Event))) (i : nat)
    (ret : Matrix) (j : nat) : result Matrix :=
  '(count, total) ← for_each (ps_trace i j) (0, 0) trace_grouped_list;
  ret ← (if 0 <? total then mat_set ret i j (float_div count total) else Ok ret);
  x ← mat_get ret i j;
  mat_set ret j i (1 - x)%Q.

Definition get_precede_succeed_matrix {L : Type} (activities : list L)
    (trace_grouped_list : list (list (list Event))) (timestamp_key : string)
  : result Matrix :=
  let n := length activities in
  let ret := np_zeros n n in
  for_each
    (λ ret i, for_each (ps_cell trace_grouped_list i) ret (seq (i + 1) (n - (i + 1))))
    ret (seq 0 n).

(** ** get_duration_matrix (lines 135-188) *)

Record dur_state := mk_dur { d_k : Z; d_z : Z; d_times : list Q }.

(** Lines 167-172 (FIFO): the earliest [aj[z]] after [ai[k]] is consumed. *)
Definition fifo_inner_body (ai aj : list Q) (s : dur_state) : result (flow * dur_state) :=
  a ← py_index ai (d_k s);
  b ← py_index aj (d_z s);
  if float_lt a b then
    Ok (Break, mk_dur (d_k s) (d_z s + 1) (d_times s ++ [(b - a)%Q]))
  else Ok (Next, mk_dur (d_k s) (d_z s + 1) (d_times s)).

(** Lines 166-173. *)
Definition fifo_outer_body (ai aj : list Q) (s : dur_state) : result (flow * dur_state) :=
  s1 ← while (S (length aj)) (λ s, d_z s <? len aj) (fifo_inner_body ai aj) s;
  Ok (Next, mk_dur (d_k s1 + 1) (d_z s1) (d_times s1)).

(** Lines 164-173. *)
Definition fifo_trace (ai aj times0 : list Q) : result (list Q) :=
  s ← while (S (length ai)) (λ s, d_k s <? len ai) (fifo_outer_body ai aj)
        (mk_dur 0 0 times0);
  Ok (d_times s).

(** Lines 178-183 (LIFO): the latest [ai[k]] before [aj[z]] is consumed. *)
Definition lifo_inner_body (ai aj : list Q) (s : dur_state) : result (flow * dur_state) :=
  a ← py_index ai (d_k s);
  b ← py_index aj (d_z s);
  if float_lt a b then
    Ok (Break, mk_dur (d_k s - 1) (d_z s) (d_times s ++ [(b - a)%Q]))
  else Ok (Next, mk_dur (d_k s - 1) (d_z s) (d_times s)).

(** Lines 177-184. *)
Definition lifo_outer_body (ai aj : list Q) (s : dur_state) : result (flow * dur_state) :=
  s1 ← while (S (length ai)) (λ s, 0 <=? d_k s) (lifo_inner_body ai aj) s;
  Ok (Next, mk_dur (d_k s1) (d_z s1 - 1) (d_times s1)).

(** Lines 175-184. *)
Definition lifo_trace (ai aj times1 : list Q) : result (list Q) :=
  s ← while (S (length aj)) (λ s, 0 <=? d_z s) (lifo_outer_body ai aj)
        (mk_dur (len ai - 1) (len aj - 1) times1);
  Ok (d_times s).

(** Lines 160-184: one grouped trace extends [(times0, times1)]. *)
Definition dur_trace (i j : nat) (tt : list Q * list Q) (tr : list (list Event))
  : result (list Q * list Q) :=
  let '(times0, times1) := tt in
  tr_i ← py_item tr i;
  let ai := ev_timestamp <$> tr_i in
  tr_j ← py_item tr j;
  let aj := ev_timestamp <$> tr_j in
  if truthy ai && truthy aj then
    times0 ← fifo_trace ai aj times0;
    times1 ← lifo_trace ai aj times1;
    Ok (times0, times1)
  else Ok (times0, times1).

Definition Qsum (l : list Q) : Q := foldr Qplus 0%Q l.

(** [statistics.mean] *)
Definition mean (l : list Q) : Q := (Qsum l / inject_Z (len l))%Q.

(** [mean(times) if times else 0] *)
Definition mean_or_zero (times : list Q) : Q :=
  if truthy times then mean times else 0%Q.

(** [min(a, b)]: the first argument unless the second is smaller. *)
Definition py_min (a b : Q) : Q := if float_lt b a then b else a.

(** Lines 156-187: the body of the loop over [j]. *)
Definition dur_cell (trace_grouped_list : list (list (list Event))) (i : nat)
    (ret : Matrix) (j : nat) : result Matrix :=
  if negb (i =? j)%nat then
    '(times0, times1) ← for_each (dur_trace i j) ([], []) trace_grouped_list;
    let times0 := mean_or_zero times0 in
    let times1 := mean_or_zero times1 in
    mat_set ret i j (py_min times0 times1)
  else Ok ret.

Definition get_duration_matrix {L : Type} (activities : list L)
    (trace_grouped_list : list (list (list Event))) (timestamp_key : string)
  : result Matrix :=
  let n := length activities in
  let ret := np_zeros n n in
  for_each
    (λ ret i, for_each (dur_cell trace_grouped_list i) ret (seq 0 n))
    ret (seq 0 n).

(** ** The naive precedence count of the specification *)

(** Occurrence timestamps of activity [i] in a grouped trace (empty when the
    trace has no group [i]). *)
Definition occ (tr : list (list Event)) (i : nat) : list Q :=
  ev_timestamp <$> default [] (tr !! i).

(** The ordered pairs (occurrence of i, occurrence of j) whose i-timestamp is
    strictly earlier. *)
Definition pairs_before (ai aj : list Q) : Z :=
  len (List.filter (λ p, float_lt p.1 p.2) (list_prod ai aj)).

(** Count and total of the specification, accumulated over the traces where
    both lists are non-empty. *)
Definition naive_count (i j : nat) (trace_grouped_list : list (list (list Event))) : Z :=
  foldr Z.add 0
    ((λ tr, if truthy (occ tr i) && truthy (occ tr j)
            then pairs_before (occ tr i) (occ tr j) else 0)
       <$> trace_grouped_list).

Definition naive_total (i j : nat) (trace_grouped_list : list (list (list Event))) : Z :=
  foldr Z.add 0
    ((λ tr, if truthy (occ tr i) && truthy (occ tr j)
            then len (occ tr i) * len (occ tr j) else 0)
       <$> trace_grouped_list).

(** Sorted non-decreasingly. *)
Fixpoint nondecreasing (l : list Q) : bool :=
  match l with
  | [] => true
  | a :: l' =>
      match l' with
      | [] => true
      | b :: _ => Qle_bool a b && nondecreasing l'
      end
  end.

(** The j-occurrences strictly after [a]. *)
Definition count_after (a : Q) (aj : list Q) : Z := len (List.filter (float_lt a) aj).

(** ** The precedence merge as a function of the unread suffixes *)

(** How far [z] moves for one [a]: the leading elements not after [a]. *)
Fixpoint ps_skip (a : Q) (rest : list Q) : nat :=
  match rest with
  | [] => O
  | b :: rest' => if float_lt a b then O else Datatypes.S (ps_skip a rest')
  end.

(** What lines 122-128 add to [count], from the unread parts of both lists. *)
Fixpoint ps_scan (ai_rest aj_rest : list Q) : Z :=
  match ai_rest with
  | [] => 0
  | a :: ai_rest' =>
      let aj_rest' := drop (ps_skip a aj_rest) aj_rest in
      len aj_rest' + ps_scan ai_rest' aj_rest'
  end.


(** ** Names of the module and of [apply] *)

(** The objects a name of this module can be bound to. *)
Inductive pyobj :=
  | ObjNone
  | ObjModule (name : string)
  | ObjClass (name : string)
  | ObjFunction (name : string)
  | ObjStr (s : string)
  | ObjTraces (traces : list (list Event)).

(** The names bound by the top-level statements of the module: the imports
    of lines 1-9, the class of line 12, the assignment of line 19 and the
    four function definitions. *)
Definition module_namespace : gmap string pyobj :=
  list_to_map
    [ ("exec_utils", ObjModule "pm4py.util.exec_utils");
      ("Enum", ObjClass "enum.Enum");
      ("constants", ObjModule "pm4py.util.constants");
      ("xes_constants", ObjModule "pm4py.util.xes_constants");
      ("converter", ObjModule "pm4py.objects.conversion.log.converter");
      ("cm_util", ObjModule "pm4py.algo.discovery.correlation_mining.util");
      ("mean", ObjFunction "statistics.mean");
      ("np", ObjModule "numpy");
      ("Counter", ObjClass "collections.Counter");
      ("pd", ObjModule "pandas");
      ("Parameters", ObjClass "Parameters");
      ("DEFAULT_INDEX_KEY", ObjStr "@@@index");
      ("apply", ObjFunction "apply");
      ("preprocess_log", ObjFunction "preprocess_log");
      ("get_precede_succeed_matrix", ObjFunction "get_precede_succeed_matrix");
      ("get_duration_matrix", ObjFunction "get_duration_matrix") ].

(** [name in names] *)
Definition name_in (name : string) (names : list string) : bool :=
  existsb (String.eqb name) names.

(** The names of Python's [builtins] module. *)
Definition builtins : list string :=
    [ "abs"; "aiter"; "all"; "anext"; "any"; "ascii"; "bin"; "bool";
      "breakpoint"; "bytearray"; "bytes"; "callable"; "chr"; "classmethod";
      "compile"; "complex"; "delattr"; "dict"; "dir"; "divmod"; "enumerate";
      "eval"; "exec"; "filter"; "float"; "format"; "frozenset"; "getattr";
      "globals"; "hasattr"; "hash"; "help"; "hex"; "id"; "input"; "int";
      "isinstance"; "issubclass"; "iter"; "len"; "list"; "locals"; "map";
      "max"; "memoryview"; "min"; "next"; "object"; "oct"; "open"; "ord";
      "pow"; "print"; "property"; "range"; "repr"; "reversed"; "round";
      "set"; "setattr"; "slice"; "sorted"; "staticmethod"; "str"; "sum";
      "super"; "tuple"; "type"; "vars"; "zip"; "__import__";
      "True"; "False"; "None"; "NotImplemented"; "Ellipsis"; "__debug__";
      "__name__"; "__doc__"; "__build_class__"; "copyright"; "credits";
      "license"; "exit"; "quit";
      "BaseException"; "Exception"; "ArithmeticError"; "AssertionError";
      "AttributeError"; "BlockingIOError"; "BrokenPipeError"; "BufferError";
      "BytesWarning"; "ChildProcessError"; "ConnectionAbortedError";
      "ConnectionError"; "ConnectionRefusedError"; "ConnectionResetError";
      "DeprecationWarning"; "EOFError"; "EnvironmentError";
      "FileExistsError"; "FileNotFoundError"; "FloatingPointError";
      "FutureWarning"; "GeneratorExit"; "IOError"; "ImportError";
      "ImportWarning"; "IndentationError"; "IndexError"; "InterruptedError";
      "IsADirectoryError"; "KeyError"; "KeyboardInterrupt"; "LookupError";
      "MemoryError"; "ModuleNotFoundError"; "NameError";
      "NotADirectoryError"; "NotImplementedError"; "OSError";
      "OverflowError"; "PendingDeprecationWarning"; "PermissionError";
      "ProcessLookupError"; "RecursionError"; "ReferenceError";
      "ResourceWarning"; "RuntimeError"; "RuntimeWarning";
      "StopAsyncIteration"; "StopIteration"; "SyntaxError"; "SyntaxWarning";
      "SystemError"; "SystemExit"; "TabError"; "TimeoutError"; "TypeError";
      "UnboundLocalError"; "UnicodeDecodeError"; "UnicodeEncodeError";
      "UnicodeError"; "UnicodeTranslateError"; "UnicodeWarning";
      "UserWarning"; "ValueError"; "Warning"; "ZeroDivisionError" ].

(** The local names of [apply]: its parameters and the targets of the
    assignments and [for] statements of its body (lines 22-64).  The
    variables of a comprehension are local to the comprehension. *)
Definition apply_locals : list string :=
    [ "log"; "parameters"; "activity_key"; "timestamp_key";
      "activities_counter"; "activities"; "trace_grouped_list"; "trace";
      "gr"; "act"; "act_gr"; "PS_matrix"; "duration_matrix"; "C_matrix";
      "dfg"; "performance_dfg" ].

(** Reading a name that the function body never assigns: the module's
    globals, then the builtins, else [NameError]. *)
Definition load_global (name : string) : result pyobj :=
  match module_namespace !! name with
  | Some o => Ok o
  | None =>
      if name_in name builtins then Ok (ObjFunction name)
      else Raise (NameError name)
  end.

(** Reading a name inside a function with the given local names, none of
    which is bound yet to the value read. *)
Definition load_name (locals : list string) (name : string) : result pyobj :=
  if name_in name locals then Raise (UnboundLocalError name)
  else load_global name.

(** The free names a statement reads, in order, before it runs. *)
Definition load_names (locals : list string) (names : list string) : result unit :=
  for_each (λ _ name, _ ← load_name locals name; Ok ()) () names.

(** Iterating over an object as a list of traces. *)
Definition as_traces (o : pyobj) : result (list (list Event)) :=
  match o with
  | ObjTraces traces => Ok traces
  | _ => Raise TypeError
  end.

(** ** Values compared and counted by [apply] *)

(** [a == b] on attribute values. *)
Definition attr_eqb (a b : attr) : bool :=
  match a, b with
  | AStr s, AStr s' => String.eqb s s'
  | ATime t, ATime t' => Qeq_bool t t'
  | _, _ => false
  end.

(** [a < b] on attribute values; values of different types do not compare. *)
Definition attr_lt (a b : attr) : result bool :=
  match a, b with
  | AStr s, AStr s' => Ok (String.ltb s s')
  | ATime t, ATime t' => Ok (float_lt t t')
  | _, _ => Raise TypeError
  end.

(** [sorted]: a stable sort that only uses [<]. *)
Fixpoint sorted_insert {A : Type} (lt : A → A → result bool) (x : A) (l : list A)
  : result (list A) :=
  match l with
  | [] => Ok [x]
  | y :: l' =>
      c ← lt x y;
      if (c : bool) then Ok (x :: y :: l')
      else (r ← sorted_insert lt x l'; Ok (y :: r))
  end.

Definition py_sorted {A : Type} (lt : A → A → result bool) (l : list A)
  : result (list A) :=
  for_each (λ acc x, sorted_insert lt x acc) [] l.

(** [collections.Counter]: keys in order of first occurrence, with counts. *)
Fixpoint counter_add (c : list (attr * Z)) (key : attr) : list (attr * Z) :=
  match c with
  | [] => [(key, 1)]
  | (k, n) :: c' =>
      if attr_eqb k key then (k, n + 1) :: c' else (k, n) :: counter_add c' key
  end.

Definition Counter (keys : list attr) : list (attr * Z) :=
  foldl counter_add [] keys.

(** ** apply (lines 22-64) and preprocess_log (lines 67-89) *)

Inductive Parameters := ACTIVITY_KEY | TIMESTAMP_KEY | CASE_ID_KEY | INDEX_KEY.

Definition DEFAULT_INDEX_KEY : string := "@@@index".

(** A directly-follows graph: a weight per pair of activities. *)
Abbreviation DFG := (list (attr * attr * Q)).

(** An event of the log handed to [preprocess_log]. *)
Abbreviation RawEvent := (gmap string attr).

(** [x[key]] on an event of the log. *)
Definition event_item (x : RawEvent) (key : string) : result attr :=
  match x !! key with
  | Some v => Ok v
  | None => Raise (KeyError key)
  end.

(** [v.timestamp()] *)
Definition timestamp_of (v : attr) : result Q :=
  match v with
  | ATime posix => Ok posix
  | AStr _ => Raise AttributeError
  end.

(** The order of the triples by (timestamp, index). *)
Definition key_ltb (x y : Event) : bool :=
  float_lt (ev_timestamp x) (ev_timestamp y)
  || (Qeq_bool (ev_timestamp x) (ev_timestamp y) && (ev_index x <? ev_index y)).

(** Sorted by (timestamp, index): no event has a smaller key than an
    earlier one. *)
Fixpoint key_sorted (l : list Event) : bool :=
  match l with
  | [] => true
  | x :: l' => forallb (λ y, negb (key_ltb y x)) l' && key_sorted l'
  end.

(** ** The dicts of line 86 and their sort key (line 88) *)

(** A value stored in such a dict: what the event has under the activity
    attribute, the float [.timestamp()] returns, or the position [i]. *)
Inductive pyval :=
  | VAttr (v : attr)
  | VFloat (x : Q)
  | VInt (n : Z).

Abbreviation StreamEvent := (gmap string pyval).

(** [{activity_key: a, timestamp_key: t, index_key: i}]: the entries are
    stored from left to right, so of two equal keys the later one keeps its
    value. *)
Definition stream_event (activity_key timestamp_key index_key : string)
    (a : attr) (t : Q) (i : Z) : StreamEvent :=
  <[index_key := VInt i]> (<[timestamp_key := VFloat t]> (<[activity_key := VAttr a]> ∅)).

(** The dict of a triple (activity, timestamp, index). *)
Definition event_dict (activity_key timestamp_key index_key : string) (e : Event)
  : StreamEvent :=
  stream_event activity_key timestamp_key index_key
    (ev_activity e) (ev_timestamp e) (ev_index e).

(** [x[key]] on such a dict. *)
Definition stream_item (x : StreamEvent) (key : string) : result pyval :=
  match x !! key with
  | Some v => Ok v
  | None => Raise (KeyError key)
  end.

(** What such a dict holds: the number of its entries and the values under
    the given keys. *)
Definition dict_view (keys : list string) (x : StreamEvent) : nat * list (option pyval) :=
  (size x, (x !!.) <$> keys).

(** [lambda x: (x[timestamp_key], x[index_key])] *)
Definition sort_key (timestamp_key index_key : string) (x : StreamEvent)
  : result (pyval * pyval) :=
  t ← stream_item x timestamp_key;
  i ← stream_item x index_key;
  Ok (t, i).

(** The number an [int] or a [float] denotes. *)
Definition number_of (v : pyval) : option Q :=
  match v with
  | VFloat x => Some x
  | VInt n => Some (inject_Z n)
  | VAttr _ => None
  end.

(** [v == w]: numbers are compared by value, whatever their types. *)
Definition val_eqb (v w : pyval) : bool :=
  match v, w with
  | VAttr a, VAttr b => attr_eqb a b
  | _, _ =>
      match number_of v, number_of w with
      | Some x, Some y => Qeq_bool x y
      | _, _ => false
      end
  end.

(** [v < w]; a number does not compare with a string or a [datetime]. *)
Definition val_lt (v w : pyval) : result bool :=
  match v, w with
  | VAttr a, VAttr b => attr_lt a b
  | _, _ =>
      match number_of v, number_of w with
      | Some x, Some y => Ok (float_lt x y)
      | _, _ => Raise TypeError
      end
  end.

(** [p < q] on pairs: the first components that differ decide. *)
Definition tuple_lt (p q : pyval * pyval) : result bool :=
  if val_eqb p.1 q.1 then
    (if val_eqb p.2 q.2 then Ok false else val_lt p.2 q.2)
  else val_lt p.1 q.1.

(** [sorted(l, key=key)]: the keys are computed first, one per element, and
    the elements are then sorted by their keys. *)
Definition py_sorted_by {A K : Type} (key : A → result K) (lt : K → K → result bool)
    (l : list A) : result (list A) :=
  keyed ← for_each (λ acc x, k ← key x; Ok (acc ++ [(k, x)])) [] l;
  keyed ← py_sorted (λ p q : K * A, lt p.1 q.1) keyed;
  Ok (keyed.*2).

(** No element has a smaller key than an earlier one. *)
Fixpoint sorted_by {A : Type} (ltb : A → A → bool) (l : list A) : bool :=
  match l with
  | [] => true
  | x :: l' => forallb (λ y, negb (ltb y x)) l' && sorted_by ltb l'
  end.

(** [key(x) < key(y)] for the key of line 88, where both keys exist and
    compare. *)
Definition sort_key_ltb (timestamp_key index_key : string) (x y : StreamEvent) : bool :=
  match (p ← sort_key timestamp_key index_key x;
         q ← sort_key timestamp_key index_key y;
         tuple_lt p q) with
  | Ok b => b
  | _ => false
  end.

(** The triple (activity, timestamp in seconds, original index) of the
    event at position [i] of a case, when the event has both attributes and
    its timestamp is a [datetime]. *)
Definition triple_of (activity_key timestamp_key : string) (i : nat) (e : RawEvent)
  : option Event :=
  match e !! activity_key, e !! timestamp_key with
  | Some a, Some (ATime posix) => Some (mkEvent a posix (Z.of_nat i))
  | _, _ => None
  end.

(** The triples of the events of a case whose first event has position
    [start], in the order of the case. *)
Fixpoint triples_from (activity_key timestamp_key : string) (start : nat)
    (trace : list RawEvent) : list Event :=
  match trace with
  | [] => []
  | e :: trace' =>
      match triple_of activity_key timestamp_key start e with
      | Some x => x :: triples_from activity_key timestamp_key (S start) trace'
      | None => triples_from activity_key timestamp_key (S start) trace'
      end
  end.

Definition case_triples (activity_key timestamp_key : string) (trace : list RawEvent)
  : list Event :=
  triples_from activity_key timestamp_key 0 trace.

(** The sort key of the dict of a triple: the index has replaced the
    timestamp when the two keys are the same string. *)
Definition triple_key (timestamp_key index_key : string) (e : Event) : pyval * pyval :=
  (if decide (timestamp_key = index_key) then VInt (ev_index e)
   else VFloat (ev_timestamp e),
   VInt (ev_index e)).

(** The order of these keys. *)
Definition triple_ltb (timestamp_key index_key : string) (x y : Event) : bool :=
  if decide (timestamp_key = index_key) then ev_index x <? ev_index y
  else key_ltb x y.

Section Collaborators.

(** What the module imports from the rest of pm4py and from pandas. *)
Variable DataFrame : Type.
(** [log[[activity_key, timestamp_key, caseid_key]]] *)
Variable select_columns : DataFrame → list string → result DataFrame.

(** The argument [log]: a pandas data frame or an event log. *)
Inductive log_obj :=
  | LogDataFrame (df : DataFrame)
  | LogEventLog (traces : list (list RawEvent)).

(** [exec_utils.get_param_value] *)
Variable get_param_value : Parameters → gmap string string → string → string.
(** [xes_constants] *)
Variable DEFAULT_NAME_KEY DEFAULT_TIMESTAMP_KEY DEFAULT_TRACEID_KEY : string.
(** [converter.apply] *)
Variable converter_apply : log_obj → gmap string string → result (list (list RawEvent)).
(** [cm_util.get_c_matrix] and [cm_util.resolve_LP] *)
Variable get_c_matrix :
  Matrix → Matrix → list attr → list (attr * Z) → result Matrix.
Variable resolve_LP :
  Matrix → Matrix → list attr → list (attr * Z) → result (DFG * DFG).

(** Lines 50-64, from the value read for [traces_list]. *)
Definition apply_from (activity_key timestamp_key : string)
    (traces_list : list (list Event)) : result (DFG * DFG) :=
  let activities_counter :=
    Counter (x ← traces_list; y ← x; [ev_activity y]) in
  _ ← load_names apply_locals ["sorted"; "list"];
  activities ← py_sorted attr_lt (activities_counter.*1);
  let trace_grouped_list :=
    (λ trace,
       (λ act, List.filter (λ x, attr_eqb (ev_activity x) act) trace) <$> activities)
      <$> traces_list in
  _ ← load_names apply_locals
        ["get_precede_succeed_matrix"; "get_duration_matrix"; "cm_util"];
  PS_matrix ← get_precede_succeed_matrix activities trace_grouped_list timestamp_key;
  duration_matrix ← get_duration_matrix activities trace_grouped_list timestamp_key;
  C_matrix ← get_c_matrix PS_matrix duration_matrix activities activities_counter;
  '(dfg, performance_dfg) ←
    resolve_LP C_matrix duration_matrix activities activities_counter;
  Ok (dfg, performance_dfg).

Definition apply (log : log_obj) (parameters : option (gmap string string))
  : result (DFG * DFG) :=
  let parameters := default ∅ parameters in
  _ ← load_names apply_locals ["exec_utils"; "Parameters"; "xes_constants"];
  let activity_key := get_param_value ACTIVITY_KEY parameters DEFAULT_NAME_KEY in
  let timestamp_key := get_param_value TIMESTAMP_KEY parameters DEFAULT_TIMESTAMP_KEY in
  _ ← load_names apply_locals ["Counter"];
  traces_list ← load_name apply_locals "traces_list";
  traces_list ← as_traces traces_list;
  apply_from activity_key timestamp_key traces_list.

(** The local names of [preprocess_log]. *)
Definition preprocess_log_locals : list string :=
    [ "log"; "parameters"; "activity_key"; "timestamp_key"; "caseid_key";
      "index_key"; "traces_list"; "trace"; "trace_stream" ].

(** Lines 85-88: one trace of the converted log. *)
Definition trace_stream_of (activity_key timestamp_key index_key : string)
    (trace : list RawEvent) : result (list StreamEvent) :=
  _ ← load_names preprocess_log_locals ["range"; "len"];
  trace_stream ←
    for_each
      (λ acc i,
         e ← py_item trace i;
         a ← event_item e activity_key;
         t ← event_item e timestamp_key;
         t ← timestamp_of t;
         Ok (acc ++ [stream_event activity_key timestamp_key index_key a t (Z.of_nat i)]))
      [] (seq 0 (length trace));
  _ ← load_names preprocess_log_locals ["sorted"];
  py_sorted_by (sort_key timestamp_key index_key) tuple_lt trace_stream.

(** Lines 77-79: a data frame is cut down to three columns. *)
Definition select_log (activity_key timestamp_key caseid_key : string) (log : log_obj)
  : result log_obj :=
  match log with
  | LogDataFrame df =>
      df ← select_columns df [activity_key; timestamp_key; caseid_key];
      Ok (LogDataFrame df)
  | LogEventLog _ => Ok log
  end.

(** Lines 68-89: the list the body builds in its local [traces_list]. *)
Definition preprocess_log_traces_list (log : log_obj)
    (parameters : option (gmap string string)) : result (list (list StreamEvent)) :=
  let parameters := default ∅ parameters in
  _ ← load_names preprocess_log_locals
        ["exec_utils"; "Parameters"; "xes_constants"; "DEFAULT_INDEX_KEY"];
  let activity_key := get_param_value ACTIVITY_KEY parameters DEFAULT_NAME_KEY in
  let timestamp_key := get_param_value TIMESTAMP_KEY parameters DEFAULT_TIMESTAMP_KEY in
  let caseid_key := get_param_value CASE_ID_KEY parameters DEFAULT_TRACEID_KEY in
  let index_key := get_param_value INDEX_KEY parameters DEFAULT_INDEX_KEY in
  _ ← load_names preprocess_log_locals ["type"; "pd"];
  log ← select_log activity_key timestamp_key caseid_key log;
  _ ← load_names preprocess_log_locals ["converter"];
  log ← converter_apply log parameters;
  for_each
    (λ traces_list trace,
       trace_stream ← trace_stream_of activity_key timestamp_key index_key trace;
       Ok (traces_list ++ [trace_stream]))
    [] log.

(** The function ends after the loop, without a [return] statement: its
    value is [None]. *)
Definition preprocess_log (log : log_obj) (parameters : option (gmap string string))
  : result pyobj :=
  _ ← preprocess_log_traces_list log parameters;
  Ok ObjNone.

End Collaborators.

Arguments LogDataFrame {DataFrame} df.
Arguments LogEventLog {DataFrame} traces.

(** ** The duration scans as functions of the unread parts *)

(** Lines 167-172 for one [a]: how many elements of the unread [aj] the
    pointer passes, and the gap recorded (none when nothing follows [a]). *)
Fixpoint fifo_step (a : Q) (aj_rest : list Q) : nat * list Q :=
  match aj_rest with
  | [] => (O, [])
  | b :: aj_rest' =>
      if float_lt a b then (1%nat, [(b - a)%Q])
      else let '(n, gap) := fifo_step a aj_rest' in (Datatypes.S n, gap)
  end.

(** The samples lines 164-173 append. *)
Fixpoint fifo_scan (ai_rest aj_rest : list Q) : list Q :=
  match ai_rest with
  | [] => []
  | a :: ai_rest' =>
      let '(n, gap) := fifo_step a aj_rest in
      gap ++ fifo_scan ai_rest' (drop n aj_rest)
  end.

(** Lines 178-183 for one [b]; [ai_back] is the unread part of [ai], latest
    occurrence first. *)
Fixpoint lifo_step (b : Q) (ai_back : list Q) : nat * list Q :=
  match ai_back with
  | [] => (O, [])
  | a :: ai_back' =>
      if float_lt a b then (1%nat, [(b - a)%Q])
      else let '(n, gap) := lifo_step b ai_back' in (Datatypes.S n, gap)
  end.

(** The samples lines 175-184 append; both lists latest occurrence first. *)
Fixpoint lifo_scan (ai_back aj_back : list Q) : list Q :=
  match aj_back with
  | [] => []
  | b :: aj_back' =>
      let '(n, gap) := lifo_step b ai_back in
      gap ++ lifo_scan (drop n ai_back) aj_back'
  end.

(** The same scan, one comparison at a time. *)
Fixpoint lifo_merge (ai_back aj_back : list Q) : list Q :=
  match ai_back with
  | [] => []
  | a :: ai_back' =>
      match aj_back with
      | [] => []
      | b :: aj_back' =>
          if float_lt a b then (b - a)%Q :: lifo_merge ai_back' aj_back'
          else lifo_merge ai_back' aj_back
      end
  end.

(** ** The LIFO match of the specification *)

(** The latest not-yet-consumed j-occurrence whose timestamp is strictly
    greater than [a], together with the occurrences left unconsumed. *)
Fixpoint take_latest_after (a : Q) (unconsumed : list Q) : option (Q * list Q) :=
  match unconsumed with
  | [] => None
  | b :: rest =>
      match take_latest_after a rest with
      | Some (b', rest') => Some (b', b :: rest')
      | None => if float_lt a b then Some (b, rest) else None
      end
  end.

(** Scan the i-occurrences in the given order; each one consumes the latest
    qualifying j-occurrence, if there is one, and records the gap. *)
Fixpoint lifo_match (ai_scan : list Q) (unconsumed : list Q) : list Q :=
  match ai_scan with
  | [] => []
  | a :: ai_scan' =>
      match take_latest_after a unconsumed with
      | Some (b, unconsumed') => (b - a)%Q :: lifo_match ai_scan' unconsumed'
      | None => lifo_match ai_scan' unconsumed
      end
  end.

(** [ai] is scanned in decreasing time order. *)
Definition lifo_spec (ai aj : list Q) : list Q := lifo_match (reverse ai) aj.

(** ** Cells of the returned matrices *)

(** Every grouped trace has a group for each of the [n] activities. *)
Definition well_shaped (n : nat) (trace_grouped_list : list (list (list Event))) : bool :=
  forallb (λ tr, (n <=? length tr)%nat) trace_grouped_list.

(** What the merge adds up to over the traces where both lists are
    non-empty. *)
Definition merged_count (i j : nat) (trace_grouped_list : list (list (list Event))) : Z :=
  foldr Z.add 0
    ((λ tr, if truthy (occ tr i) && truthy (occ tr j)
            then ps_scan (occ tr i) (occ tr j) else 0)
       <$> trace_grouped_list).

(** Lines 129-130: [count / total] when [total > 0], the initial zero
    otherwise. *)
Definition ratio (count total : Z) : Q :=
  if 0 <? total then float_div count total else 0%Q.

(** [M] holds [f a b] in every cell of its [n] rows and columns. *)
Definition represents (n : nat) (M : Matrix) (f : nat → nat → Q) : Prop :=
  ∀ a b, (a < n)%nat → (b < n)%nat → cell M a b = Some (f a b).

(** The precedence matrix while pairs are being filled in: [r] on the
    finished pairs above the diagonal, [1 - r] on their mirror images,
    zero elsewhere. *)
Definition ps_fun (r : nat → nat → Q) (finished : nat → nat → bool) (a b : nat) : Q :=
  if bool_decide (a < b)%nat then (if finished a b then r a b else 0%Q)
  else if bool_decide (b < a)%nat then (if finished b a then (1 - r b a)%Q else 0%Q)
  else 0%Q.

(** Pairs [(a, b)] treated before the loops reach [(i, j)]. *)
Definition before_cell (i j a b : nat) : bool :=
  bool_decide ((a < i)%nat ∨ (a = i ∧ (b < j)%nat)).

(** The value lines 129-130 give to the cell of a pair [a < b]. *)
Definition ps_value (trace_grouped_list : list (list (list Event))) (a b : nat) : Q :=
  ratio (merged_count a b trace_grouped_list) (naive_total a b trace_grouped_list).

(** The samples collected for the ordered pair [(i, j)] over the traces
    where both lists are non-empty. *)
Definition fifo_samples (i j : nat) (trace_grouped_list : list (list (list Event))) : list Q :=
  concat ((λ tr, if truthy (occ tr i) && truthy (occ tr j)
                 then fifo_scan (occ tr i) (occ tr j) else [])
            <$> trace_grouped_list).

Definition lifo_samples (i j : nat) (trace_grouped_list : list (list (list Event))) : list Q :=
  concat ((λ tr, if truthy (occ tr i) && truthy (occ tr j)
                 then lifo_scan (reverse (occ tr i)) (reverse (occ tr j)) else [])
            <$> trace_grouped_list).

(** The value lines 185-187 give to the cell of an ordered pair. *)
Definition dur_value (trace_grouped_list : list (list (list Event))) (a b : nat) : Q :=
  py_min (mean_or_zero (fifo_samples a b trace_grouped_list))
         (mean_or_zero (lifo_samples a b trace_grouped_list)).

(** The duration matrix while cells are being filled in. *)
Definition dur_fun (d : nat → nat → Q) (finished : nat → nat → bool) (a b : nat) : Q :=
  if bool_decide (a = b) then 0%Q
  else if finished a b then d a b else 0%Q.

(** ** Conditions on grouped logs used in the statements *)

(** The occurrence lists of [i] and [j] are sorted in every trace. *)
Definition sorted_occurrences (i j : nat) (trace_grouped_list : list (list (list Event))) : bool :=
  forallb (λ tr, nondecreasing (occ tr i) && nondecreasing (occ tr j)) trace_grouped_list.

(** No trace has both occurrence lists non-empty. *)
Definition never_together (i j : nat) (trace_grouped_list : list (list (list Event))) : bool :=
  forallb (λ tr, negb (truthy (occ tr i) && truthy (occ tr j))) trace_grouped_list.

(** Every timestamp of [ai] is strictly earlier than every timestamp of [aj]. *)
Definition all_before (ai aj : list Q) : bool :=
  forallb (λ a, forallb (λ b, float_lt a b) aj) ai.

(** ** Small grouped logs over the activities A and B *)

Definition at_time (a : string) (t : Z) (i : Z) : Event :=
  mkEvent (AStr a) (inject_Z t) i.

Definition two_activities : list string := ["A"; "B"].

(** Two cases, A@0 B@1 and A@2 B@3. *)
Definition grouped_two_cases : list (list (list Event)) :=
  [ [ [at_time "A" 0 0]; [at_time "B" 1 1] ];
    [ [at_time "A" 2 0]; [at_time "B" 3 1] ] ].

(** One case with A@0, B@1, A@2, B@3. *)
Definition grouped_interleaved : list (list (list Event)) :=
  [ [ [at_time "A" 0 0; at_time "A" 2 2]; [at_time "B" 1 1; at_time "B" 3 3] ] ].

(** A and B never occur in the same case. *)
Definition grouped_apart : list (list (list Event)) :=
  [ [ [at_time "A" 0 0]; [] ];
    [ []; [at_time "B" 1 0] ] ].

(** One case with B@1 before A@2. *)
Definition grouped_reversed : list (list (list Event)) :=
  [ [ [at_time "A" 2 1]; [at_time "B" 1 0] ] ].

(** A case with A@0 before B@1. *)
Definition trace_in_order : list (list Event) :=
  [ [at_time "A" 0 0]; [at_time "B" 1 1] ].

(** The single case of [grouped_interleaved]. *)
Definition trace_interleaved : list (list Event) :=
  [ [at_time "A" 0 0; at_time "A" 2 2]; [at_time "B" 1 1; at_time "B" 3 3] ].

(** ** Sample collaborators and logs *)

(** No parameter set: every key takes its default. *)
Definition default_param_value (p : Parameters) (parameters : gmap string string)
    (default : string) : string := default.

(** An event log converts to itself. *)
Definition convert_event_log (log : log_obj unit) (parameters : gmap string string)
  : result (list (list RawEvent)) :=
  match log with
  | LogEventLog traces => Ok traces
  | LogDataFrame _ => Ok []
  end.

Definition raw_event (activity : string) (posix : Z) : RawEvent :=
  {[ "concept:name" := AStr activity; "time:timestamp" := ATime (inject_Z posix) ]}.

(** One case whose events are recorded out of time order, two of them with
    the same timestamp. *)
Definition log_unordered : log_obj unit :=
  LogEventLog [ [raw_event "B" 5; raw_event "C" 5; raw_event "A" 1] ].

(** [apply] with the sample collaborators and a resolver that returns empty
    graphs. *)
Definition sample_apply : log_obj unit → option (gmap string string) → result (DFG * DFG) :=
  apply unit default_param_value "concept:name" "time:timestamp"
    (λ _ _ _ _, Ok []) (λ _ _ _ _, Ok ([], [])).

Definition sample_preprocess_log
  : log_obj unit → option (gmap string string) → result pyobj :=
  preprocess_log unit (λ df _, Ok df) default_param_value
    "concept:name" "time:timestamp" "concept:name" convert_event_log.

Definition sample_traces_list
  : log_obj unit → option (gmap string string) → result (list (list StreamEvent)) :=
  preprocess_log_traces_list unit (λ df _, Ok df) default_param_value
    "concept:name" "time:timestamp" "concept:name" convert_event_log.

(** ** Further notions used in the statements *)

(** [M] has [n] rows of [n] cells. *)
Definition has_shape (n : nat) (M : Matrix) : Prop :=
  length M = n ∧ Forall (λ row, length row = n) M.

(** In every trace where both occur, each occurrence of [i] is strictly
    before each occurrence of [j]. *)
Definition always_before (i j : nat) (trace_grouped_list : list (list (list Event))) : bool :=
  forallb (λ tr, all_before (occ tr i) (occ tr j)) trace_grouped_list.

(** In no trace is an occurrence of [i] strictly before an occurrence of [j]. *)
Definition never_before (i j : nat) (trace_grouped_list : list (list (list Event))) : bool :=
  forallb (λ tr, forallb (λ a, forallb (λ b, negb (float_lt a b)) (occ tr j)) (occ tr i))
    trace_grouped_list.

(** One case in which A and B have the same timestamp. *)
Definition grouped_tie : list (list (list Event)) :=
  [ [ [at_time "A" 5 0]; [at_time "B" 5 1] ] ].

(** A computation that returns or raises [IndexError], nothing else. *)
Definition returns_or_IndexError {A : Type} (r : result A) : Prop :=
  match r with
  | Ok _ => True
  | Raise IndexError => True
  | _ => False
  end.

(** ** The FIFO match, written like the LIFO match *)

(** The earliest not-yet-consumed j-occurrence whose timestamp is strictly
    greater than [a], together with the occurrences left unconsumed. *)
Fixpoint take_earliest_after (a : Q) (unconsumed : list Q) : option (Q * list Q) :=
  match unconsumed with
  | [] => None
  | b :: rest =>
      if float_lt a b then Some (b, rest)
      else match take_earliest_after a rest with
           | Some (b', rest') => Some (b', b :: rest')
           | None => None
           end
  end.

(** Scan the i-occurrences in increasing time order; each one consumes the
    earliest qualifying j-occurrence, if there is one, and records the gap. *)
Fixpoint fifo_match (ai : list Q) (unconsumed : list Q) : list Q :=
  match ai with
  | [] => []
  | a :: ai' =>
      match take_earliest_after a unconsumed with
      | Some (b, unconsumed') => (b - a)%Q :: fifo_match ai' unconsumed'
      | None => fifo_match ai' unconsumed
      end
  end.

(** [samples] are the gaps of a matching between [ai] and [aj]: some of the
    occurrences of [ai] and as many of [aj], each list in its own order and
    each occurrence taken at most once, are paired position by position,
    every i-occurrence strictly before its partner. *)
Definition is_matching (ai aj samples : list Q) : Prop :=
  ∃ used_i used_j,
    used_i `sublist_of` ai ∧ used_j `sublist_of` aj
    ∧ Forall2 (λ a b, float_lt a b = true) used_i used_j
    ∧ samples = zip_with (λ a b, (b - a)%Q) used_i used_j.

(** ** The gap samples of the two matches *)

(** The gaps of the FIFO match and of the LIFO match of the ordered pair
    [(i, j)], collected trace by trace over the traces where both occurrence
    lists are non-empty. *)
Definition fifo_gaps (i j : nat) (trace_grouped_list : list (list (list Event))) : list Q :=
  concat ((λ tr, if truthy (occ tr i) && truthy (occ tr j)
                 then fifo_match (occ tr i) (occ tr j) else [])
            <$> trace_grouped_list).

Definition lifo_gaps (i j : nat) (trace_grouped_list : list (list (list Event))) : list Q :=
  concat ((λ tr, if truthy (occ tr i) && truthy (occ tr j)
                 then lifo_spec (occ tr i) (occ tr j) else [])
            <$> trace_grouped_list).

(** ** The grouping of lines 52-58 and the events [preprocess_log] accepts *)

(** Lines 52-58: per trace, one list per activity with the events of that
    activity, in the order of the trace. *)
Definition group_by_activity (activities : list attr) (traces_list : list (list Event))
  : list (list (list Event)) :=
  (λ trace,
     (λ act, List.filter (λ x, attr_eqb (ev_activity x) act) trace) <$> activities)
    <$> traces_list.

(** An event that line 86 can read: it has the activity attribute and a
    [datetime] under the timestamp attribute. *)
Definition readable_event (activity_key timestamp_key : string) (e : RawEvent) : bool :=
  match e !! activity_key, e !! timestamp_key with
  | Some _, Some (ATime _) => true
  | _, _ => false
  end.

(** The exception line 86 raises on an event it cannot read. *)
Definition event_error (activity_key timestamp_key : string) (e : RawEvent) : exn :=
  match e !! activity_key with
  | None => KeyError activity_key
  | Some _ =>
      match e !! timestamp_key with
      | None => KeyError timestamp_key
      | Some _ => AttributeError
      end
  end.

(** An event that lacks the activity attribute, and one whose timestamp is a
    string. *)
Definition event_without_activity : RawEvent :=
  {[ "time:timestamp" := ATime 7 ]}.

Definition event_with_text_time : RawEvent :=
  {[ "concept:name" := AStr "A"; "time:timestamp" := AStr "noon" ]}.

(** ** pm4py/algo/tokenreplay/performance_map.py: the aggregation helpers *)

(** [str(z)] for an [int]. *)
Definition py_str (z : Z) : string := NilZero.string_of_int (Z.to_int z).

(** [int(c)]: a float is truncated towards zero. *)
Definition py_int (c : Q) : Z := Z.quot (Qnum c) (Z.pos (Qden c)).

(** human_readable_stat (lines 99-124) *)
Definition human_readable_stat (c : Q) : string :=
  let c := py_int c in
  let days := c / 86400 in
  let hours := (c / 3600) mod 24 in
  let minutes := (c / 60) mod 60 in
  let seconds := c mod 60 in
  if 0 <? days then String.append (py_str days) "D"
  else if 0 <? hours then String.append (py_str hours) "h"
  else if 0 <? minutes then String.append (py_str minutes) "m"
  else String.append (py_str seconds) "s".

(** The keys of the statistics dict: the places, transitions and arcs of the
    net. *)
Inductive element :=
  | Place (name : string)
  | Transition (name : string) (label : option string)
  | Arc (source target : string).

(** The value kept per element: ["count"] and, for an arc, the list under
    ["performance"]. *)
Record element_statistics := mk_statistics {
  st_count : Z;
  st_performance : list Q
}.

(** The statistics dict, its items in insertion order; a loop over
    [statistics.keys()] that reads [statistics[elem]] visits each item once. *)
Abbreviation statistics_dict := (list (element * element_statistics)).

(** find_min_max_trans_frequency (lines 126-150) *)
Definition find_min_max_trans_frequency (statistics : statistics_dict) : Z * Z :=
  foldl
    (λ '(min_frequency, max_frequency) '(elem, st),
       match elem with
       | Transition _ _ =>
           (if st_count st <? min_frequency then st_count st else min_frequency,
            if max_frequency <? st_count st then st_count st else max_frequency)
       | _ => (min_frequency, max_frequency)
       end)
    (9999999999, 0) statistics.

(** find_min_max_arc_frequency (lines 152-176) *)
Definition find_min_max_arc_frequency (statistics : statistics_dict) : Z * Z :=
  foldl
    (λ '(min_frequency, max_frequency) '(elem, st),
       match elem with
       | Arc _ _ =>
           (if st_count st <? min_frequency then st_count st else min_frequency,
            if max_frequency <? st_count st then st_count st else max_frequency)
       | _ => (min_frequency, max_frequency)
       end)
    (9999999999, 0) statistics.

(** find_min_max_arc_performance (lines 178-204) *)
Definition find_min_max_arc_performance (statistics : statistics_dict) : Q * Q :=
  foldl
    (λ '(min_performance, max_performance) '(elem, st),
       match elem with
       | Arc _ _ =>
           if truthy (st_performance st) then
             let aggr_stat := mean (st_performance st) in
             (if float_lt aggr_stat min_performance then aggr_stat else min_performance,
              if float_lt max_performance aggr_stat then aggr_stat else max_performance)
           else (min_performance, max_performance)
       | _ => (min_performance, max_performance)
       end)
    (inject_Z 9999999999, 0%Q) statistics.

(** A small statistics dict: two transitions, two arcs and a place. *)
Definition sample_statistics : statistics_dict :=
  [ (Transition "t1" (Some "A"), mk_statistics 5 []);
    (Arc "p1" "t1", mk_statistics 5 [2; 4]%Q);
    (Place "p1", mk_statistics 7 []);
    (Transition "t2" None, mk_statistics 3 []);
    (Arc "t1" "p2", mk_statistics 4 []) ].
(** * Properties *)

(** ** The result monad, indexing, comparison *)

Lemma py_index_of_nat {A : Type} (l : list A) (k : nat) :
  py_index l (Z.of_nat k) = py_item l k.
Proof.
  unfold py_index, py_item.
  assert ((0 <=? Z.of_nat k) = true) as Hk by (apply Z.leb_le; lia).
  cbv zeta. by rewrite !Hk, Nat2Z.id.
Qed.

Lemma float_lt_spec (a b : Q) : float_lt a b = true ↔ (a < b)%Q.
Proof.
  unfold float_lt. rewrite negb_true_iff, <- not_true_iff_false, Qle_bool_iff.
  split; [apply Qnot_le_lt | apply Qlt_not_le].
Qed.

Lemma float_lt_false (a b : Q) : float_lt a b = false ↔ (b <= a)%Q.
Proof.
  unfold float_lt. rewrite negb_false_iff. apply Qle_bool_iff.
Qed.

Lemma len_nil {A : Type} : len (@nil A) = 0.
Proof. reflexivity. Qed.

Lemma len_cons {A : Type} (x : A) (l : list A) : len (x :: l) = 1 + len l.
Proof. unfold len. simpl length. lia. Qed.

Lemma len_nonneg {A : Type} (l : list A) : 0 <= len l.
Proof. unfold len. lia. Qed.

Lemma len_drop_le {A : Type} (n : nat) (l : list A) : len (drop n l) <= len l.
Proof. unfold len. rewrite length_drop. lia. Qed.

(** A loop over [range(start, start + cnt)] that keeps an invariant. *)
Lemma for_each_seq_inv {S : Type} (I : nat → S → Prop)
    (body : S → nat → result S) (cnt start : nat) (s : S) :
  I start s →
  (∀ i s, (start ≤ i < start + cnt)%nat → I i s →
          ∃ s', body s i = Ok s' ∧ I (Datatypes.S i) s') →
  ∃ s', for_each body s (seq start cnt) = Ok s' ∧ I (start + cnt)%nat s'.
Proof.
  revert start s. induction cnt as [|cnt IH]; intros start s Hs Hstep.
  - exists s. rewrite Nat.add_0_r. done.
  - destruct (Hstep start s) as (s1 & Hb & Hs1); [lia | done |].
    destruct (IH (Datatypes.S start) s1) as (s2 & Hf & Hs2); [done | |].
    { intros i s' Hi. apply Hstep. lia. }
    exists s2. simpl. rewrite Hb. simpl. split; [done|].
    by replace (start + Datatypes.S cnt)%nat with (Datatypes.S start + cnt)%nat by lia.
Qed.

Lemma ps_skip_le (a : Q) (rest : list Q) : (ps_skip a rest ≤ length rest)%nat.
Proof. induction rest as [|b rest IH]; simpl; [lia|]. destruct (float_lt a b); simpl; lia. Qed.

Lemma ps_inner_loop (ai aj : list Q) (k : nat) (a : Q) (c : Z) :
  ai !! k = Some a →
  ∀ fuel z, (z ≤ length aj)%nat → (length aj - z < fuel)%nat →
    while fuel (λ s, ps_z s <? len aj) (ps_inner_body ai aj)
      (mk_ps (Z.of_nat k) (Z.of_nat z) c)
    = Ok (mk_ps (Z.of_nat k) (Z.of_nat (z + ps_skip a (drop z aj))) c).
Proof.
  intros Ha. induction fuel as [|fuel IH]; intros z Hz Hfuel; [lia|].
  cbn [while ps_z]. unfold len.
  destruct (Z.ltb_spec (Z.of_nat z) (Z.of_nat (length aj))) as [Hlt|Hge].
  - destruct (lookup_lt_is_Some_2 aj z) as [b Hb]; [lia|].
    rewrite (drop_S _ _ _ Hb). cbn [ps_skip].
    unfold ps_inner_body. cbn [ps_k ps_z ps_count].
    rewrite !py_index_of_nat. unfold py_item. rewrite Ha, Hb. cbn.
    destruct (float_lt a b); cbn.
    + by rewrite Nat.add_0_r.
    + replace (Z.of_nat z + 1) with (Z.of_nat (Datatypes.S z)) by lia.
      rewrite IH by lia. do 3 f_equal. lia.
  - rewrite drop_ge by lia. cbn. by rewrite Nat.add_0_r.
Qed.

Lemma while_step {S : Type} (fuel : nat) (cond : S → bool)
    (body : S → result (flow * S)) (s s' : S) :
  cond s = true → body s = Ok (Next, s') →
  while (Datatypes.S fuel) cond body s = while fuel cond body s'.
Proof. intros Hc Hb. cbn [while]. by rewrite Hc, Hb. Qed.

Lemma while_break {S : Type} (fuel : nat) (cond : S → bool)
    (body : S → result (flow * S)) (s s' : S) :
  cond s = true → body s = Ok (Break, s') →
  while (Datatypes.S fuel) cond body s = Ok s'.
Proof. intros Hc Hb. cbn [while]. by rewrite Hc, Hb. Qed.

Lemma while_exit {S : Type} (fuel : nat) (cond : S → bool)
    (body : S → result (flow * S)) (s : S) :
  cond s = false → while (Datatypes.S fuel) cond body s = Ok s.
Proof. intros Hc. cbn [while]. by rewrite Hc. Qed.

Lemma ps_outer_body_eq (ai aj : list Q) (k z : nat) (a : Q) (c : Z) :
  ai !! k = Some a → (z ≤ length aj)%nat →
  let z' := (z + ps_skip a (drop z aj))%nat in
  ps_outer_body ai aj (mk_ps (Z.of_nat k) (Z.of_nat z) c)
  = Ok (Next, mk_ps (Z.of_nat (Datatypes.S k)) (Z.of_nat z') (c + len (drop z' aj))).
Proof.
  intros Ha Hz z'. unfold ps_outer_body.
  rewrite (ps_inner_loop ai aj k a c Ha) by lia. cbn.
  pose proof (ps_skip_le a (drop z aj)) as Hskip. rewrite length_drop in Hskip.
  do 3 f_equal; unfold len; [lia|]. rewrite length_drop. lia.
Qed.

Lemma ps_outer_loop (ai aj : list Q) :
  ∀ fuel k z c, (k ≤ length ai)%nat → (z ≤ length aj)%nat →
    (length ai - k < fuel)%nat →
    ∃ z', while fuel (λ s, ps_k s <? len ai) (ps_outer_body ai aj)
            (mk_ps (Z.of_nat k) (Z.of_nat z) c)
          = Ok (mk_ps (len ai) z' (c + ps_scan (drop k ai) (drop z aj))).
Proof.
  induction fuel as [|fuel IH]; intros k z c Hk Hz Hfuel; [lia|].
  destruct (decide (k < length ai)%nat) as [Hlt|Hge].
  - destruct (lookup_lt_is_Some_2 ai k) as [a Ha]; [lia|].
    rewrite (drop_S _ _ _ Ha). cbn [ps_scan].
    pose proof (ps_skip_le a (drop z aj)) as Hskip. rewrite length_drop in Hskip.
    erewrite while_step;
      [| cbn; unfold len; apply Z.ltb_lt; lia | by apply ps_outer_body_eq].
    destruct (IH (Datatypes.S k) (z + ps_skip a (drop z aj))%nat
                (c + len (drop (z + ps_skip a (drop z aj)) aj)))
      as [z' Hz']; [lia..|].
    exists z'. rewrite Hz', drop_drop. do 2 f_equal. lia.
  - exists (Z.of_nat z). rewrite while_exit by (cbn; unfold len; apply Z.ltb_ge; lia).
    rewrite drop_ge by lia. cbn. do 2 f_equal; unfold len; lia.
Qed.

(** Lines 120-128 return, and add [ps_scan ai aj] to [count]. *)
Lemma ps_loops (ai aj : list Q) (count : Z) :
  ∃ s, while (S (length ai)) (λ s, ps_k s <? len ai) (ps_outer_body ai aj)
         (mk_ps 0 0 count) = Ok s
       ∧ ps_count s = count + ps_scan ai aj.
Proof.
  destruct (ps_outer_loop ai aj (S (length ai)) O O count) as [z' Hz']; [lia..|].
  eexists. split; [exact Hz'|]. done.
Qed.

Lemma pairs_before_nil (aj : list Q) : pairs_before [] aj = 0.
Proof. reflexivity. Qed.

Lemma pairs_before_cons (a : Q) (ai aj : list Q) :
  pairs_before (a :: ai) aj = count_after a aj + pairs_before ai aj.
Proof.
  unfold pairs_before, count_after, len. cbn [list_prod].
  rewrite List.filter_app, length_app, Nat2Z.inj_add. f_equal. f_equal.
  induction aj as [|b aj IH]; [done|]. cbn. destruct (float_lt a b); cbn; lia.
Qed.

Lemma count_after_cons (a b : Q) (aj : list Q) :
  count_after a (b :: aj) = (if float_lt a b then 1 else 0) + count_after a aj.
Proof.
  unfold count_after. cbn. destruct (float_lt a b); [rewrite len_cons|]; lia.
Qed.

Lemma count_after_bounds (a : Q) (aj : list Q) : 0 <= count_after a aj <= len aj.
Proof.
  induction aj as [|b aj IH]; [done|].
  rewrite count_after_cons, len_cons. destruct (float_lt a b); lia.
Qed.

Lemma count_after_all (a : Q) (aj : list Q) :
  Forall (λ b, float_lt a b = true) aj → count_after a aj = len aj.
Proof.
  induction 1 as [|b aj Hb _ IH]; [done|].
  rewrite count_after_cons, len_cons, Hb. lia.
Qed.

Lemma count_after_none (a : Q) (aj : list Q) :
  Forall (λ b, float_lt a b = false) aj → count_after a aj = 0.
Proof.
  induction 1 as [|b aj Hb _ IH]; [done|].
  rewrite count_after_cons, Hb. lia.
Qed.

Lemma nondecreasing_cons (a : Q) (l : list Q) :
  nondecreasing (a :: l) = true →
  Forall (λ b, (a <= b)%Q) l ∧ nondecreasing l = true.
Proof.
  revert a. induction l as [|b l IH]; intros a H; [done|].
  cbn [nondecreasing] in H. apply andb_true_iff in H as [Hab Hl].
  apply Qle_bool_iff in Hab. split; [|done].
  constructor; [done|]. destruct (IH b Hl) as [Hall _].
  eapply Forall_impl; [exact Hall|]. intros c Hc. cbn in Hc. by eapply Qle_trans.
Qed.

(** On a sorted [aj], the forward pointer leaves exactly the occurrences
    after [a], and drops none that a later [a'] could still count. *)
Lemma ps_skip_sorted (a : Q) (aj : list Q) :
  nondecreasing aj = true →
  let rest := drop (ps_skip a aj) aj in
  len rest = count_after a aj
  ∧ nondecreasing rest = true
  ∧ ∀ a', (a <= a')%Q → count_after a' rest = count_after a' aj.
Proof.
  induction aj as [|b aj IH]; intros Hs; [done|].
  destruct (nondecreasing_cons _ _ Hs) as [Hb Haj].
  cbn [ps_skip]. destruct (float_lt a b) eqn:Hab.
  - cbn [drop]. split; [|done]. symmetry. apply count_after_all.
    apply float_lt_spec in Hab. constructor; [by apply float_lt_spec|].
    eapply Forall_impl; [exact Hb|]. intros c Hc. cbn in Hc.
    apply float_lt_spec. by eapply Qlt_le_trans.
  - cbn [drop]. destruct (IH Haj) as (Hlen & Hnd & Hlater).
    rewrite count_after_cons, Hab. split; [by rewrite Hlen|]. split; [done|].
    intros a' Ha'. rewrite count_after_cons, (Hlater a' Ha').
    apply float_lt_false in Hab.
    assert (float_lt a' b = false) as ->; [|done].
    apply float_lt_false. by eapply Qle_trans.
Qed.

Lemma pairs_before_ext (ai aj aj' : list Q) :
  Forall (λ a, count_after a aj' = count_after a aj) ai →
  pairs_before ai aj' = pairs_before ai aj.
Proof.
  induction 1 as [|a ai Ha _ IH]; [done|].
  by rewrite !pairs_before_cons, Ha, IH.
Qed.

(** The two-pointer merge counts what the naive double loop counts. *)
Lemma ps_scan_sorted (ai aj : list Q) :
  nondecreasing ai = true → nondecreasing aj = true →
  ps_scan ai aj = pairs_before ai aj.
Proof.
  revert aj. induction ai as [|a ai IH]; intros aj Hai Haj; [done|].
  destruct (nondecreasing_cons _ _ Hai) as [Ha Hai'].
  destruct (ps_skip_sorted a aj Haj) as (Hlen & Hnd & Hlater).
  cbn [ps_scan]. rewrite pairs_before_cons, Hlen, (IH _ Hai' Hnd).
  f_equal. apply pairs_before_ext.
  eapply Forall_impl; [exact Ha|]. intros a' Ha'. by apply Hlater.
Qed.

(** Without any order on the lists the merge still stays within the total. *)
Lemma ps_scan_bounds (ai aj : list Q) : 0 <= ps_scan ai aj <= len ai * len aj.
Proof.
  revert aj. induction ai as [|a ai IH]; intros aj; [cbn; unfold len; cbn; lia|].
  cbn [ps_scan]. rewrite len_cons.
  pose proof (IH (drop (ps_skip a aj) aj)) as IH'.
  pose proof (len_drop_le (ps_skip a aj) aj).
  pose proof (len_nonneg (drop (ps_skip a aj) aj)).
  pose proof (len_nonneg ai). nia.
Qed.

(** Every i-occurrence strictly before every j-occurrence: all pairs count. *)
Lemma ps_scan_all_before (ai aj : list Q) :
  Forall (λ a, Forall (λ b, float_lt a b = true) aj) ai →
  ps_scan ai aj = len ai * len aj.
Proof.
  induction 1 as [|a ai Ha _ IH]; [done|].
  cbn [ps_scan]. rewrite len_cons.
  assert (ps_skip a aj = O) as ->.
  { destruct Ha as [|b aj Hb _]; [done|]. cbn. by rewrite Hb. }
  rewrite drop_0, IH. lia.
Qed.

(** No i-occurrence strictly before a j-occurrence: nothing counts. *)
Lemma ps_scan_none_before (ai aj : list Q) :
  Forall (λ a, Forall (λ b, float_lt a b = false) aj) ai →
  ps_scan ai aj = 0.
Proof.
  intros H. assert (∀ ai', ps_scan ai' [] = 0) as Hnil.
  { induction ai' as [|a' ai' IH']; [done|]. cbn. rewrite IH'. done. }
  destruct H as [|a ai Ha _]; [done|].
  cbn [ps_scan].
  assert (drop (ps_skip a aj) aj = []) as ->; [|by rewrite Hnil].
  induction Ha as [|b aj Hb _ IH]; [done|]. cbn. by rewrite Hb.
Qed.

(** ** Reading and writing matrix cells *)

Lemma represents_ext (n : nat) (M : Matrix) (f g : nat → nat → Q) :
  represents n M f →
  (∀ a b, (a < n)%nat → (b < n)%nat → f a b = g a b) →
  represents n M g.
Proof. intros HM Hfg a b Ha Hb. rewrite <- Hfg by done. by apply HM. Qed.

Lemma represents_zeros (n : nat) : represents n (np_zeros n n) (λ _ _, 0%Q).
Proof.
  intros a b Ha Hb. unfold cell, np_zeros.
  rewrite (lookup_replicate_2 n (replicate n 0%Q) a Ha).
  exact (lookup_replicate_2 n 0%Q b Hb).
Qed.

Lemma represents_get (n : nat) (M : Matrix) (f : nat → nat → Q) (i j : nat) :
  represents n M f → (i < n)%nat → (j < n)%nat → mat_get M i j = Ok (f i j).
Proof.
  intros HM Hi Hj. specialize (HM i j Hi Hj). unfold cell in HM.
  unfold mat_get, py_item. destruct (M !! i) as [row|]; [|done]. cbn in *.
  by rewrite HM.
Qed.

Lemma represents_set (n : nat) (M : Matrix) (f : nat → nat → Q) (i j : nat) (v : Q) :
  represents n M f → (i < n)%nat → (j < n)%nat →
  ∃ M', mat_set M i j v = Ok M'
        ∧ represents n M' (λ a b, if bool_decide (a = i ∧ b = j) then v else f a b).
Proof.
  intros HM Hi Hj. pose proof (HM i j Hi Hj) as Hij. unfold cell in Hij.
  unfold mat_set, py_item. destruct (M !! i) as [row|] eqn:Hrow; [|done]. cbn in *.
  rewrite Hij. cbn. eexists. split; [done|].
  intros a b Ha Hb. unfold cell.
  destruct (decide (a = i)) as [->|Hne].
  - rewrite list_lookup_insert_eq by (by eapply lookup_lt_Some). cbn.
    destruct (decide (b = j)) as [->|Hne].
    + rewrite list_lookup_insert_eq by (by eapply lookup_lt_Some).
      by rewrite bool_decide_eq_true_2.
    + rewrite list_lookup_insert_ne by done.
      rewrite bool_decide_eq_false_2 by (intros [? ?]; congruence).
      specialize (HM i b Hi Hb). unfold cell in HM. by rewrite Hrow in HM.
  - rewrite list_lookup_insert_ne by done.
    rewrite bool_decide_eq_false_2 by (intros [? ?]; congruence). by apply HM.
Qed.

(** ** The accumulation over the traces (lines 115-128) *)

Lemma well_shaped_cons (n : nat) tr (tgl : list (list (list Event))) :
  well_shaped n (tr :: tgl) = true ↔ (n ≤ length tr)%nat ∧ well_shaped n tgl = true.
Proof. unfold well_shaped. cbn. rewrite andb_true_iff, Nat.leb_le. done. Qed.

Lemma well_shaped_app (n : nat) (tgl tgl' : list (list (list Event))) :
  well_shaped n (tgl ++ tgl') = true ↔
  well_shaped n tgl = true ∧ well_shaped n tgl' = true.
Proof. unfold well_shaped. by rewrite forallb_app, andb_true_iff. Qed.

Lemma py_item_occ (tr : list (list Event)) (i : nat) :
  (i < length tr)%nat →
  ∃ tr_i, py_item tr i = Ok tr_i ∧ ev_timestamp <$> tr_i = occ tr i.
Proof.
  intros Hi. destruct (lookup_lt_is_Some_2 tr i Hi) as [tr_i Htr].
  exists tr_i. unfold py_item, occ. by rewrite Htr.
Qed.

Lemma ps_trace_eq (i j : nat) (count total : Z) (tr : list (list Event)) :
  (i < length tr)%nat → (j < length tr)%nat →
  ps_trace i j (count, total) tr
  = Ok (if truthy (occ tr i) && truthy (occ tr j)
        then (count + ps_scan (occ tr i) (occ tr j),
              total + len (occ tr i) * len (occ tr j))
        else (count, total)).
Proof.
  intros Hi Hj.
  destruct (py_item_occ tr i Hi) as (tr_i & Hti & Hoi).
  destruct (py_item_occ tr j Hj) as (tr_j & Htj & Hoj).
  unfold ps_trace. rewrite Hti. cbn [mbind result_bind]. rewrite Htj.
  cbn [mbind result_bind]. rewrite Hoi, Hoj.
  destruct (truthy (occ tr i) && truthy (occ tr j)); [|done].
  destruct (ps_loops (occ tr i) (occ tr j) count) as (s & Hs & Hc).
  rewrite Hs. cbn. by rewrite Hc.
Qed.

Lemma ps_fold_eq (n i j : nat) (tgl : list (list (list Event))) :
  (i < n)%nat → (j < n)%nat → well_shaped n tgl = true →
  ∀ count total,
    for_each (ps_trace i j) (count, total) tgl
    = Ok (count + merged_count i j tgl, total + naive_total i j tgl).
Proof.
  intros Hi Hj. induction tgl as [|tr tgl IH]; intros Hws count total.
  - cbn. by rewrite !Z.add_0_r.
  - apply well_shaped_cons in Hws as [Htr Hws].
    cbn [for_each]. rewrite ps_trace_eq by lia. cbn [mbind result_bind].
    unfold merged_count, naive_total. cbn [fmap list_fmap foldr].
    fold (merged_count i j tgl). fold (naive_total i j tgl).
    destruct (truthy (occ tr i) && truthy (occ tr j));
      rewrite (IH Hws); do 2 f_equal; lia.
Qed.

(** ** The loops over the cells of the precedence matrix *)

Ltac split_cells :=
  unfold ps_fun, before_cell;
  repeat case_bool_decide;
  repeat match goal with
         | H : _ ∧ _ |- _ => destruct H
         end;
  subst; try done; try lia.

Lemma ps_cell_step (n i j : nat) (tgl : list (list (list Event))) (M : Matrix) :
  (i < j)%nat → (j < n)%nat → well_shaped n tgl = true →
  represents n M (ps_fun (ps_value tgl) (before_cell i j)) →
  ∃ M', ps_cell tgl i M j = Ok M'
        ∧ represents n M' (ps_fun (ps_value tgl) (before_cell i (S j))).
Proof.
  intros Hij Hj Hws HM. unfold ps_cell.
  rewrite (ps_fold_eq n) by (done || lia). cbn [mbind result_bind].
  rewrite !Z.add_0_l.
  assert (∃ M1,
    (if 0 <? naive_total i j tgl
     then mat_set M i j (float_div (merged_count i j tgl) (naive_total i j tgl))
     else Ok M) = Ok M1
    ∧ represents n M1 (λ a b, if bool_decide (a = i ∧ b = j) then ps_value tgl i j
                              else ps_fun (ps_value tgl) (before_cell i j) a b))
    as (M1 & -> & HM1).
  { unfold ps_value at 1, ratio.
    destruct (0 <? naive_total i j tgl).
    - apply represents_set; [done|lia..].
    - exists M. split; [done|]. eapply represents_ext; [exact HM|].
      intros a b _ _. split_cells. }
  cbn [mbind result_bind].
  rewrite (represents_get n M1 _ i j HM1) by lia. cbn [mbind result_bind].
  rewrite bool_decide_eq_true_2 by done.
  destruct (represents_set n M1 _ j i (1 - ps_value tgl i j)%Q HM1) as (M2 & -> & HM2);
    [lia..|].
  exists M2. split; [done|]. eapply represents_ext; [exact HM2|].
  intros a b _ _. cbn beta. split_cells.
Qed.

Lemma ps_row_step (n i : nat) (tgl : list (list (list Event))) (M : Matrix) :
  (i < n)%nat → well_shaped n tgl = true →
  represents n M (ps_fun (ps_value tgl) (before_cell i 0)) →
  ∃ M', for_each (ps_cell tgl i) M (seq (i + 1) (n - (i + 1))) = Ok M'
        ∧ represents n M' (ps_fun (ps_value tgl) (before_cell (S i) 0)).
Proof.
  intros Hi Hws HM.
  destruct (for_each_seq_inv
              (λ j M, represents n M (ps_fun (ps_value tgl) (before_cell i j)))
              (ps_cell tgl i) (n - (i + 1)) (i + 1) M) as (M' & HM' & Hrep).
  - eapply represents_ext; [exact HM|]. intros a b _ _. split_cells.
  - intros j M1 Hj HM1. apply ps_cell_step; [lia..|done|done].
  - exists M'. split; [done|]. eapply represents_ext; [exact Hrep|].
    intros a b Ha Hb. cbn beta. split_cells.
Qed.

(** On a well-shaped input the function returns, and its cells are known. *)
Lemma ps_matrix_cells {L : Type} (activities : list L)
    (tgl : list (list (list Event))) (timestamp_key : string) :
  well_shaped (length activities) tgl = true →
  ∃ M, get_precede_succeed_matrix activities tgl timestamp_key = Ok M
       ∧ represents (length activities) M (ps_fun (ps_value tgl) (λ _ _, true)).
Proof.
  intros Hws. unfold get_precede_succeed_matrix. cbv zeta.
  set (n := length activities) in *.
  destruct (for_each_seq_inv
              (λ i M, represents n M (ps_fun (ps_value tgl) (before_cell i 0)))
              (λ ret i, for_each (ps_cell tgl i) ret (seq (i + 1) (n - (i + 1))))
              n 0 (np_zeros n n)) as (M & HM & Hrep).
  - eapply represents_ext; [apply represents_zeros|].
    intros a b _ _. split_cells.
  - intros i M1 Hi HM1. apply ps_row_step; [lia|done|done].
  - exists M. split; [done|]. eapply represents_ext; [exact Hrep|].
    intros a b Ha Hb. cbn beta. split_cells.
Qed.

(** ** Sums over the traces *)

Lemma Zsum_snoc (l : list Z) (x : Z) : foldr Z.add 0 (l ++ [x]) = foldr Z.add 0 l + x.
Proof. induction l as [|y l IH]; cbn; lia. Qed.

Lemma merged_count_snoc (i j : nat) (tgl : list (list (list Event))) tr :
  merged_count i j (tgl ++ [tr])
  = merged_count i j tgl
    + (if truthy (occ tr i) && truthy (occ tr j)
       then ps_scan (occ tr i) (occ tr j) else 0).
Proof. unfold merged_count. rewrite fmap_app. apply Zsum_snoc. Qed.

Lemma naive_total_snoc (i j : nat) (tgl : list (list (list Event))) tr :
  naive_total i j (tgl ++ [tr])
  = naive_total i j tgl
    + (if truthy (occ tr i) && truthy (occ tr j)
       then len (occ tr i) * len (occ tr j) else 0).
Proof. unfold naive_total. rewrite fmap_app. apply Zsum_snoc. Qed.

Lemma merged_count_bounds (i j : nat) (tgl : list (list (list Event))) :
  0 <= merged_count i j tgl <= naive_total i j tgl.
Proof.
  induction tgl as [|tr tgl IH]; [done|].
  unfold merged_count, naive_total. cbn [fmap list_fmap foldr].
  fold (merged_count i j tgl). fold (naive_total i j tgl).
  pose proof (ps_scan_bounds (occ tr i) (occ tr j)).
  destruct (truthy (occ tr i) && truthy (occ tr j)); lia.
Qed.

Lemma merged_count_sorted (i j : nat) (tgl : list (list (list Event))) :
  sorted_occurrences i j tgl = true → merged_count i j tgl = naive_count i j tgl.
Proof.
  induction tgl as [|tr tgl IH]; [done|].
  unfold sorted_occurrences. cbn [forallb].
  rewrite !andb_true_iff. intros [[Hi Hj] Htgl].
  unfold merged_count, naive_count. cbn [fmap list_fmap foldr].
  fold (merged_count i j tgl). fold (naive_count i j tgl).
  rewrite (IH Htgl), (ps_scan_sorted _ _ Hi Hj). done.
Qed.

Lemma naive_total_never_together (i j : nat) (tgl : list (list (list Event))) :
  never_together i j tgl = true → naive_total i j tgl = 0.
Proof.
  induction tgl as [|tr tgl IH]; [done|].
  unfold never_together. cbn [forallb].
  rewrite andb_true_iff, negb_true_iff. intros [Htr Htgl].
  unfold naive_total. cbn [fmap list_fmap foldr]. fold (naive_total i j tgl).
  by rewrite Htr, (IH Htgl).
Qed.

Lemma all_before_Forall (ai aj : list Q) :
  all_before ai aj = true → Forall (λ a, Forall (λ b, float_lt a b = true) aj) ai.
Proof.
  unfold all_before. rewrite forallb_forall, Forall_forall.
  intros H a Ha. apply Forall_forall. intros b Hb.
  apply list_elem_of_In in Ha, Hb.
  specialize (H a Ha). rewrite forallb_forall in H. by apply H.
Qed.

Lemma all_before_none_after (ai aj : list Q) :
  all_before ai aj = true → Forall (λ b, Forall (λ a, float_lt b a = false) ai) aj.
Proof.
  intros H. apply all_before_Forall in H.
  apply Forall_forall. intros b Hb. apply Forall_forall. intros a Ha.
  rewrite Forall_forall in H. specialize (H a Ha).
  rewrite Forall_forall in H. specialize (H b Hb).
  apply float_lt_spec in H. apply float_lt_false. by apply Qlt_le_weak.
Qed.

Lemma truthy_len_pos {A : Type} (l : list A) : truthy l = true → 0 < len l.
Proof. destruct l; [done|]. intros _. rewrite len_cons. pose proof (len_nonneg l). lia. Qed.

(** ** Arithmetic of [count / total] *)

Lemma float_div_pos (c : Z) (t : positive) : (float_div c (Z.pos t) == c # t)%Q.
Proof. unfold float_div. symmetry. apply Qmake_Qdiv. Qed.

Lemma ratio_grows (c t m : Z) :
  0 <= c <= t → 0 < m → (ratio c t <= ratio (c + m) (t + m))%Q.
Proof.
  intros Hc Hm. unfold ratio.
  destruct (Z.ltb_spec 0 (t + m)) as [_|?]; [|lia].
  destruct (t + m) as [|tm|] eqn:Htm; [lia| |lia].
  rewrite float_div_pos.
  destruct (Z.ltb_spec 0 t) as [Ht|Ht].
  - destruct t as [|tp|]; [lia| |lia]. rewrite float_div_pos.
    unfold Qle. cbn [Qnum Qden]. nia.
  - unfold Qle. cbn [Qnum Qden]. nia.
Qed.

Lemma ratio_shrinks (c t m : Z) :
  0 <= c <= t → 0 < m → (ratio c (t + m) <= ratio c t)%Q.
Proof.
  intros Hc Hm. unfold ratio.
  destruct (Z.ltb_spec 0 (t + m)) as [_|?]; [|lia].
  destruct (t + m) as [|tm|] eqn:Htm; [lia| |lia].
  rewrite float_div_pos.
  destruct (Z.ltb_spec 0 t) as [Ht|Ht].
  - destruct t as [|tp|]; [lia| |lia]. rewrite float_div_pos.
    unfold Qle. cbn [Qnum Qden]. nia.
  - assert (c = 0) as -> by lia. unfold Qle. cbn [Qnum Qden]. lia.
Qed.

(** ** What a returned precedence matrix holds *)

Lemma ps_matrix_entries {L : Type} (activities : list L)
    (tgl : list (list (list Event))) (timestamp_key : string) :
  well_shaped (length activities) tgl = true →
  ∃ M, get_precede_succeed_matrix activities tgl timestamp_key = Ok M
       ∧ (∀ i j, (i < j)%nat → (j < length activities)%nat →
            cell M i j = Some (ps_value tgl i j)
            ∧ cell M j i = Some (1 - ps_value tgl i j)%Q)
       ∧ (∀ i, (i < length activities)%nat → cell M i i = Some 0%Q).
Proof.
  intros Hws.
  destruct (ps_matrix_cells activities tgl timestamp_key Hws) as (M & HM & Hrep).
  exists M. split; [done|]. split.
  - intros i j Hij Hj. split.
    + rewrite (Hrep i j) by lia. f_equal. split_cells.
    + rewrite (Hrep j i) by lia. f_equal. split_cells.
  - intros i Hi. rewrite (Hrep i i) by lia. f_equal. split_cells.
Qed.

Lemma for_each_Ok_elem {S A : Type} (body : S → A → result S) (l : list A) :
  ∀ s s', for_each body s l = Ok s' →
  ∀ x, x ∈ l → ∃ s1 s2, body s1 x = Ok s2.
Proof.
  induction l as [|y l IH]; intros s s' Hfe x Hx; [by apply elem_of_nil in Hx|].
  cbn [for_each] in Hfe. destruct (body s y) as [s1| |] eqn:Hb; try done.
  cbn in Hfe. apply elem_of_cons in Hx as [->|Hx]; [by eauto|].
  by eapply IH.
Qed.

Lemma ps_trace_Ok (i j : nat) (ct ct' : Z * Z) (tr : list (list Event)) :
  ps_trace i j ct tr = Ok ct' → (j < length tr)%nat.
Proof.
  unfold ps_trace, py_item. destruct ct as [count total].
  destruct (tr !! i); [|done]. cbn [mbind result_bind].
  destruct (tr !! j) eqn:Hj; [|done]. intros _. by eapply lookup_lt_Some.
Qed.

Lemma ps_cell_Ok (tgl : list (list (list Event))) (i j : nat) (M M' : Matrix) :
  ps_cell tgl i M j = Ok M' → well_shaped (S j) tgl = true.
Proof.
  unfold ps_cell. intros H.
  destruct (for_each (ps_trace i j) (0, 0) tgl) as [ct| |] eqn:Hfe; try done.
  unfold well_shaped. apply forallb_forall. intros tr Htr.
  apply list_elem_of_In in Htr.
  destruct (for_each_Ok_elem _ _ _ _ Hfe tr Htr) as (s1 & s2 & Hs).
  apply Nat.leb_le. apply ps_trace_Ok in Hs. lia.
Qed.

(** With two activities or more, a matrix is returned only for a
    well-shaped grouped log: otherwise [tr[j]] raises [IndexError]. *)
Lemma ps_matrix_Ok_shape {L : Type} (activities : list L)
    (tgl : list (list (list Event))) (timestamp_key : string) (M : Matrix) :
  get_precede_succeed_matrix activities tgl timestamp_key = Ok M →
  (2 ≤ length activities)%nat →
  well_shaped (length activities) tgl = true.
Proof.
  unfold get_precede_succeed_matrix. cbv zeta.
  set (n := length activities). intros HM Hn.
  destruct (for_each_Ok_elem _ _ _ _ HM O) as (M1 & M2 & Hrow).
  { apply elem_of_seq. lia. }
  cbn beta in Hrow.
  destruct (for_each_Ok_elem _ _ _ _ Hrow (n - 1)%nat) as (M3 & M4 & Hcell).
  { apply elem_of_seq. lia. }
  apply ps_cell_Ok in Hcell. by replace (S (n - 1)) with n in Hcell by lia.
Qed.

(** ** The FIFO loops (lines 164-173) *)

Lemma fifo_step_le (a : Q) (rest : list Q) : ((fifo_step a rest).1 ≤ length rest)%nat.
Proof.
  induction rest as [|b rest IH]; cbn; [lia|].
  destruct (float_lt a b); cbn; [lia|].
  destruct (fifo_step a rest). cbn in *. lia.
Qed.

Lemma fifo_inner_loop (ai aj : list Q) (k : nat) (a : Q) :
  ai !! k = Some a →
  ∀ fuel z times, (z ≤ length aj)%nat → (length aj - z < fuel)%nat →
    while fuel (λ s, d_z s <? len aj) (fifo_inner_body ai aj)
      (mk_dur (Z.of_nat k) (Z.of_nat z) times)
    = Ok (mk_dur (Z.of_nat k) (Z.of_nat (z + (fifo_step a (drop z aj)).1))
            (times ++ (fifo_step a (drop z aj)).2)).
Proof.
  intros Ha. induction fuel as [|fuel IH]; intros z times Hz Hfuel; [lia|].
  destruct (decide (z < length aj)%nat) as [Hlt|Hge].
  - destruct (lookup_lt_is_Some_2 aj z Hlt) as [b Hb].
    rewrite (drop_S _ _ _ Hb). cbn [fifo_step].
    assert (fifo_inner_body ai aj (mk_dur (Z.of_nat k) (Z.of_nat z) times)
            = Ok (if float_lt a b
                  then (Break, mk_dur (Z.of_nat k) (Z.of_nat z + 1) (times ++ [(b - a)%Q]))
                  else (Next, mk_dur (Z.of_nat k) (Z.of_nat z + 1) times))) as Hbody.
    { unfold fifo_inner_body. cbn [d_k d_z d_times].
      rewrite !py_index_of_nat. unfold py_item. rewrite Ha, Hb. cbn.
      by destruct (float_lt a b). }
    destruct (float_lt a b).
    + erewrite while_break; [| cbn; unfold len; apply Z.ltb_lt; lia | exact Hbody].
      cbn. do 2 f_equal. lia.
    + erewrite while_step; [| cbn; unfold len; apply Z.ltb_lt; lia | exact Hbody].
      replace (Z.of_nat z + 1) with (Z.of_nat (S z)) by lia.
      rewrite IH by lia. destruct (fifo_step a (drop (S z) aj)) as [n gap].
      cbn. do 2 f_equal. lia.
  - rewrite while_exit by (cbn; unfold len; apply Z.ltb_ge; lia).
    rewrite drop_ge by lia. cbn. by rewrite Nat.add_0_r, app_nil_r.
Qed.

Lemma fifo_outer_loop (ai aj : list Q) :
  ∀ fuel k z times, (k ≤ length ai)%nat → (z ≤ length aj)%nat →
    (length ai - k < fuel)%nat →
    ∃ z', while fuel (λ s, d_k s <? len ai) (fifo_outer_body ai aj)
            (mk_dur (Z.of_nat k) (Z.of_nat z) times)
          = Ok (mk_dur (len ai) z' (times ++ fifo_scan (drop k ai) (drop z aj))).
Proof.
  induction fuel as [|fuel IH]; intros k z times Hk Hz Hfuel; [lia|].
  destruct (decide (k < length ai)%nat) as [Hlt|Hge].
  - destruct (lookup_lt_is_Some_2 ai k Hlt) as [a Ha].
    rewrite (drop_S _ _ _ Ha). cbn [fifo_scan].
    pose proof (fifo_step_le a (drop z aj)) as Hstep. rewrite length_drop in Hstep.
    erewrite while_step; [| cbn; unfold len; apply Z.ltb_lt; lia |].
    2:{ unfold fifo_outer_body. rewrite (fifo_inner_loop ai aj k a Ha) by lia.
        cbn. replace (Z.of_nat k + 1) with (Z.of_nat (S k)) by lia. done. }
    destruct (fifo_step a (drop z aj)) as [n gap]. cbn [fst snd] in *.
    destruct (IH (S k) (z + n)%nat (times ++ gap)) as [z' Hz']; [lia..|].
    exists z'. rewrite Hz', drop_drop, app_assoc. done.
  - exists (Z.of_nat z). rewrite while_exit by (cbn; unfold len; apply Z.ltb_ge; lia).
    rewrite drop_ge by lia. cbn. rewrite app_nil_r. do 2 f_equal. unfold len. lia.
Qed.

(** The FIFO block returns, and appends [fifo_scan ai aj]. *)
Lemma fifo_trace_eq (ai aj times0 : list Q) :
  fifo_trace ai aj times0 = Ok (times0 ++ fifo_scan ai aj).
Proof.
  unfold fifo_trace.
  destruct (fifo_outer_loop ai aj (S (length ai)) O O times0) as [z' Hz']; [lia..|].
  change (Z.of_nat 0) with 0 in Hz'. rewrite Hz'. done.
Qed.

(** ** The LIFO loops (lines 175-184) *)

Lemma lifo_step_le (b : Q) (ra : list Q) : ((lifo_step b ra).1 ≤ length ra)%nat.
Proof.
  induction ra as [|a ra IH]; cbn; [lia|].
  destruct (float_lt a b); cbn; [lia|].
  destruct (lifo_step b ra). cbn in *. lia.
Qed.

(** The unread part of a list read from its end, latest element first. *)
Lemma reverse_take_S {A : Type} (l : list A) (m : nat) (x : A) :
  l !! m = Some x → reverse (take (S m) l) = x :: reverse (take m l).
Proof. intros Hx. by rewrite (take_S_r _ _ _ Hx), reverse_snoc. Qed.

Lemma drop_reverse_take {A : Type} (l : list A) (k n : nat) :
  (k ≤ length l)%nat → (n ≤ k)%nat →
  drop n (reverse (take k l)) = reverse (take (k - n) l).
Proof.
  intros Hk Hn. rewrite drop_reverse, length_take, take_take.
  do 2 f_equal. lia.
Qed.

Lemma lifo_inner_loop (ai aj : list Q) (z : nat) (b : Q) :
  aj !! z = Some b →
  ∀ fuel k times, (k ≤ length ai)%nat → (k < fuel)%nat →
    while fuel (λ s, 0 <=? d_k s) (lifo_inner_body ai aj)
      (mk_dur (Z.of_nat k - 1) (Z.of_nat z) times)
    = Ok (mk_dur (Z.of_nat (k - (lifo_step b (reverse (take k ai))).1) - 1)
            (Z.of_nat z)
            (times ++ (lifo_step b (reverse (take k ai))).2)).
Proof.
  intros Hb. induction fuel as [|fuel IH]; intros k times Hk Hfuel; [lia|].
  destruct k as [|m].
  - rewrite while_exit by done. cbn. by rewrite app_nil_r.
  - destruct (lookup_lt_is_Some_2 ai m) as [a Ha]; [lia|].
    rewrite (reverse_take_S _ _ _ Ha). cbn [lifo_step].
    replace (Z.of_nat (S m) - 1) with (Z.of_nat m) by lia.
    assert (lifo_inner_body ai aj (mk_dur (Z.of_nat m) (Z.of_nat z) times)
            = Ok (if float_lt a b
                  then (Break, mk_dur (Z.of_nat m - 1) (Z.of_nat z) (times ++ [(b - a)%Q]))
                  else (Next, mk_dur (Z.of_nat m - 1) (Z.of_nat z) times))) as Hbody.
    { unfold lifo_inner_body. cbn [d_k d_z d_times].
      rewrite !py_index_of_nat. unfold py_item. rewrite Ha, Hb. cbn.
      by destruct (float_lt a b). }
    destruct (float_lt a b).
    + erewrite while_break; [| cbn; apply Z.leb_le; lia | exact Hbody].
      cbn. do 3 f_equal. lia.
    + erewrite while_step; [| cbn; apply Z.leb_le; lia | exact Hbody].
      rewrite IH by lia.
      destruct (lifo_step b (reverse (take m ai))) as [n gap]. cbn. done.
Qed.

Lemma lifo_outer_loop (ai aj : list Q) :
  ∀ fuel z k times, (z ≤ length aj)%nat → (k ≤ length ai)%nat → (z < fuel)%nat →
    ∃ k', while fuel (λ s, 0 <=? d_z s) (lifo_outer_body ai aj)
            (mk_dur (Z.of_nat k - 1) (Z.of_nat z - 1) times)
          = Ok (mk_dur k' (-1)
                  (times ++ lifo_scan (reverse (take k ai)) (reverse (take z aj)))).
Proof.
  induction fuel as [|fuel IH]; intros z k times Hz Hk Hfuel; [lia|].
  destruct z as [|m].
  - exists (Z.of_nat k - 1). rewrite while_exit by done. cbn. by rewrite app_nil_r.
  - destruct (lookup_lt_is_Some_2 aj m) as [b Hb]; [lia|].
    rewrite (reverse_take_S _ _ _ Hb). cbn [lifo_scan].
    replace (Z.of_nat (S m) - 1) with (Z.of_nat m) by lia.
    pose proof (lifo_step_le b (reverse (take k ai))) as Hstep.
    rewrite length_reverse, length_take in Hstep.
    erewrite while_step; [| cbn; apply Z.leb_le; lia |].
    2:{ unfold lifo_outer_body. rewrite (lifo_inner_loop ai aj m b Hb) by lia.
        cbn. done. }
    rewrite (surjective_pairing (lifo_step b (reverse (take k ai)))).
    set (n := (lifo_step b (reverse (take k ai))).1) in *.
    set (gap := (lifo_step b (reverse (take k ai))).2) in *.
    destruct (IH m (k - n)%nat (times ++ gap)) as [k' Hk']; [lia..|].
    exists k'. cbn [fst snd]. rewrite Hk', app_assoc, drop_reverse_take by lia. done.
Qed.

(** The LIFO block returns, and appends [lifo_scan] of the reversed lists. *)
Lemma lifo_trace_eq (ai aj times1 : list Q) :
  lifo_trace ai aj times1 = Ok (times1 ++ lifo_scan (reverse ai) (reverse aj)).
Proof.
  unfold lifo_trace.
  destruct (lifo_outer_loop ai aj (S (length aj)) (length aj) (length ai) times1)
    as [k' Hk']; [lia..|].
  unfold len. rewrite Hk'. cbn. by rewrite !firstn_all.
Qed.

(** ** The LIFO scan is the LIFO match of the specification *)

Lemma lifo_scan_nil (rb : list Q) : lifo_scan [] rb = [].
Proof. induction rb as [|b rb IH]; [done|]. cbn. by rewrite IH. Qed.

Lemma lifo_scan_merge (ra rb : list Q) : lifo_scan ra rb = lifo_merge ra rb.
Proof.
  revert ra. induction rb as [|b rb IHb]; intros ra; [by destruct ra|].
  induction ra as [|a ra IHa].
  - cbn. by rewrite lifo_scan_nil.
  - cbn [lifo_scan lifo_step lifo_merge]. destruct (float_lt a b).
    + cbn. by rewrite IHb.
    + rewrite <- IHa. cbn [lifo_scan].
      destruct (lifo_step b ra) as [n gap]. done.
Qed.

Lemma nondecreasing_intro (a : Q) (l : list Q) :
  Forall (λ b, (a <= b)%Q) l → nondecreasing l = true → nondecreasing (a :: l) = true.
Proof.
  intros Ha Hl. destruct l as [|b l]; [done|].
  cbn [nondecreasing]. apply andb_true_iff. split; [|done].
  apply Qle_bool_iff. by inversion Ha.
Qed.

Lemma nondecreasing_snoc (l : list Q) (b : Q) :
  nondecreasing (l ++ [b]) = true →
  Forall (λ x, (x <= b)%Q) l ∧ nondecreasing l = true.
Proof.
  induction l as [|a l IH]; intros H; [done|].
  apply (nondecreasing_cons a (l ++ [b])) in H as [Ha Hl].
  destruct (IH Hl) as [Hall Hnd].
  apply Forall_app in Ha as [Hal Hab]. split.
  - constructor; [by inversion Hab | done].
  - by apply nondecreasing_intro.
Qed.

Lemma take_latest_after_none (a : Q) (l : list Q) :
  Forall (λ x, float_lt a x = false) l → take_latest_after a l = None.
Proof. induction 1 as [|x l Hx _ IH]; [done|]. cbn. by rewrite IH, Hx. Qed.

Lemma take_latest_after_last (a b : Q) (l : list Q) :
  float_lt a b = true → take_latest_after a (l ++ [b]) = Some (b, l).
Proof.
  intros Hab. induction l as [|x l IH]; cbn; [by rewrite Hab|]. by rewrite IH.
Qed.

Lemma lifo_match_merge (ra aj : list Q) :
  nondecreasing aj = true → lifo_match ra aj = lifo_merge ra (reverse aj).
Proof.
  revert aj. induction ra as [|a ra IH]; intros aj Haj; [done|].
  destruct aj as [|b l _] using rev_ind.
  - cbn. rewrite (IH [] eq_refl). by destruct ra.
  - destruct (nondecreasing_snoc _ _ Haj) as [Hall Hl].
    rewrite reverse_snoc. cbn [lifo_match lifo_merge].
    destruct (float_lt a b) eqn:Hab.
    + rewrite (take_latest_after_last _ _ _ Hab). by rewrite (IH l Hl).
    + rewrite take_latest_after_none.
      * rewrite (IH _ Haj). by rewrite reverse_snoc.
      * apply Forall_app. split; [|by constructor].
        eapply Forall_impl; [exact Hall|]. intros x Hx. cbn in Hx.
        apply float_lt_false. apply float_lt_false in Hab. by eapply Qle_trans.
Qed.

(** ** The loops over the cells of the duration matrix *)

Lemma dur_trace_eq (i j : nat) (times0 times1 : list Q) (tr : list (list Event)) :
  (i < length tr)%nat → (j < length tr)%nat →
  dur_trace i j (times0, times1) tr
  = Ok (if truthy (occ tr i) && truthy (occ tr j)
        then (times0 ++ fifo_scan (occ tr i) (occ tr j),
              times1 ++ lifo_scan (reverse (occ tr i)) (reverse (occ tr j)))
        else (times0, times1)).
Proof.
  intros Hi Hj.
  destruct (py_item_occ tr i Hi) as (tr_i & Hti & Hoi).
  destruct (py_item_occ tr j Hj) as (tr_j & Htj & Hoj).
  unfold dur_trace. rewrite Hti. cbn [mbind result_bind]. rewrite Htj.
  cbn [mbind result_bind]. rewrite Hoi, Hoj.
  destruct (truthy (occ tr i) && truthy (occ tr j)); [|done].
  rewrite fifo_trace_eq. cbn [mbind result_bind]. by rewrite lifo_trace_eq.
Qed.

Lemma dur_fold_eq (n i j : nat) (tgl : list (list (list Event))) :
  (i < n)%nat → (j < n)%nat → well_shaped n tgl = true →
  ∀ times0 times1,
    for_each (dur_trace i j) (times0, times1) tgl
    = Ok (times0 ++ fifo_samples i j tgl, times1 ++ lifo_samples i j tgl).
Proof.
  intros Hi Hj. induction tgl as [|tr tgl IH]; intros Hws times0 times1.
  - cbn. by rewrite !app_nil_r.
  - apply well_shaped_cons in Hws as [Htr Hws].
    cbn [for_each]. rewrite dur_trace_eq by lia. cbn [mbind result_bind].
    unfold fifo_samples, lifo_samples. cbn [fmap list_fmap concat].
    fold (fifo_samples i j tgl). fold (lifo_samples i j tgl).
    destruct (truthy (occ tr i) && truthy (occ tr j));
      rewrite (IH Hws), <- ?app_assoc; done.
Qed.

Ltac split_dur_cells :=
  unfold dur_fun, before_cell;
  repeat case_bool_decide;
  repeat match goal with
         | H : _ ∧ _ |- _ => destruct H
         end;
  subst; try done; try lia.

Lemma dur_cell_step (n i j : nat) (tgl : list (list (list Event))) (M : Matrix) :
  (i < n)%nat → (j < n)%nat → well_shaped n tgl = true →
  represents n M (dur_fun (dur_value tgl) (before_cell i j)) →
  ∃ M', dur_cell tgl i M j = Ok M'
        ∧ represents n M' (dur_fun (dur_value tgl) (before_cell i (S j))).
Proof.
  intros Hi Hj Hws HM. unfold dur_cell.
  destruct (Nat.eqb_spec i j) as [->|Hne]; cbn [negb].
  - exists M. split; [done|]. eapply represents_ext; [exact HM|].
    intros a b _ _. split_dur_cells.
  - rewrite (dur_fold_eq n) by done. cbn [mbind result_bind app].
    destruct (represents_set n M _ i j (dur_value tgl i j) HM Hi Hj) as (M' & HM' & Hrep).
    exists M'. split; [exact HM'|]. eapply represents_ext; [exact Hrep|].
    intros a b _ _. cbn beta. split_dur_cells.
Qed.

Lemma dur_row_step (n i : nat) (tgl : list (list (list Event))) (M : Matrix) :
  (i < n)%nat → well_shaped n tgl = true →
  represents n M (dur_fun (dur_value tgl) (before_cell i 0)) →
  ∃ M', for_each (dur_cell tgl i) M (seq 0 n) = Ok M'
        ∧ represents n M' (dur_fun (dur_value tgl) (before_cell (S i) 0)).
Proof.
  intros Hi Hws HM.
  destruct (for_each_seq_inv
              (λ j M, represents n M (dur_fun (dur_value tgl) (before_cell i j)))
              (dur_cell tgl i) n 0 M) as (M' & HM' & Hrep).
  - done.
  - intros j M1 Hj HM1. apply dur_cell_step; [lia..|done|done].
  - exists M'. split; [done|]. eapply represents_ext; [exact Hrep|].
    intros a b Ha Hb. cbn beta. split_dur_cells.
Qed.

Lemma dur_matrix_entries {L : Type} (activities : list L)
    (tgl : list (list (list Event))) (timestamp_key : string) :
  well_shaped (length activities) tgl = true →
  ∃ M, get_duration_matrix activities tgl timestamp_key = Ok M
       ∧ (∀ i j, (i < length activities)%nat → (j < length activities)%nat → i ≠ j →
            cell M i j = Some (dur_value tgl i j))
       ∧ (∀ i, (i < length activities)%nat → cell M i i = Some 0%Q).
Proof.
  intros Hws. unfold get_duration_matrix. cbv zeta.
  set (n := length activities) in *.
  destruct (for_each_seq_inv
              (λ i M, represents n M (dur_fun (dur_value tgl) (before_cell i 0)))
              (λ ret i, for_each (dur_cell tgl i) ret (seq 0 n))
              n 0 (np_zeros n n)) as (M & HM & Hrep).
  - eapply represents_ext; [apply represents_zeros|].
    intros a b _ _. split_dur_cells.
  - intros i M1 Hi HM1. apply dur_row_step; [lia|done|done].
  - exists M. split; [done|]. split.
    + intros i j Hi Hj Hne. rewrite (Hrep i j) by lia. f_equal. split_dur_cells.
    + intros i Hi. rewrite (Hrep i i) by lia. f_equal. split_dur_cells.
Qed.

Lemma py_min_Qmin (a b : Q) : py_min a b = Qmin a b.
Proof.
  unfold py_min, float_lt, Qmin, GenericMinMax.gmin.
  destruct (Qle_bool a b) eqn:Hle; cbn [negb].
  - apply Qle_bool_iff in Hle. pose proof (proj1 (Qle_alt a b) Hle) as Hgt.
    destruct (a ?= b)%Q eqn:Hc; [done|done|congruence].
  - destruct (a ?= b)%Q eqn:Hc; [| |done]; exfalso;
      apply not_true_iff_false in Hle; apply Hle, Qle_bool_iff, Qle_alt;
      by rewrite Hc.
Qed.

(** * The scenarios of the specification on the two estimators *)

(** Two cases A@0 B@1 and A@2 B@3: A always precedes B. *)
Example scenario_two_cases_precedence :
  ∃ M x y, get_precede_succeed_matrix two_activities grouped_two_cases "time:timestamp" = Ok M
           ∧ cell M 0 1 = Some x ∧ cell M 1 0 = Some y ∧ (x == 1)%Q ∧ (y == 0)%Q.
Proof. do 3 eexists. repeat split; reflexivity. Qed.

(** One case A@0, B@1, A@2, B@3: both matchings give the gaps 1 and 1. *)
Example scenario_interleaved_duration :
  dur_trace 0 1 ([], []) trace_interleaved = Ok ([1; 1]%Q, [1; 1]%Q)
  ∧ ∃ M x, get_duration_matrix two_activities grouped_interleaved "time:timestamp" = Ok M
           ∧ cell M 0 1 = Some x ∧ (x == 1)%Q.
Proof. split; [reflexivity|]. do 2 eexists. repeat split; reflexivity. Qed.

(** Two activities that never share a case. *)
Example scenario_apart :
  get_precede_succeed_matrix two_activities grouped_apart "time:timestamp"
  = Ok [[0; 0]; [1; 0]]%Q
  ∧ get_duration_matrix two_activities grouped_apart "time:timestamp"
    = Ok [[0; 0]; [0; 0]]%Q.
Proof. split; reflexivity. Qed.

(** A grouped trace without a group for the second activity. *)
Example short_trace_raises :
  get_precede_succeed_matrix two_activities [ [ [at_time "A" 0 0] ] ] "time:timestamp"
  = Raise IndexError.
Proof. reflexivity. Qed.

(** On unsorted lists the LIFO loops and the latest-match differ. *)
Example lifo_unsorted_differs :
  lifo_trace [0; 1; 4]%Q [5; 3]%Q [] = Ok [2; 5]%Q
  ∧ lifo_spec [0; 1; 4]%Q [5; 3]%Q = [1; 2]%Q.
Proof. split; reflexivity. Qed.

(** * The precedence matrix: claims C4, C7, C8, C9 *)

(** C4.  For a pair of activity indices [i < j] whose occurrence lists are
    sorted non-decreasingly in every trace, the two-pointer merge of
    [get_precede_succeed_matrix] yields the naive quantity: when the total
    number of pairs is positive, [PS[i][j]] is the number of pairs (over the
    traces where both lists are non-empty) whose i-timestamp is strictly
    earlier, divided by the sum of [|ai| * |aj|] over those traces.  A pair
    of occurrences with equal timestamps is not counted. *)
Theorem ps_merge_is_naive_count {L : Type} (activities : list L)
    (tgl : list (list (list Event))) (timestamp_key : string) (i j : nat) :
  (i < j)%nat → (j < length activities)%nat →
  well_shaped (length activities) tgl = true →
  sorted_occurrences i j tgl = true →
  0 < naive_total i j tgl →
  (∃ M, get_precede_succeed_matrix activities tgl timestamp_key = Ok M
        ∧ cell M i j
          = Some (inject_Z (naive_count i j tgl) / inject_Z (naive_total i j tgl))%Q)
  ∧ (∀ a b, (a == b)%Q → pairs_before [a] [b] = 0).
Proof.
  intros Hij Hj Hws Hsorted Htotal. split.
  - destruct (ps_matrix_entries activities tgl timestamp_key Hws) as (M & HM & Hcells & _).
    exists M. split; [done|].
    destruct (Hcells i j Hij Hj) as [-> _]. f_equal.
    unfold ps_value, ratio. rewrite (merged_count_sorted _ _ _ Hsorted).
    by destruct (Z.ltb_spec 0 (naive_total i j tgl)); [|lia].
  - intros a b Hab. unfold pairs_before. cbn.
    assert (float_lt a b = false) as ->; [|done].
    apply float_lt_false. rewrite Hab. apply Qle_refl.
Qed.

Lemma ps_merge_is_naive_count_witness :
  ((0 < 1)%nat ∧ (1 < length two_activities)%nat
   ∧ well_shaped (length two_activities) grouped_interleaved = true
   ∧ sorted_occurrences 0 1 grouped_interleaved = true
   ∧ 0 < naive_total 0 1 grouped_interleaved)
  ∧ (∃ M, get_precede_succeed_matrix two_activities grouped_interleaved "time:timestamp" = Ok M
          ∧ cell M 0 1 = Some (inject_Z 3 / inject_Z 4)%Q).
Proof.
  split.
  - repeat split; (reflexivity || (cbn; lia)).
  - apply (ps_merge_is_naive_count two_activities grouped_interleaved "time:timestamp" 0 1);
      (reflexivity || (cbn; lia)).
Defined.

(** C7.  For a pair [i < j] such that no trace has both occurrence lists
    non-empty (the total is zero), [get_precede_succeed_matrix] sets
    [PS[i][j] = 0] and [PS[j][i] = 1]. *)
Theorem ps_default_never_together {L : Type} (activities : list L)
    (tgl : list (list (list Event))) (timestamp_key : string) (i j : nat) :
  (i < j)%nat → (j < length activities)%nat →
  well_shaped (length activities) tgl = true →
  never_together i j tgl = true →
  ∃ M, get_precede_succeed_matrix activities tgl timestamp_key = Ok M
       ∧ cell M i j = Some 0%Q ∧ cell M j i = Some 1%Q.
Proof.
  intros Hij Hj Hws Hnever.
  destruct (ps_matrix_entries activities tgl timestamp_key Hws) as (M & HM & Hcells & _).
  exists M. split; [done|].
  destruct (Hcells i j Hij Hj) as [-> ->].
  unfold ps_value, ratio. rewrite (naive_total_never_together _ _ _ Hnever).
  done.
Qed.

Lemma ps_default_never_together_witness :
  ((0 < 1)%nat ∧ (1 < length two_activities)%nat
   ∧ well_shaped (length two_activities) grouped_apart = true
   ∧ never_together 0 1 grouped_apart = true)
  ∧ ∃ M, get_precede_succeed_matrix two_activities grouped_apart "time:timestamp" = Ok M
         ∧ cell M 0 1 = Some 0%Q ∧ cell M 1 0 = Some 1%Q.
Proof.
  split.
  - repeat split; (reflexivity || (cbn; lia)).
  - apply (ps_default_never_together two_activities grouped_apart "time:timestamp" 0 1);
      (reflexivity || (cbn; lia)).
Defined.

(** C8.  On a well-shaped grouped log [get_precede_succeed_matrix] returns a
    matrix, and every matrix it returns, on any input, satisfies
    [PS[i][j] + PS[j][i] = 1] for all [i ≠ j] and [PS[i][i] = 0] for all [i]
    (floats being read as the rationals they denote). *)
Theorem ps_complement_and_diagonal {L : Type} (activities : list L)
    (tgl : list (list (list Event))) (timestamp_key : string) :
  (well_shaped (length activities) tgl = true →
   ∃ M, get_precede_succeed_matrix activities tgl timestamp_key = Ok M)
  ∧ ∀ M, get_precede_succeed_matrix activities tgl timestamp_key = Ok M →
      (∀ i j, (i < length activities)%nat → (j < length activities)%nat → i ≠ j →
         ∃ x y, cell M i j = Some x ∧ cell M j i = Some y ∧ (x + y == 1)%Q)
      ∧ (∀ i, (i < length activities)%nat → cell M i i = Some 0%Q).
Proof.
  split.
  { intros Hws.
    destruct (ps_matrix_entries activities tgl timestamp_key Hws) as (M & HM & _).
    by exists M. }
  intros M HM.
  destruct (decide (2 ≤ length activities)%nat) as [Hn|Hn].
  - pose proof (ps_matrix_Ok_shape activities tgl timestamp_key M HM Hn) as Hws.
    destruct (ps_matrix_entries activities tgl timestamp_key Hws)
      as (M' & HM' & Hcells & Hdiag).
    rewrite HM in HM'. injection HM' as <-. split; [|done].
    intros i j Hi Hj Hne.
    destruct (decide (i < j)%nat) as [Hlt|Hge].
    + destruct (Hcells i j Hlt Hj) as [Hx Hy].
      exists (ps_value tgl i j), (1 - ps_value tgl i j)%Q.
      split; [done|]. split; [done|]. ring.
    + destruct (Hcells j i) as [Hx Hy]; [lia|done|].
      exists (1 - ps_value tgl j i)%Q, (ps_value tgl j i).
      split; [done|]. split; [done|]. ring.
  - destruct activities as [|a [|b activities]]; [| |cbn in Hn; lia].
    + cbn in HM. injection HM as <-. split; intros; cbn in *; lia.
    + cbn in HM. injection HM as <-. split.
      * intros i j Hi Hj Hne. cbn in *. lia.
      * intros i Hi. cbn in Hi. by replace i with O by lia.
Qed.

Lemma ps_complement_and_diagonal_witness :
  ∃ M, get_precede_succeed_matrix two_activities grouped_two_cases "time:timestamp" = Ok M
       ∧ (∃ x y, cell M 0 1 = Some x ∧ cell M 1 0 = Some y ∧ (x + y == 1)%Q)
       ∧ cell M 0 0 = Some 0%Q.
Proof.
  eexists. split; [reflexivity|].
  destruct (proj2 (ps_complement_and_diagonal two_activities grouped_two_cases
                     "time:timestamp") _ eq_refl) as [Hsum Hdiag].
  split; [apply Hsum; [cbn; lia | cbn; lia | discriminate] | apply Hdiag; cbn; lia].
Defined.

(** C9.  For every pair [i ≠ j], appending to a grouped log one trace in
    which both [i] and [j] occur and every i-timestamp is strictly earlier
    than every j-timestamp does not decrease [PS[i][j]]. *)
Theorem ps_monotone_append {L : Type} (activities : list L)
    (tgl : list (list (list Event))) (tr : list (list Event))
    (timestamp_key : string) (i j : nat) :
  (i < length activities)%nat → (j < length activities)%nat → i ≠ j →
  well_shaped (length activities) (tgl ++ [tr]) = true →
  truthy (occ tr i) = true → truthy (occ tr j) = true →
  all_before (occ tr i) (occ tr j) = true →
  ∃ M M' x x',
    get_precede_succeed_matrix activities tgl timestamp_key = Ok M
    ∧ get_precede_succeed_matrix activities (tgl ++ [tr]) timestamp_key = Ok M'
    ∧ cell M i j = Some x ∧ cell M' i j = Some x' ∧ (x <= x')%Q.
Proof.
  intros Hi Hj Hne Hws' Hoi Hoj Hbefore.
  pose proof (proj1 (well_shaped_app _ _ _) Hws') as [Hws _].
  destruct (ps_matrix_entries activities tgl timestamp_key Hws) as (M & HM & Hcells & _).
  destruct (ps_matrix_entries activities (tgl ++ [tr]) timestamp_key Hws')
    as (M' & HM' & Hcells' & _).
  pose proof (truthy_len_pos _ Hoi) as Hli. pose proof (truthy_len_pos _ Hoj) as Hlj.
  destruct (decide (i < j)%nat) as [Hlt|Hge].
  - destruct (Hcells i j Hlt Hj) as [Hx _]. destruct (Hcells' i j Hlt Hj) as [Hx' _].
    exists M, M', (ps_value tgl i j), (ps_value (tgl ++ [tr]) i j).
    repeat (split; [done|]).
    unfold ps_value. rewrite merged_count_snoc, naive_total_snoc, Hoi, Hoj.
    cbn [andb]. rewrite (ps_scan_all_before _ _ (all_before_Forall _ _ Hbefore)).
    apply ratio_grows; [apply merged_count_bounds | nia].
  - destruct (Hcells j i) as [_ Hx]; [lia|done|].
    destruct (Hcells' j i) as [_ Hx']; [lia|done|].
    exists M, M', (1 - ps_value tgl j i)%Q, (1 - ps_value (tgl ++ [tr]) j i)%Q.
    repeat (split; [done|]).
    unfold ps_value. rewrite merged_count_snoc, naive_total_snoc, Hoi, Hoj.
    cbn [andb]. rewrite (ps_scan_none_before _ _ (all_before_none_after _ _ Hbefore)).
    rewrite Z.add_0_r.
    apply Qplus_le_r, Qopp_le_compat.
    rewrite (Z.mul_comm (len (occ tr j))).
    apply ratio_shrinks; [apply merged_count_bounds | nia].
Qed.

Lemma ps_monotone_append_witness :
  ((0 < length two_activities)%nat ∧ (1 < length two_activities)%nat ∧ 0%nat ≠ 1%nat
   ∧ well_shaped (length two_activities) (grouped_reversed ++ [trace_in_order]) = true
   ∧ truthy (occ trace_in_order 0) = true ∧ truthy (occ trace_in_order 1) = true
   ∧ all_before (occ trace_in_order 0) (occ trace_in_order 1) = true)
  ∧ ∃ M M' x x',
      get_precede_succeed_matrix two_activities grouped_reversed "time:timestamp" = Ok M
      ∧ get_precede_succeed_matrix two_activities (grouped_reversed ++ [trace_in_order])
          "time:timestamp" = Ok M'
      ∧ cell M 0 1 = Some x ∧ cell M' 0 1 = Some x' ∧ (x <= x')%Q.
Proof.
  split.
  - repeat split; (reflexivity || discriminate || (cbn; lia)).
  - apply (ps_monotone_append two_activities grouped_reversed trace_in_order
             "time:timestamp" 0 1);
      (reflexivity || discriminate || (cbn; lia)).
Defined.

(** * The duration matrix: claims C5, C6 *)

(** The aggregate of a non-empty sample list is its arithmetic mean. *)
Lemma mean_or_zero_spec (samples : list Q) :
  samples ≠ [] → (mean_or_zero samples * inject_Z (len samples) == Qsum samples)%Q.
Proof.
  intros Hne. destruct samples as [|x samples]; [done|].
  unfold mean_or_zero, mean. cbn [truthy].
  rewrite Qmult_comm. apply Qmult_div_r. rewrite len_cons. intros H.
  pose proof (len_nonneg samples). unfold Qeq in H. cbn in H. lia.
Qed.

(** ** The FIFO scan is the FIFO match of the specification *)

Lemma fifo_match_nil (ai : list Q) : fifo_match ai [] = [].
Proof. induction ai as [|a ai IH]; [done|]. cbn. done. Qed.

Lemma fifo_scan_nil (ai : list Q) : fifo_scan ai [] = [].
Proof. induction ai as [|a ai IH]; [done|]. cbn. done. Qed.

Lemma take_earliest_dead_prefix (a : Q) (prefix rest : list Q) :
  Forall (λ p, float_lt a p = false) prefix →
  take_earliest_after a (prefix ++ rest)
  = match take_earliest_after a rest with
    | Some (b, rest') => Some (b, prefix ++ rest')
    | None => None
    end.
Proof.
  induction 1 as [|p prefix Hp _ IH]; cbn.
  - by destruct (take_earliest_after a rest) as [[b rest']|].
  - rewrite Hp, IH. by destruct (take_earliest_after a rest) as [[b rest']|].
Qed.

Lemma fifo_match_dead_prefix (ai prefix rest : list Q) :
  Forall (λ a, Forall (λ p, float_lt a p = false) prefix) ai →
  fifo_match ai (prefix ++ rest) = fifo_match ai rest.
Proof.
  intros H. revert rest. induction H as [|a ai Ha _ IH]; intros rest; [done|].
  cbn [fifo_match]. rewrite (take_earliest_dead_prefix _ _ _ Ha).
  destruct (take_earliest_after a rest) as [[b rest']|]; by rewrite IH.
Qed.

(** What the inner FIFO loop does for one [a]: it passes the leading
    occurrences that are not after [a] and consumes the next one. *)
Lemma fifo_step_split (a : Q) (aj : list Q) :
  ∃ skipped, Forall (λ p, float_lt a p = false) skipped
    ∧ ((aj = skipped ∧ fifo_step a aj = (length aj, [])
        ∧ take_earliest_after a aj = None)
       ∨ (∃ b rest, aj = skipped ++ b :: rest ∧ float_lt a b = true
            ∧ fifo_step a aj = (S (length skipped), [(b - a)%Q])
            ∧ take_earliest_after a aj = Some (b, skipped ++ rest))).
Proof.
  induction aj as [|b aj IH].
  - exists []. split; [done|]. by left.
  - cbn [fifo_step take_earliest_after]. destruct (float_lt a b) eqn:Hab.
    + exists []. split; [done|]. right. by exists b, aj.
    + destruct IH as (skipped & Hdead & [(-> & Hstep & Hnone)|(b' & rest & -> & Hb' & Hstep & Hsome)]).
      * exists (b :: skipped). split; [by constructor|]. left.
        by rewrite Hstep, Hnone.
      * exists (b :: skipped). split; [by constructor|]. right.
        exists b', rest. by rewrite Hstep, Hsome.
Qed.

Lemma fifo_scan_match (ai aj : list Q) :
  nondecreasing ai = true → fifo_scan ai aj = fifo_match ai aj.
Proof.
  revert aj. induction ai as [|a ai IH]; intros aj Hai; [done|].
  destruct (nondecreasing_cons _ _ Hai) as [Ha Hai'].
  assert (∀ skipped, Forall (λ p, float_lt a p = false) skipped →
            Forall (λ a', Forall (λ p, float_lt a' p = false) skipped) ai) as Hdead.
  { intros skipped Hs. eapply Forall_impl; [exact Ha|]. intros a' Ha'. cbn in Ha'.
    eapply Forall_impl; [exact Hs|]. intros p Hp. cbn in Hp.
    apply float_lt_false. apply float_lt_false in Hp. by eapply Qle_trans. }
  cbn [fifo_scan fifo_match].
  destruct (fifo_step_split a aj)
    as (skipped & Hs & [(-> & -> & ->)|(b & rest & -> & Hb & -> & ->)]).
  - rewrite drop_all, fifo_scan_nil. cbn.
    rewrite <- (app_nil_r skipped) at 1.
    by rewrite (fifo_match_dead_prefix _ _ _ (Hdead _ Hs)), fifo_match_nil.
  - cbn [app]. rewrite (fifo_match_dead_prefix _ _ _ (Hdead _ Hs)).
    f_equal. rewrite <- (IH rest Hai'). f_equal.
    change (S (length skipped)) with (1 + length skipped)%nat.
    rewrite Nat.add_comm, <- drop_drop, drop_app_length. done.
Qed.

(** On sorted occurrence lists the samples the loops collect are the gap
    samples of the two matches. *)
Lemma samples_are_gaps (i j : nat) (tgl : list (list (list Event))) :
  sorted_occurrences i j tgl = true →
  fifo_samples i j tgl = fifo_gaps i j tgl ∧ lifo_samples i j tgl = lifo_gaps i j tgl.
Proof.
  induction tgl as [|tr tgl IH]; [done|].
  unfold sorted_occurrences. cbn [forallb]. rewrite !andb_true_iff.
  intros [[Hsi Hsj] Htgl]. destruct (IH Htgl) as [Hf Hl].
  unfold fifo_samples, lifo_samples, fifo_gaps, lifo_gaps.
  cbn [fmap list_fmap concat].
  fold (fifo_samples i j tgl). fold (lifo_samples i j tgl).
  fold (fifo_gaps i j tgl). fold (lifo_gaps i j tgl). rewrite Hf, Hl.
  destruct (truthy (occ tr i) && truthy (occ tr j)); [|done].
  rewrite (fifo_scan_match _ _ Hsi), lifo_scan_merge.
  unfold lifo_spec. by rewrite (lifo_match_merge _ _ Hsj).
Qed.

(** C5.  For every ordered pair of distinct activity indices [(i, j)],
    [get_duration_matrix] sets [Duration[i][j]] to the minimum of the
    arithmetic mean of the FIFO samples and the arithmetic mean of the LIFO
    samples collected over the traces, an empty sample list counting as [0];
    on occurrence lists sorted by time these samples are the gaps of the
    FIFO match and of the LIFO match; and [Duration[i][i] = 0] for every
    [i]. *)
Theorem duration_is_min_of_means {L : Type} (activities : list L)
    (tgl : list (list (list Event))) (timestamp_key : string) :
  well_shaped (length activities) tgl = true →
  (∃ M, get_duration_matrix activities tgl timestamp_key = Ok M
        ∧ (∀ i j, (i < length activities)%nat → (j < length activities)%nat → i ≠ j →
             ∃ times0 times1,
               for_each (dur_trace i j) ([], []) tgl = Ok (times0, times1)
               ∧ cell M i j = Some (Qmin (mean_or_zero times0) (mean_or_zero times1))
               ∧ (sorted_occurrences i j tgl = true →
                  times0 = fifo_gaps i j tgl ∧ times1 = lifo_gaps i j tgl
                  ∧ cell M i j
                    = Some (Qmin (mean_or_zero (fifo_gaps i j tgl))
                                 (mean_or_zero (lifo_gaps i j tgl)))))
        ∧ (∀ i, (i < length activities)%nat → cell M i i = Some 0%Q))
  ∧ mean_or_zero [] = 0%Q
  ∧ (∀ samples, samples ≠ [] →
       (mean_or_zero samples * inject_Z (len samples) == Qsum samples)%Q).
Proof.
  intros Hws. split; [|split; [done | apply mean_or_zero_spec]].
  destruct (dur_matrix_entries activities tgl timestamp_key Hws) as (M & HM & Hcells & Hdiag).
  exists M. split; [done|]. split; [|done].
  intros i j Hi Hj Hne.
  assert (cell M i j
          = Some (Qmin (mean_or_zero (fifo_samples i j tgl))
                       (mean_or_zero (lifo_samples i j tgl)))) as Hcell.
  { rewrite (Hcells i j Hi Hj Hne). unfold dur_value. by rewrite py_min_Qmin. }
  exists (fifo_samples i j tgl), (lifo_samples i j tgl). split.
  - by rewrite (dur_fold_eq (length activities)).
  - split; [done|]. intros Hsorted.
    destruct (samples_are_gaps i j tgl Hsorted) as [Hf Hl].
    by rewrite <- Hf, <- Hl.
Qed.

Lemma duration_is_min_of_means_witness :
  (well_shaped (length two_activities) grouped_interleaved = true
   ∧ sorted_occurrences 0 1 grouped_interleaved = true
   ∧ fifo_gaps 0 1 grouped_interleaved = [1; 1]%Q
   ∧ lifo_gaps 0 1 grouped_interleaved = [1; 1]%Q
   ∧ (Qmin (mean_or_zero (fifo_gaps 0 1 grouped_interleaved))
           (mean_or_zero (lifo_gaps 0 1 grouped_interleaved)) == 1)%Q)
  ∧ ∃ M, get_duration_matrix two_activities grouped_interleaved "time:timestamp" = Ok M
         ∧ (∀ i j, (i < length two_activities)%nat → (j < length two_activities)%nat → i ≠ j →
              ∃ times0 times1,
                for_each (dur_trace i j) ([], []) grouped_interleaved = Ok (times0, times1)
                ∧ cell M i j = Some (Qmin (mean_or_zero times0) (mean_or_zero times1))
                ∧ (sorted_occurrences i j grouped_interleaved = true →
                   times0 = fifo_gaps i j grouped_interleaved
                   ∧ times1 = lifo_gaps i j grouped_interleaved
                   ∧ cell M i j
                     = Some (Qmin (mean_or_zero (fifo_gaps i j grouped_interleaved))
                                  (mean_or_zero (lifo_gaps i j grouped_interleaved)))))
         ∧ (∀ i, (i < length two_activities)%nat → cell M i i = Some 0%Q).
Proof.
  split; [repeat split; reflexivity|].
  apply (duration_is_min_of_means two_activities grouped_interleaved "time:timestamp").
  reflexivity.
Defined.

(** C6.  For a trace whose occurrence lists [ai] and [aj] are sorted and
    non-empty, the LIFO samples that [get_duration_matrix] appends are the
    gaps obtained by scanning [ai] in decreasing time order and letting each
    i-occurrence consume the latest not-yet-consumed j-occurrence whose
    timestamp is strictly greater. *)
Theorem lifo_samples_are_latest_match (i j : nat) (tr : list (list Event))
    (times0 times1 : list Q) :
  (i < length tr)%nat → (j < length tr)%nat →
  truthy (occ tr i) = true → truthy (occ tr j) = true →
  nondecreasing (occ tr i) = true → nondecreasing (occ tr j) = true →
  ∃ times0',
    dur_trace i j (times0, times1) tr
    = Ok (times0', times1 ++ lifo_spec (occ tr i) (occ tr j)).
Proof.
  intros Hi Hj Hti Htj Hsi Hsj.
  rewrite (dur_trace_eq i j times0 times1 tr Hi Hj), Hti, Htj. cbn [andb].
  eexists. do 3 f_equal.
  rewrite lifo_scan_merge. unfold lifo_spec. by rewrite lifo_match_merge.
Qed.

Lemma lifo_samples_are_latest_match_witness :
  ((0 < length trace_interleaved)%nat ∧ (1 < length trace_interleaved)%nat
   ∧ truthy (occ trace_interleaved 0) = true ∧ truthy (occ trace_interleaved 1) = true
   ∧ nondecreasing (occ trace_interleaved 0) = true
   ∧ nondecreasing (occ trace_interleaved 1) = true)
  ∧ ∃ times0',
      dur_trace 0 1 ([], []) trace_interleaved
      = Ok (times0', [] ++ lifo_spec (occ trace_interleaved 0) (occ trace_interleaved 1)).
Proof.
  split.
  - repeat split; (reflexivity || (cbn; lia)).
  - apply (lifo_samples_are_latest_match 0 1 trace_interleaved [] []);
      (reflexivity || (cbn; lia)).
Defined.

(** * The entry points: claims C1, C2, C3 *)

(** ** The sort of line 88 *)

Lemma key_ltb_spec (x y : Event) :
  key_ltb x y = true ↔
  (ev_timestamp x < ev_timestamp y)%Q
  ∨ ((ev_timestamp x == ev_timestamp y)%Q ∧ ev_index x < ev_index y).
Proof.
  unfold key_ltb.
  rewrite orb_true_iff, andb_true_iff, float_lt_spec, Qeq_bool_iff, Z.ltb_lt. done.
Qed.

Lemma key_ltb_asym (x y : Event) : key_ltb x y = true → key_ltb y x = false.
Proof.
  intros Hxy. apply not_true_iff_false. intros Hyx.
  apply key_ltb_spec in Hxy, Hyx.
  destruct Hxy as [Hxy|[Hxy Hi]], Hyx as [Hyx|[Hyx Hj]].
  - by apply (Qlt_irrefl (ev_timestamp x)), (Qlt_trans _ (ev_timestamp y)).
  - rewrite Hyx in Hxy. by apply Qlt_irrefl in Hxy.
  - rewrite Hxy in Hyx. by apply Qlt_irrefl in Hyx.
  - lia.
Qed.

Lemma key_ltb_trans (x y z : Event) :
  key_ltb x y = true → key_ltb y z = true → key_ltb x z = true.
Proof.
  intros Hxy Hyz. apply key_ltb_spec in Hxy, Hyz. apply key_ltb_spec.
  destruct Hxy as [Hxy|[Hxy Hi]], Hyz as [Hyz|[Hyz Hj]].
  - left. by eapply Qlt_trans.
  - left. by rewrite <- Hyz.
  - left. by rewrite Hxy.
  - right. split; [by rewrite Hxy | lia].
Qed.

Section Sorting.

Context {A : Type} (ltb : A → A → bool).
Hypothesis ltb_asym : ∀ x y, ltb x y = true → ltb y x = false.
Hypothesis ltb_trans : ∀ x y z, ltb x y = true → ltb y z = true → ltb x z = true.

Lemma sorted_insert_sorts (x : A) (l : list A) :
  sorted_by ltb l = true →
  ∃ l', sorted_insert (λ x y, Ok (ltb x y)) x l = Ok l'
        ∧ sorted_by ltb l' = true ∧ l' ≡ₚ x :: l.
Proof.
  induction l as [|y l IH]; intros Hl; [by exists [x]|].
  cbn [sorted_by] in Hl. apply andb_true_iff in Hl as [Hy Hl].
  cbn [sorted_insert mbind result_bind].
  destruct (ltb x y) eqn:Hxy.
  - exists (x :: y :: l). split; [done|]. split; [|done].
    cbn [sorted_by forallb]. rewrite (ltb_asym _ _ Hxy), Hy, Hl. cbn [negb andb].
    rewrite !andb_true_r. apply forallb_forall. intros z Hz.
    rewrite forallb_forall in Hy. specialize (Hy z Hz).
    apply negb_true_iff, not_true_iff_false. intros Hzx.
    apply negb_true_iff, not_true_iff_false in Hy. apply Hy.
    by eapply ltb_trans.
  - destruct (IH Hl) as (l' & -> & Hl' & Hperm). cbn [mbind result_bind].
    exists (y :: l'). split; [done|]. split.
    + cbn [sorted_by]. rewrite Hl', andb_true_r.
      apply forallb_forall. intros z Hz.
      apply list_elem_of_In in Hz. rewrite Hperm in Hz.
      apply elem_of_cons in Hz as [->|Hz]; [by rewrite Hxy|].
      rewrite forallb_forall in Hy. apply Hy. by apply list_elem_of_In.
    + rewrite Hperm. apply Permutation_swap.
Qed.

(** [sorted] returns its argument rearranged in the order of [ltb]. *)
Lemma py_sorted_sorts (l : list A) :
  ∃ l', py_sorted (λ x y, Ok (ltb x y)) l = Ok l'
        ∧ sorted_by ltb l' = true ∧ l' ≡ₚ l.
Proof.
  unfold py_sorted.
  assert (∀ acc, sorted_by ltb acc = true →
            ∃ l', for_each (λ acc x, sorted_insert (λ x y, Ok (ltb x y)) x acc) acc l
                  = Ok l'
                  ∧ sorted_by ltb l' = true ∧ l' ≡ₚ l ++ acc) as H.
  { induction l as [|x l IH]; intros acc Hacc; [by exists acc|].
    destruct (sorted_insert_sorts x acc Hacc) as (acc' & Hins & Hacc' & Hperm).
    destruct (IH acc' Hacc') as (l' & Hl' & Hs & Hp).
    exists l'. cbn [for_each]. rewrite Hins. cbn [mbind result_bind].
    split; [done|]. split; [done|].
    rewrite Hp, Hperm. cbn. by rewrite Permutation_middle. }
  destruct (H [] eq_refl) as (l' & Hl' & Hs & Hp).
  exists l'. by rewrite app_nil_r in Hp.
Qed.

Lemma sorted_by_app_l (l k : list A) : sorted_by ltb (l ++ k) = true → sorted_by ltb l = true.
Proof.
  induction l as [|x l IH]; [done|]. cbn [app sorted_by].
  rewrite !andb_true_iff, !forallb_forall. intros [Hx Hl]. split; [|by apply IH].
  intros y Hy. apply Hx, in_or_app. by left.
Qed.

Lemma sorted_by_snoc (l : list A) (x : A) :
  sorted_by ltb (l ++ [x]) = true → Forall (λ y, ltb x y = false) l.
Proof.
  induction l as [|y l IH]; [done|]. cbn [app sorted_by].
  rewrite andb_true_iff, forallb_forall. intros [Hy Hl].
  constructor; [|by apply IH].
  apply negb_true_iff, Hy, in_or_app. right. by left.
Qed.

Lemma sorted_insert_last (x : A) (l : list A) :
  Forall (λ y, ltb x y = false) l →
  sorted_insert (λ x y, Ok (ltb x y)) x l = Ok (l ++ [x]).
Proof.
  induction 1 as [|y l Hy _ IH]; [done|].
  cbn [sorted_insert mbind result_bind]. by rewrite Hy, IH.
Qed.

(** A list that is in order already is returned as it is. *)
Lemma py_sorted_sorted (l : list A) :
  sorted_by ltb l = true → py_sorted (λ x y, Ok (ltb x y)) l = Ok l.
Proof.
  unfold py_sorted.
  assert (∀ acc, sorted_by ltb (acc ++ l) = true →
            for_each (λ acc x, sorted_insert (λ x y, Ok (ltb x y)) x acc) acc l
            = Ok (acc ++ l)) as H.
  { induction l as [|x l IH]; intros acc Hs; [by rewrite app_nil_r|].
    cbn [for_each]. rewrite cons_middle, (app_assoc acc [x] l) in Hs |- *.
    rewrite sorted_insert_last by (by apply sorted_by_snoc, (sorted_by_app_l _ l)).
    cbn [mbind result_bind]. by apply IH. }
  apply (H []).
Qed.

End Sorting.

(** Sorting the images under [f] is the image of sorting, when the two
    orders agree along [f]. *)
Lemma sorted_insert_fmap {A B : Type} (f : A → B)
    (lt : A → A → result bool) (lt' : B → B → result bool) :
  (∀ x y, lt' (f x) (f y) = lt x y) →
  ∀ x l l', sorted_insert lt x l = Ok l' →
            sorted_insert lt' (f x) (f <$> l) = Ok (f <$> l').
Proof.
  intros Hf x l. induction l as [|y l IH]; intros l' Hl'.
  - cbn in Hl'. by injection Hl' as <-.
  - cbn [sorted_insert fmap list_fmap] in Hl' |- *. rewrite Hf.
    destruct (lt x y) as [[]| |]; cbn [mbind result_bind] in Hl' |- *; [|..|done|done].
    + by injection Hl' as <-.
    + destruct (sorted_insert lt x l) as [r| |]; [|done..].
      cbn [mbind result_bind] in Hl'. injection Hl' as <-.
      fold (@fmap list _ A B f l). by rewrite (IH r eq_refl).
Qed.

Lemma py_sorted_fmap {A B : Type} (f : A → B)
    (lt : A → A → result bool) (lt' : B → B → result bool) (l l' : list A) :
  (∀ x y, lt' (f x) (f y) = lt x y) →
  py_sorted lt l = Ok l' → py_sorted lt' (f <$> l) = Ok (f <$> l').
Proof.
  intros Hf. unfold py_sorted. change (@nil B) with (f <$> @nil A).
  generalize (@nil A) as acc. induction l as [|x l IH]; intros acc Hl'.
  - cbn in Hl'. by injection Hl' as <-.
  - cbn [for_each fmap list_fmap] in Hl' |- *.
    destruct (sorted_insert lt x acc) as [acc'| |] eqn:Hins; [|done..].
    fold (@fmap list _ A B f acc). fold (@fmap list _ A B f l).
    rewrite (sorted_insert_fmap f lt lt' Hf _ _ _ Hins).
    cbn [mbind result_bind] in Hl' |- *. by apply IH.
Qed.

Lemma sorted_by_fmap {A B : Type} (f : A → B) (ltb : B → B → bool) (l : list A) :
  sorted_by ltb (f <$> l) = sorted_by (λ x y, ltb (f x) (f y)) l.
Proof.
  induction l as [|x l IH]; [done|].
  cbn [fmap list_fmap sorted_by]. fold (@fmap list _ A B f l). rewrite IH. f_equal.
  clear IH. induction l as [|y l IHl]; [done|]. cbn. by rewrite IHl.
Qed.

Lemma sorted_by_ext {A : Type} (ltb ltb' : A → A → bool) (l : list A) :
  (∀ x y, ltb x y = ltb' x y) → sorted_by ltb l = sorted_by ltb' l.
Proof.
  intros Hext. induction l as [|x l IH]; [done|].
  cbn [sorted_by]. rewrite IH. f_equal.
  clear IH. induction l as [|y l IHl]; [done|]. cbn. by rewrite Hext, IHl.
Qed.

Lemma key_sorted_sorted_by (l : list Event) : key_sorted l = sorted_by key_ltb l.
Proof. induction l as [|x l IH]; [done|]. cbn. by rewrite IH. Qed.

(** ** The sort key of the dicts of line 86 *)

Lemma float_lt_inject_Z (a b : Z) : float_lt (inject_Z a) (inject_Z b) = (a <? b).
Proof.
  apply eq_true_iff_eq. rewrite float_lt_spec, Z.ltb_lt.
  unfold Qlt. cbn. lia.
Qed.

Lemma Qeq_bool_inject_Z (a b : Z) : Qeq_bool (inject_Z a) (inject_Z b) = (a =? b).
Proof.
  apply eq_true_iff_eq. rewrite Qeq_bool_iff, Z.eqb_eq.
  unfold Qeq. cbn. lia.
Qed.

Lemma sort_key_event_dict (activity_key timestamp_key index_key : string) (e : Event) :
  sort_key timestamp_key index_key (event_dict activity_key timestamp_key index_key e)
  = Ok (triple_key timestamp_key index_key e).
Proof.
  unfold sort_key, stream_item, event_dict, stream_event, triple_key.
  rewrite (lookup_insert_eq _ index_key).
  destruct (decide (timestamp_key = index_key)) as [->|Hne].
  - by rewrite lookup_insert_eq.
  - rewrite lookup_insert_ne by done. by rewrite lookup_insert_eq.
Qed.

Lemma tuple_lt_triple_key (timestamp_key index_key : string) (x y : Event) :
  tuple_lt (triple_key timestamp_key index_key x) (triple_key timestamp_key index_key y)
  = Ok (triple_ltb timestamp_key index_key x y).
Proof.
  unfold tuple_lt, triple_key, triple_ltb, key_ltb.
  destruct (decide (timestamp_key = index_key)) as [_|_];
    cbn [fst snd val_eqb val_lt number_of];
    rewrite ?Qeq_bool_inject_Z, ?float_lt_inject_Z.
  - destruct (Z.eqb_spec (ev_index x) (ev_index y)) as [->|_]; [|done].
    by rewrite Z.ltb_irrefl.
  - destruct (Qeq_bool (ev_timestamp x) (ev_timestamp y)) eqn:Heq.
    + assert (float_lt (ev_timestamp x) (ev_timestamp y) = false) as ->.
      { apply float_lt_false. apply Qeq_bool_iff in Heq. rewrite Heq. apply Qle_refl. }
      cbn [orb andb].
      destruct (Z.eqb_spec (ev_index x) (ev_index y)) as [->|_]; [|done].
      by rewrite Z.ltb_irrefl.
    + by rewrite andb_false_l, orb_false_r.
Qed.

Lemma sort_key_ltb_event_dict (activity_key timestamp_key index_key : string)
    (x y : Event) :
  sort_key_ltb timestamp_key index_key
    (event_dict activity_key timestamp_key index_key x)
    (event_dict activity_key timestamp_key index_key y)
  = triple_ltb timestamp_key index_key x y.
Proof.
  unfold sort_key_ltb. rewrite !sort_key_event_dict. cbn [mbind result_bind].
  by rewrite tuple_lt_triple_key.
Qed.

Lemma triple_ltb_asym (timestamp_key index_key : string) (x y : Event) :
  triple_ltb timestamp_key index_key x y = true →
  triple_ltb timestamp_key index_key y x = false.
Proof.
  unfold triple_ltb. destruct (decide (timestamp_key = index_key)); [|apply key_ltb_asym].
  rewrite Z.ltb_lt, Z.ltb_ge. lia.
Qed.

Lemma triple_ltb_trans (timestamp_key index_key : string) (x y z : Event) :
  triple_ltb timestamp_key index_key x y = true →
  triple_ltb timestamp_key index_key y z = true →
  triple_ltb timestamp_key index_key x z = true.
Proof.
  unfold triple_ltb. destruct (decide (timestamp_key = index_key)); [|apply key_ltb_trans].
  rewrite !Z.ltb_lt. lia.
Qed.

(** Line 88 on the dicts of a list of triples: the triples are rearranged
    in the order of their keys, and left as they are when they are in that
    order already. *)
Lemma sort_stream (activity_key timestamp_key index_key : string) (records : list Event) :
  ∃ sorted,
    py_sorted_by (sort_key timestamp_key index_key) tuple_lt
      (event_dict activity_key timestamp_key index_key <$> records)
    = Ok (event_dict activity_key timestamp_key index_key <$> sorted)
    ∧ sorted ≡ₚ records
    ∧ sorted_by (triple_ltb timestamp_key index_key) sorted = true
    ∧ (sorted_by (triple_ltb timestamp_key index_key) records = true → sorted = records).
Proof.
  set (keyed := λ e, (triple_key timestamp_key index_key e,
                      event_dict activity_key timestamp_key index_key e)).
  assert (∀ acc,
            for_each (λ acc x, k ← sort_key timestamp_key index_key x; Ok (acc ++ [(k, x)]))
              acc (event_dict activity_key timestamp_key index_key <$> records)
            = Ok (acc ++ (keyed <$> records))) as Hkeys.
  { induction records as [|e records IH]; intros acc; [by rewrite app_nil_r|].
    cbn [fmap list_fmap for_each]. rewrite sort_key_event_dict.
    cbn [mbind result_bind].
    fold (@fmap list _ _ _ (event_dict activity_key timestamp_key index_key) records).
    rewrite IH, <- app_assoc. done. }
  destruct (py_sorted_sorts (triple_ltb timestamp_key index_key)
              (triple_ltb_asym _ _) (triple_ltb_trans _ _) records)
    as (sorted & Hsorted & Hs & Hp).
  exists sorted. split; [|split; [done|split; [done|]]].
  - unfold py_sorted_by. rewrite (Hkeys []). cbn [app mbind result_bind].
    rewrite (py_sorted_fmap keyed _ (λ p q, tuple_lt p.1 q.1) records sorted
               (λ x y, tuple_lt_triple_key timestamp_key index_key x y) Hsorted).
    cbn [mbind result_bind]. by rewrite <- list_fmap_compose.
  - intros Hrecords. rewrite (py_sorted_sorted _ _ Hrecords) in Hsorted.
    by injection Hsorted as <-.
Qed.

(** The triples of a case are in the order of their indices. *)
Lemma triples_from_indices (activity_key timestamp_key : string) (start : nat)
    (trace : list RawEvent) :
  Forall (λ x, Z.of_nat start <= ev_index x)
    (triples_from activity_key timestamp_key start trace)
  ∧ sorted_by (λ x y, ev_index x <? ev_index y)
      (triples_from activity_key timestamp_key start trace) = true.
Proof.
  revert start. induction trace as [|e trace IH]; intros start; [done|].
  cbn [triples_from]. destruct (IH (S start)) as [Hge Hs].
  assert (Forall (λ x, Z.of_nat start <= ev_index x)
            (triples_from activity_key timestamp_key (S start) trace)) as Hge'.
  { eapply Forall_impl; [exact Hge|]. cbn. lia. }
  unfold triple_of. destruct (e !! activity_key) as [a|]; [|done].
  destruct (e !! timestamp_key) as [[s|t]|]; [done| |done].
  split; [constructor; [cbn; lia | done]|].
  cbn [sorted_by]. rewrite Hs, andb_true_r. apply forallb_forall. intros y Hy.
  apply list_elem_of_In in Hy. rewrite Forall_forall in Hge. specialize (Hge y Hy).
  apply negb_true_iff, Z.ltb_ge. cbn. lia.
Qed.

(** ** Names read by the two entry points *)

Lemma traces_list_unbound :
  name_in "traces_list" apply_locals = false
  ∧ module_namespace !! "traces_list" = None
  ∧ name_in "traces_list" builtins = false.
Proof. repeat split; by vm_compute. Qed.

Lemma load_traces_list :
  load_name apply_locals "traces_list" = Raise (NameError "traces_list").
Proof. by vm_compute. Qed.

Lemma preprocess_log_loads :
  load_names preprocess_log_locals
    ["exec_utils"; "Parameters"; "xes_constants"; "DEFAULT_INDEX_KEY"] = Ok ()
  ∧ load_names preprocess_log_locals ["type"; "pd"] = Ok ()
  ∧ load_names preprocess_log_locals ["converter"] = Ok ()
  ∧ load_names preprocess_log_locals ["range"; "len"] = Ok ()
  ∧ load_names preprocess_log_locals ["sorted"] = Ok ().
Proof. repeat split; by vm_compute. Qed.

Lemma load_before_traces_list :
  load_names apply_locals ["exec_utils"; "Parameters"; "xes_constants"] = Ok ()
  ∧ load_names apply_locals ["Counter"] = Ok ().
Proof. split; by vm_compute. Qed.

(** ** The loop of line 86 *)

Lemma py_item_middle {A : Type} (read rest : list A) (e : A) :
  py_item (read ++ e :: rest) (length read) = Ok e.
Proof. unfold py_item. by rewrite list_lookup_middle. Qed.

Lemma triples_from_length (activity_key timestamp_key : string) (start : nat)
    (trace : list RawEvent) :
  (length (triples_from activity_key timestamp_key start trace) ≤ length trace)%nat.
Proof.
  revert start. induction trace as [|e trace IH]; intros start; [done|].
  cbn [triples_from]. specialize (IH (S start)).
  destruct (triple_of _ _ _ e); cbn [length]; lia.
Qed.

(** When the loop over the events from position [length read] on returns,
    it has added the dict of the triple of each of them. *)
Lemma read_events_Ok (activity_key timestamp_key index_key : string)
    (read rest : list RawEvent) (acc stream : list StreamEvent) :
  for_each
    (λ acc i,
       e ← py_item (read ++ rest) i;
       a ← event_item e activity_key;
       t ← event_item e timestamp_key;
       t ← timestamp_of t;
       Ok (acc ++ [stream_event activity_key timestamp_key index_key a t (Z.of_nat i)]))
    acc (seq (length read) (length rest)) = Ok stream →
  stream = acc ++ (event_dict activity_key timestamp_key index_key
                     <$> triples_from activity_key timestamp_key (length read) rest)
  ∧ length (triples_from activity_key timestamp_key (length read) rest) = length rest.
Proof.
  revert read acc. induction rest as [|e rest IH]; intros read acc Hs.
  { cbn in Hs. injection Hs as <-. by rewrite app_nil_r. }
  cbn [length seq for_each] in Hs. rewrite py_item_middle in Hs.
  cbn [mbind result_bind] in Hs. unfold event_item in Hs.
  cbn [triples_from]. unfold triple_of.
  destruct (e !! activity_key) as [a|]; [|done]. cbn [mbind result_bind] in Hs.
  destruct (e !! timestamp_key) as [[s|t]|]; [done| |done].
  cbn [mbind result_bind timestamp_of] in Hs.
  specialize (IH (read ++ [e])
                (acc ++ [stream_event activity_key timestamp_key index_key a t
                           (Z.of_nat (length read))])).
  rewrite length_app, <- app_assoc in IH. cbn [length app] in IH.
  rewrite Nat.add_1_r in IH. destruct (IH Hs) as [-> Hlen].
  rewrite <- app_assoc. cbn [app fmap list_fmap length]. by rewrite Hlen.
Qed.

(** Lines 85-88 on one case: when they return, the stream holds the dicts
    of the triples of the case, rearranged in the order of the sort key. *)
Lemma trace_stream_of_Ok (activity_key timestamp_key index_key : string)
    (trace : list RawEvent) (stream : list StreamEvent) :
  trace_stream_of activity_key timestamp_key index_key trace = Ok stream →
  ∃ record,
    stream = event_dict activity_key timestamp_key index_key <$> record
    ∧ record ≡ₚ case_triples activity_key timestamp_key trace
    ∧ length record = length trace
    ∧ sorted_by (triple_ltb timestamp_key index_key) record = true
    ∧ (timestamp_key = index_key → record = case_triples activity_key timestamp_key trace).
Proof.
  intros Hs. unfold trace_stream_of in Hs.
  destruct preprocess_log_loads as (_ & _ & _ & L4 & L5).
  rewrite L4 in Hs. cbn [mbind result_bind] in Hs.
  destruct (for_each _ [] (seq 0 (length trace))) as [read| |] eqn:Hread; [|done..].
  cbn [mbind result_bind] in Hs. rewrite L5 in Hs. cbn [mbind result_bind] in Hs.
  destruct (read_events_Ok activity_key timestamp_key index_key [] trace [] read Hread)
    as [-> Hlen].
  cbn [app length] in Hs, Hlen.
  destruct (sort_stream activity_key timestamp_key index_key
              (triples_from activity_key timestamp_key 0 trace))
    as (sorted & Hsorted & Hp & Hsb & Hstable).
  rewrite Hsorted in Hs. injection Hs as <-.
  exists sorted. split; [done|]. split; [done|]. split; [by rewrite Hp|].
  split; [done|]. intros Heq. apply Hstable.
  rewrite (sorted_by_ext _ (λ x y, ev_index x <? ev_index y)).
  - apply triples_from_indices.
  - intros x y. unfold triple_ltb. by destruct (decide (timestamp_key = index_key)).
Qed.

Lemma for_each_invariant {S A : Type} (I : S → Prop) (body : S → A → result S)
    (l : list A) :
  (∀ s x s', I s → body s x = Ok s' → I s') →
  ∀ s s', I s → for_each body s l = Ok s' → I s'.
Proof.
  intros Hstep. induction l as [|x l IH]; intros s s' Hs Hfe.
  - cbn in Hfe. by injection Hfe as <-.
  - cbn [for_each] in Hfe. destruct (body s x) as [s1| |] eqn:Hb; try done.
    cbn in Hfe. eapply IH; [|exact Hfe]. by eapply Hstep.
Qed.


Section EntryPoints.

Context (DataFrame : Type)
  (select_columns : DataFrame → list string → result DataFrame)
  (get_param_value : Parameters → gmap string string → string → string)
  (DEFAULT_NAME_KEY DEFAULT_TIMESTAMP_KEY DEFAULT_TRACEID_KEY : string)
  (converter_apply : log_obj DataFrame → gmap string string
                     → result (list (list RawEvent)))
  (get_c_matrix : Matrix → Matrix → list attr → list (attr * Z) → result Matrix)
  (resolve_LP : Matrix → Matrix → list attr → list (attr * Z) → result (DFG * DFG)).

Local Abbreviation apply' :=
  (apply DataFrame get_param_value DEFAULT_NAME_KEY DEFAULT_TIMESTAMP_KEY
     get_c_matrix resolve_LP).
Local Abbreviation preprocess_log' :=
  (preprocess_log DataFrame select_columns get_param_value
     DEFAULT_NAME_KEY DEFAULT_TIMESTAMP_KEY DEFAULT_TRACEID_KEY converter_apply).

(** Lines 83-89: when the loop over the cases returns, the local
    [traces_list] holds, case by case, the dicts of the triples of the case
    in the order of the sort key. *)
Lemma traces_list_Ok (activity_key timestamp_key index_key : string)
    (traces : list (list RawEvent)) (acc traces_list : list (list StreamEvent)) :
  for_each (S := list (list StreamEvent))
    (λ traces_list trace,
       trace_stream ← trace_stream_of activity_key timestamp_key index_key trace;
       Ok (traces_list ++ [trace_stream]))
    acc traces = Ok traces_list →
  ∃ records : list (list Event),
    traces_list
    = acc ++ (fmap (M := list) (event_dict activity_key timestamp_key index_key) <$> records)
    ∧ Forall2 (λ record trace,
                 record ≡ₚ case_triples activity_key timestamp_key trace
                 ∧ length record = length trace
                 ∧ sorted_by (triple_ltb timestamp_key index_key) record = true
                 ∧ (timestamp_key = index_key →
                    record = case_triples activity_key timestamp_key trace))
        records traces.
Proof.
  revert acc. induction traces as [|trace traces IH]; intros acc Htl.
  { cbn in Htl. injection Htl as <-. exists []. by rewrite app_nil_r. }
  cbn [for_each] in Htl.
  destruct (trace_stream_of _ _ _ trace) as [stream| |] eqn:Hstream; [|done..].
  cbn [mbind result_bind] in Htl.
  destruct (trace_stream_of_Ok _ _ _ _ _ Hstream) as (record & -> & Hrecord).
  destruct (IH _ Htl) as (records & -> & Hrecords).
  exists (record :: records). split; [by rewrite <- app_assoc|]. by constructor.
Qed.

Lemma preprocess_log_traces_list_Ok (log : log_obj DataFrame)
    (parameters : option (gmap string string)) (traces_list : list (list StreamEvent)) :
  let activity_key := get_param_value ACTIVITY_KEY (default ∅ parameters) DEFAULT_NAME_KEY in
  let timestamp_key :=
    get_param_value TIMESTAMP_KEY (default ∅ parameters) DEFAULT_TIMESTAMP_KEY in
  let caseid_key :=
    get_param_value CASE_ID_KEY (default ∅ parameters) DEFAULT_TRACEID_KEY in
  let index_key := get_param_value INDEX_KEY (default ∅ parameters) DEFAULT_INDEX_KEY in
  preprocess_log_traces_list DataFrame select_columns get_param_value
    DEFAULT_NAME_KEY DEFAULT_TIMESTAMP_KEY DEFAULT_TRACEID_KEY converter_apply
    log parameters = Ok traces_list →
  ∃ (traces : list (list RawEvent)) (records : list (list Event)),
    (select_log DataFrame select_columns activity_key timestamp_key caseid_key log
       ≫= λ log, converter_apply log (default ∅ parameters)) = Ok traces
    ∧ traces_list = fmap (M := list) (event_dict activity_key timestamp_key index_key) <$> records
    ∧ Forall2 (λ record trace,
                 record ≡ₚ case_triples activity_key timestamp_key trace
                 ∧ length record = length trace
                 ∧ sorted_by (triple_ltb timestamp_key index_key) record = true
                 ∧ (timestamp_key = index_key →
                    record = case_triples activity_key timestamp_key trace))
        records traces.
Proof.
  intros activity_key timestamp_key caseid_key index_key.
  destruct preprocess_log_loads as (L1 & L2 & L3 & _ & _).
  unfold preprocess_log_traces_list. cbv zeta.
  rewrite L1. cbn [mbind result_bind]. rewrite L2. cbn [mbind result_bind].
  fold activity_key timestamp_key caseid_key index_key.
  destruct (select_log _ _ _ _ _ log) as [log'| |]; [|done..].
  cbn [mbind result_bind]. rewrite L3. cbn [mbind result_bind].
  destruct (converter_apply log' _) as [traces| |]; [|done..].
  cbn [mbind result_bind]. intros Htl.
  destruct (traces_list_Ok _ _ _ _ _ _ Htl) as (records & -> & Hrecords).
  by exists traces, records.
Qed.

(** Whatever the log, the parameters and the collaborators, the read of
    [traces_list] on line 50 ends [apply]. *)
Lemma apply_raises (log : log_obj DataFrame) (parameters : option (gmap string string)) :
  apply' log parameters = Raise (NameError "traces_list").
Proof.
  unfold apply. destruct load_before_traces_list as [-> ->].
  cbn [mbind result_bind]. by rewrite load_traces_list.
Qed.

Lemma preprocess_log_value (log : log_obj DataFrame)
    (parameters : option (gmap string string)) (v : pyobj) :
  preprocess_log' log parameters = Ok v → v = ObjNone.
Proof.
  unfold preprocess_log.
  destruct (preprocess_log_traces_list _ _ _ _ _ _ _ _ _); cbn; congruence.
Qed.

(** C1.  On a log with zero cases [apply] does not return two empty
    mappings: it raises [NameError]. *)
Theorem apply_zero_cases_raises (parameters : option (gmap string string)) :
  apply DataFrame get_param_value DEFAULT_NAME_KEY DEFAULT_TIMESTAMP_KEY
    get_c_matrix resolve_LP (LogEventLog []) parameters
  = Raise (NameError "traces_list")
  ∧ apply DataFrame get_param_value DEFAULT_NAME_KEY DEFAULT_TIMESTAMP_KEY
      get_c_matrix resolve_LP (LogEventLog []) parameters
    ≠ Ok ([], []).
Proof. rewrite apply_raises. split; [done | discriminate]. Qed.

(** C2.  For every log and every parameter dictionary [apply] raises
    [NameError]: it reads the name [traces_list], which is neither a local
    name of [apply], nor a global of the module, nor a builtin; the read
    raises whatever the rest of the body is, so before any matrix is built;
    [preprocess_log], which builds such a list, is not called, and it
    returns [None] whenever it returns. *)
Theorem apply_always_raises_NameError (log : log_obj DataFrame)
    (parameters : option (gmap string string)) :
  apply DataFrame get_param_value DEFAULT_NAME_KEY DEFAULT_TIMESTAMP_KEY
    get_c_matrix resolve_LP log parameters
  = Raise (NameError "traces_list")
  ∧ (name_in "traces_list" apply_locals = false
     ∧ module_namespace !! "traces_list" = None
     ∧ name_in "traces_list" builtins = false)
  ∧ (∀ (B : Type) (rest : pyobj → result B),
       load_name apply_locals "traces_list" ≫= rest = Raise (NameError "traces_list"))
  ∧ (∀ log' parameters' v,
       preprocess_log DataFrame select_columns get_param_value
         DEFAULT_NAME_KEY DEFAULT_TIMESTAMP_KEY DEFAULT_TRACEID_KEY converter_apply
         log' parameters' = Ok v →
       v = ObjNone).
Proof.
  split; [apply apply_raises|]. split; [apply traces_list_unbound|].
  split; [|apply preprocess_log_value].
  intros B rest. by rewrite load_traces_list.
Qed.

(** C3.  [preprocess_log] does not return the traces it builds: whenever it
    returns, its value is [None], although its local [traces_list] then
    holds, for each case of the converted log, the dicts of the triples
    (activity, timestamp in seconds, original index) of the events of the
    case, sorted by the key of line 88.  For distinct timestamp and index
    keys that is the order by (timestamp, index); when the two keys are the
    same string the index has replaced the timestamp and the case keeps its
    order. *)
Theorem preprocess_log_returns_None (log : log_obj DataFrame)
    (parameters : option (gmap string string)) (v : pyobj) :
  preprocess_log DataFrame select_columns get_param_value
    DEFAULT_NAME_KEY DEFAULT_TIMESTAMP_KEY DEFAULT_TRACEID_KEY converter_apply
    log parameters = Ok v →
  v = ObjNone
  ∧ (∀ traces_list, v ≠ ObjTraces traces_list)
  ∧ let activity_key :=
      get_param_value ACTIVITY_KEY (default ∅ parameters) DEFAULT_NAME_KEY in
    let timestamp_key :=
      get_param_value TIMESTAMP_KEY (default ∅ parameters) DEFAULT_TIMESTAMP_KEY in
    let caseid_key :=
      get_param_value CASE_ID_KEY (default ∅ parameters) DEFAULT_TRACEID_KEY in
    let index_key :=
      get_param_value INDEX_KEY (default ∅ parameters) DEFAULT_INDEX_KEY in
    ∃ (traces : list (list RawEvent)) (records : list (list Event)),
      (select_log DataFrame select_columns activity_key timestamp_key caseid_key log
         ≫= λ log, converter_apply log (default ∅ parameters)) = Ok traces
      ∧ preprocess_log_traces_list DataFrame select_columns get_param_value
          DEFAULT_NAME_KEY DEFAULT_TIMESTAMP_KEY DEFAULT_TRACEID_KEY converter_apply
          log parameters
        = Ok (fmap (M := list) (event_dict activity_key timestamp_key index_key) <$> records)
      ∧ Forall2 (λ record trace,
                   record ≡ₚ case_triples activity_key timestamp_key trace
                   ∧ length record = length trace)
          records traces
      ∧ Forall (λ trace_stream,
                  sorted_by (sort_key_ltb timestamp_key index_key) trace_stream = true)
          (fmap (M := list) (event_dict activity_key timestamp_key index_key) <$> records)
      ∧ (timestamp_key ≠ index_key →
         Forall (λ record, key_sorted record = true) records)
      ∧ (timestamp_key = index_key →
         records = case_triples activity_key timestamp_key <$> traces).
Proof.
  intros Hv. pose proof (preprocess_log_value _ _ _ Hv) as ->.
  split; [done|]. split; [discriminate|].
  intros activity_key timestamp_key caseid_key index_key.
  unfold preprocess_log in Hv.
  destruct (preprocess_log_traces_list _ _ _ _ _ _ _ _ _) as [traces_list| |] eqn:Htl;
    [|done..].
  destruct (preprocess_log_traces_list_Ok _ _ _ Htl)
    as (traces & records & Hconv & -> & Hrecords).
  exists traces, records. split; [done|]. split; [done|].
  fold activity_key timestamp_key index_key in Hrecords. split; [|split; [|split]].
  - eapply Forall2_impl; [exact Hrecords|]. cbn beta. tauto.
  - apply Forall_fmap. eapply Forall2_Forall_l; [exact Hrecords|].
    apply Forall_forall. intros trace _ record (_ & _ & Hs & _). cbn.
    rewrite sorted_by_fmap.
    rewrite (sorted_by_ext _ (triple_ltb timestamp_key index_key)); [done|].
    intros x y. apply sort_key_ltb_event_dict.
  - intros Hne. eapply Forall2_Forall_l; [exact Hrecords|].
    apply Forall_forall. intros trace _ record (_ & _ & Hs & _). cbn beta.
    rewrite key_sorted_sorted_by.
    rewrite (sorted_by_ext _ (triple_ltb timestamp_key index_key)); [done|].
    intros x y. unfold triple_ltb. by destruct (decide (timestamp_key = index_key)).
  - intros Heq. clear Hconv Htl Hv.
    induction Hrecords as [|record trace records traces (_ & _ & _ & Hrecord) _ IH];
      [done|].
    cbn [fmap list_fmap]. by rewrite (Hrecord Heq), IH.
Qed.

End EntryPoints.

Lemma preprocess_log_returns_None_witness :
  sample_preprocess_log log_unordered None = Ok ObjNone
  ∧ match sample_traces_list log_unordered None with
    | Ok traces_list =>
        Some (fmap (M := list)
                (dict_view ["concept:name"; "time:timestamp"; "@@@index"])
                <$> traces_list)
    | _ => None
    end
    = Some [ [ (3%nat, [Some (VAttr (AStr "A")); Some (VFloat 1); Some (VInt 2)]);
               (3%nat, [Some (VAttr (AStr "B")); Some (VFloat 5); Some (VInt 0)]);
               (3%nat, [Some (VAttr (AStr "C")); Some (VFloat 5); Some (VInt 1)]) ] ]
  ∧ (ObjNone = ObjNone
     ∧ (∀ traces_list, ObjNone ≠ ObjTraces traces_list)
     ∧ ∃ (traces : list (list RawEvent)) (records : list (list Event)),
         convert_event_log log_unordered ∅ = Ok traces
         ∧ sample_traces_list log_unordered None
           = Ok (fmap (M := list) (event_dict "concept:name" "time:timestamp" "@@@index") <$> records)
         ∧ Forall2 (λ record trace,
                      record ≡ₚ case_triples "concept:name" "time:timestamp" trace
                      ∧ length record = length trace)
             records traces
         ∧ Forall (λ trace_stream,
                     sorted_by (sort_key_ltb "time:timestamp" "@@@index") trace_stream = true)
             (fmap (M := list) (event_dict "concept:name" "time:timestamp" "@@@index") <$> records)
         ∧ ("time:timestamp" ≠ "@@@index" →
            Forall (λ record, key_sorted record = true) records)
         ∧ ("time:timestamp" = "@@@index" →
            records = case_triples "concept:name" "time:timestamp" <$> traces)).
Proof.
  split; [vm_compute; reflexivity|]. split; [vm_compute; reflexivity|].
  apply (preprocess_log_returns_None unit (λ df _, Ok df) default_param_value
           "concept:name" "time:timestamp" "concept:name" convert_event_log
           log_unordered None ObjNone).
  vm_compute. reflexivity.
Defined.

(** When the index key is the timestamp key, each dict has two entries, the
    index has replaced the timestamp, and the case keeps its original
    order. *)
Example preprocess_log_shared_key :
  match
    preprocess_log_traces_list unit (λ df _, Ok df)
      (λ p _ default, match p with INDEX_KEY => "time:timestamp" | _ => default end)
      "concept:name" "time:timestamp" "concept:name" convert_event_log
      log_unordered None
  with
  | Ok traces_list =>
      Some (fmap (M := list) (dict_view ["concept:name"; "time:timestamp"]) <$> traces_list)
  | _ => None
  end
  = Some [ [ (2%nat, [Some (VAttr (AStr "B")); Some (VInt 0)]);
             (2%nat, [Some (VAttr (AStr "C")); Some (VInt 1)]);
             (2%nat, [Some (VAttr (AStr "A")); Some (VInt 2)]) ] ].
Proof. vm_compute. reflexivity. Qed.

(** * Further properties of the precedence matrix *)

Lemma ratio_bounds (c t : Z) : 0 <= c <= t → (0 <= ratio c t)%Q ∧ (ratio c t <= 1)%Q.
Proof.
  intros Hc. unfold ratio. destruct (Z.ltb_spec 0 t) as [Ht|Ht]; [|done].
  destruct t as [|tp|]; [lia| |lia].
  rewrite float_div_pos. unfold Qle. cbn [Qnum Qden]. lia.
Qed.

Lemma ratio_full (t : Z) : 0 < t → (ratio t t == 1)%Q.
Proof.
  intros Ht. unfold ratio. destruct (Z.ltb_spec 0 t) as [_|?]; [|lia].
  destruct t as [|tp|]; [lia| |lia].
  rewrite float_div_pos. unfold Qeq. cbn [Qnum Qden]. lia.
Qed.

Lemma ratio_none (t : Z) : (ratio 0 t == 0)%Q.
Proof.
  unfold ratio. destruct (0 <? t); [|done].
  unfold float_div, Qdiv. by rewrite Qmult_0_l.
Qed.

Lemma naive_total_sym (i j : nat) (tgl : list (list (list Event))) :
  naive_total i j tgl = naive_total j i tgl.
Proof.
  unfold naive_total. f_equal. apply list_fmap_ext. intros _ tr _.
  rewrite (andb_comm (truthy (occ tr i))).
  destruct (truthy (occ tr j) && truthy (occ tr i)); lia.
Qed.

Lemma merged_count_always_before (i j : nat) (tgl : list (list (list Event))) :
  always_before i j tgl = true → merged_count i j tgl = naive_total i j tgl.
Proof.
  induction tgl as [|tr tgl IH]; [done|].
  unfold always_before. cbn [forallb]. rewrite andb_true_iff. intros [Htr Htgl].
  unfold merged_count, naive_total. cbn [fmap list_fmap foldr].
  fold (merged_count i j tgl). fold (naive_total i j tgl).
  rewrite (IH Htgl), (ps_scan_all_before _ _ (all_before_Forall _ _ Htr)). done.
Qed.

Lemma merged_count_always_after (i j : nat) (tgl : list (list (list Event))) :
  always_before i j tgl = true → merged_count j i tgl = 0.
Proof.
  induction tgl as [|tr tgl IH]; [done|].
  unfold always_before. cbn [forallb]. rewrite andb_true_iff. intros [Htr Htgl].
  unfold merged_count. cbn [fmap list_fmap foldr]. fold (merged_count j i tgl).
  rewrite (IH Htgl), (ps_scan_none_before _ _ (all_before_none_after _ _ Htr)).
  by destruct (truthy (occ tr j) && truthy (occ tr i)).
Qed.

Lemma never_before_Forall (ai aj : list Q) :
  forallb (λ a, forallb (λ b, negb (float_lt a b)) aj) ai = true →
  Forall (λ a, Forall (λ b, float_lt a b = false) aj) ai.
Proof.
  rewrite forallb_forall, Forall_forall. intros H a Ha.
  apply list_elem_of_In in Ha. specialize (H a Ha).
  rewrite forallb_forall in H. apply Forall_forall. intros b Hb.
  apply list_elem_of_In in Hb. by apply negb_true_iff, H.
Qed.

Lemma merged_count_never_before (i j : nat) (tgl : list (list (list Event))) :
  never_before i j tgl = true → merged_count i j tgl = 0.
Proof.
  induction tgl as [|tr tgl IH]; [done|].
  unfold never_before. cbn [forallb]. rewrite andb_true_iff. intros [Htr Htgl].
  unfold merged_count. cbn [fmap list_fmap foldr]. fold (merged_count i j tgl).
  rewrite (IH Htgl), (ps_scan_none_before _ _ (never_before_Forall _ _ Htr)).
  by destruct (truthy (occ tr i) && truthy (occ tr j)).
Qed.

Lemma Zsum_Permutation (l l' : list Z) :
  l ≡ₚ l' → foldr Z.add 0 l = foldr Z.add 0 l'.
Proof. induction 1; cbn; lia. Qed.

Lemma ps_value_Permutation (tgl tgl' : list (list (list Event))) (a b : nat) :
  tgl ≡ₚ tgl' → ps_value tgl a b = ps_value tgl' a b.
Proof.
  intros Hp. unfold ps_value, merged_count, naive_total.
  f_equal; apply Zsum_Permutation; by apply fmap_Permutation.
Qed.

Lemma well_shaped_Permutation (n : nat) (tgl tgl' : list (list (list Event))) :
  tgl ≡ₚ tgl' → well_shaped n tgl = true → well_shaped n tgl' = true.
Proof.
  intros Hp. unfold well_shaped. rewrite !forallb_forall.
  intros H tr Htr. apply H. apply list_elem_of_In. rewrite Hp. by apply list_elem_of_In.
Qed.

(** X1.  Every cell of the precedence matrix is a proportion: on a grouped log
    with one group per activity the function returns a matrix whose cells
    all lie between 0 and 1. *)
Theorem ps_cells_are_proportions {L : Type} (activities : list L)
    (tgl : list (list (list Event))) (timestamp_key : string) :
  well_shaped (length activities) tgl = true →
  ∃ M, get_precede_succeed_matrix activities tgl timestamp_key = Ok M
       ∧ ∀ a b, (a < length activities)%nat → (b < length activities)%nat →
           ∃ x, cell M a b = Some x ∧ (0 <= x)%Q ∧ (x <= 1)%Q.
Proof.
  intros Hws.
  destruct (ps_matrix_entries activities tgl timestamp_key Hws) as (M & HM & Hcells & Hdiag).
  exists M. split; [done|]. intros a b Ha Hb.
  assert (∀ i j, (0 <= ps_value tgl i j)%Q ∧ (ps_value tgl i j <= 1)%Q) as Hv.
  { intros i j. apply ratio_bounds, merged_count_bounds. }
  destruct (lt_eq_lt_dec a b) as [[Hlt| ->]|Hgt].
  - destruct (Hcells a b Hlt Hb) as [Hx _]. exists (ps_value tgl a b).
    split; [done|]. apply Hv.
  - exists 0%Q. split; [by apply Hdiag|]. done.
  - destruct (Hcells b a Hgt Ha) as [_ Hy]. exists (1 - ps_value tgl b a)%Q.
    split; [done|]. destruct (Hv b a) as [H0 H1]. split.
    + apply (Qplus_le_l _ _ (ps_value tgl b a)). ring_simplify. done.
    + apply (Qplus_le_l _ _ (ps_value tgl b a)). ring_simplify.
      apply (Qplus_le_r _ _ 1) in H0. by ring_simplify in H0.
Qed.

Lemma ps_cells_are_proportions_witness :
  well_shaped (length two_activities) grouped_interleaved = true
  ∧ ∃ M, get_precede_succeed_matrix two_activities grouped_interleaved "time:timestamp" = Ok M
         ∧ ∀ a b, (a < length two_activities)%nat → (b < length two_activities)%nat →
             ∃ x, cell M a b = Some x ∧ (0 <= x)%Q ∧ (x <= 1)%Q.
Proof.
  split; [reflexivity|].
  apply (ps_cells_are_proportions two_activities grouped_interleaved "time:timestamp").
  reflexivity.
Defined.

(** X2.  When the two activities share at least one trace and, in every trace,
    each occurrence of [i] is strictly before each occurrence of [j], the
    matrix holds [PS[i][j] = 1] and [PS[j][i] = 0], whichever index is the
    larger. *)
Theorem ps_certain_precedence {L : Type} (activities : list L)
    (tgl : list (list (list Event))) (timestamp_key : string) (i j : nat) :
  (i < length activities)%nat → (j < length activities)%nat → i ≠ j →
  well_shaped (length activities) tgl = true →
  always_before i j tgl = true →
  0 < naive_total i j tgl →
  ∃ M x y, get_precede_succeed_matrix activities tgl timestamp_key = Ok M
           ∧ cell M i j = Some x ∧ cell M j i = Some y
           ∧ (x == 1)%Q ∧ (y == 0)%Q.
Proof.
  intros Hi Hj Hne Hws Hbefore Htotal.
  destruct (ps_matrix_entries activities tgl timestamp_key Hws) as (M & HM & Hcells & _).
  destruct (decide (i < j)%nat) as [Hlt|Hge].
  - destruct (Hcells i j Hlt Hj) as [Hx Hy].
    exists M, (ps_value tgl i j), (1 - ps_value tgl i j)%Q.
    repeat (split; [done|]).
    assert (ps_value tgl i j == 1)%Q as Hone.
    { unfold ps_value. rewrite (merged_count_always_before _ _ _ Hbefore).
      by apply ratio_full. }
    split; [done|]. rewrite Hone. ring.
  - destruct (Hcells j i) as [Hx Hy]; [lia|done|].
    exists M, (1 - ps_value tgl j i)%Q, (ps_value tgl j i).
    repeat (split; [done|]).
    assert (ps_value tgl j i == 0)%Q as Hzero.
    { unfold ps_value. rewrite (merged_count_always_after _ _ _ Hbefore).
      apply ratio_none. }
    split; [|done]. rewrite Hzero. ring.
Qed.

Lemma ps_certain_precedence_witness :
  ((0 < length two_activities)%nat ∧ (1 < length two_activities)%nat ∧ 0%nat ≠ 1%nat
   ∧ well_shaped (length two_activities) grouped_two_cases = true
   ∧ always_before 0 1 grouped_two_cases = true
   ∧ 0 < naive_total 0 1 grouped_two_cases)
  ∧ ∃ M x y, get_precede_succeed_matrix two_activities grouped_two_cases "time:timestamp" = Ok M
             ∧ cell M 0 1 = Some x ∧ cell M 1 0 = Some y
             ∧ (x == 1)%Q ∧ (y == 0)%Q.
Proof.
  split.
  - repeat split; (reflexivity || discriminate || (cbn; lia)).
  - apply (ps_certain_precedence two_activities grouped_two_cases "time:timestamp" 0 1);
      (reflexivity || discriminate || (cbn; lia)).
Defined.

(** X3.  A tie counts for the mirrored cell: for [i < j], when in no trace an
    occurrence of [i] is strictly before an occurrence of [j], equal
    timestamps included, the matrix holds [PS[i][j] = 0] and [PS[j][i] = 1],
    whether the two activities share a trace or not. *)
Theorem ps_ties_go_to_mirror {L : Type} (activities : list L)
    (tgl : list (list (list Event))) (timestamp_key : string) (i j : nat) :
  (i < j)%nat → (j < length activities)%nat →
  well_shaped (length activities) tgl = true →
  never_before i j tgl = true →
  ∃ M x y, get_precede_succeed_matrix activities tgl timestamp_key = Ok M
           ∧ cell M i j = Some x ∧ cell M j i = Some y
           ∧ (x == 0)%Q ∧ (y == 1)%Q.
Proof.
  intros Hij Hj Hws Hnever.
  destruct (ps_matrix_entries activities tgl timestamp_key Hws) as (M & HM & Hcells & _).
  destruct (Hcells i j Hij Hj) as [Hx Hy].
  exists M, (ps_value tgl i j), (1 - ps_value tgl i j)%Q.
  repeat (split; [done|]).
  assert (ps_value tgl i j == 0)%Q as Hzero.
  { unfold ps_value. rewrite (merged_count_never_before _ _ _ Hnever).
    apply ratio_none. }
  split; [done|]. rewrite Hzero. ring.
Qed.

Lemma ps_ties_go_to_mirror_witness :
  ((0 < 1)%nat ∧ (1 < length two_activities)%nat
   ∧ well_shaped (length two_activities) grouped_tie = true
   ∧ never_before 0 1 grouped_tie = true
   ∧ never_before 1 0 grouped_tie = true
   ∧ naive_total 0 1 grouped_tie = 1)
  ∧ ∃ M x y, get_precede_succeed_matrix two_activities grouped_tie "time:timestamp" = Ok M
             ∧ cell M 0 1 = Some x ∧ cell M 1 0 = Some y
             ∧ (x == 0)%Q ∧ (y == 1)%Q.
Proof.
  split.
  - repeat split; (reflexivity || (cbn; lia)).
  - apply (ps_ties_go_to_mirror two_activities grouped_tie "time:timestamp" 0 1);
      (reflexivity || (cbn; lia)).
Defined.

(** * Shape, exceptions and edge inputs of the two estimators *)

Lemma np_zeros_shape (n : nat) : has_shape n (np_zeros n n).
Proof.
  unfold has_shape, np_zeros. rewrite length_replicate. split; [done|].
  apply Forall_replicate. by rewrite length_replicate.
Qed.

Lemma mat_set_shape (n : nat) (M M' : Matrix) (i j : nat) (v : Q) :
  has_shape n M → mat_set M i j v = Ok M' → has_shape n M'.
Proof.
  intros [Hlen Hrows]. unfold mat_set, py_item.
  destruct (M !! i) as [row|] eqn:Hrow; [|done]. cbn [mbind result_bind].
  destruct (row !! j); [|done]. cbn. intros [= <-].
  split; [by rewrite length_insert|].
  apply Forall_insert; [done|]. rewrite length_insert.
  exact (Forall_lookup_1 _ _ _ _ Hrows Hrow).
Qed.

Lemma ps_cell_shape (n : nat) (tgl : list (list (list Event))) (i j : nat) (M M' : Matrix) :
  has_shape n M → ps_cell tgl i M j = Ok M' → has_shape n M'.
Proof.
  intros HM. unfold ps_cell.
  destruct (for_each (ps_trace i j) (0, 0) tgl) as [[count total]| |]; [|done..].
  cbn [mbind result_bind].
  destruct (if 0 <? total then mat_set M i j (float_div count total) else Ok M)
    as [M1| |] eqn:H1; [|done..].
  assert (has_shape n M1) as HM1.
  { destruct (0 <? total); [by eapply mat_set_shape | by injection H1 as <-]. }
  cbn [mbind result_bind]. destruct (mat_get M1 i j); [|done..].
  cbn [mbind result_bind]. by apply mat_set_shape.
Qed.

Lemma dur_cell_shape (n : nat) (tgl : list (list (list Event))) (i j : nat) (M M' : Matrix) :
  has_shape n M → dur_cell tgl i M j = Ok M' → has_shape n M'.
Proof.
  intros HM. unfold dur_cell. destruct (negb (i =? j)%nat); [|by intros [= <-]].
  destruct (for_each (dur_trace i j) ([], []) tgl) as [[times0 times1]| |]; [|done..].
  cbn [mbind result_bind]. by apply mat_set_shape.
Qed.

Lemma ps_matrix_shape {L : Type} (activities : list L)
    (tgl : list (list (list Event))) (timestamp_key : string) (M : Matrix) :
  get_precede_succeed_matrix activities tgl timestamp_key = Ok M →
  has_shape (length activities) M.
Proof.
  unfold get_precede_succeed_matrix. cbv zeta.
  apply for_each_invariant; [|apply np_zeros_shape].
  intros M1 i M2 HM1. apply for_each_invariant; [|done].
  intros M3 j M4. apply ps_cell_shape.
Qed.

Lemma dur_matrix_shape {L : Type} (activities : list L)
    (tgl : list (list (list Event))) (timestamp_key : string) (M : Matrix) :
  get_duration_matrix activities tgl timestamp_key = Ok M →
  has_shape (length activities) M.
Proof.
  unfold get_duration_matrix. cbv zeta.
  apply for_each_invariant; [|apply np_zeros_shape].
  intros M1 i M2 HM1. apply for_each_invariant; [|done].
  intros M3 j M4. apply dur_cell_shape.
Qed.

Lemma matrix_ext (n : nat) (M M' : Matrix) :
  has_shape n M → has_shape n M' →
  (∀ a b, (a < n)%nat → (b < n)%nat → cell M a b = cell M' a b) →
  M = M'.
Proof.
  intros [Hlen Hrows] [Hlen' Hrows'] Hcells.
  apply list_eq. intros a.
  destruct (decide (a < n)%nat) as [Ha|Ha].
  - destruct (lookup_lt_is_Some_2 M a) as [row Hrow]; [lia|].
    destruct (lookup_lt_is_Some_2 M' a) as [row' Hrow']; [lia|].
    rewrite Hrow, Hrow'. f_equal.
    pose proof (Forall_lookup_1 _ _ _ _ Hrows Hrow) as Hl.
    pose proof (Forall_lookup_1 _ _ _ _ Hrows' Hrow') as Hl'.
    cbn beta in Hl, Hl'.
    apply list_eq. intros b.
    destruct (decide (b < n)%nat) as [Hb|Hb].
    + specialize (Hcells a b Ha Hb). unfold cell in Hcells.
      by rewrite Hrow, Hrow' in Hcells.
    + rewrite !lookup_ge_None_2 by lia. done.
  - rewrite !lookup_ge_None_2 by lia. done.
Qed.

(** X4.  Both estimators return square matrices: a returned matrix has one row
    per activity and one cell per activity in every row. *)
Theorem estimators_return_square_matrices {L : Type} (activities : list L)
    (tgl : list (list (list Event))) (timestamp_key : string) :
  (∀ M, get_precede_succeed_matrix activities tgl timestamp_key = Ok M →
        has_shape (length activities) M)
  ∧ (∀ M, get_duration_matrix activities tgl timestamp_key = Ok M →
          has_shape (length activities) M).
Proof. split; intros M; [apply ps_matrix_shape | apply dur_matrix_shape]. Qed.

Lemma estimators_return_square_matrices_witness :
  ∃ M D, get_precede_succeed_matrix two_activities grouped_interleaved "time:timestamp" = Ok M
         ∧ get_duration_matrix two_activities grouped_interleaved "time:timestamp" = Ok D
         ∧ has_shape 2 M ∧ has_shape 2 D.
Proof.
  do 2 eexists. split; [reflexivity|]. split; [reflexivity|].
  destruct (estimators_return_square_matrices two_activities grouped_interleaved
              "time:timestamp") as [HM HD].
  split; [by apply HM | by apply HD].
Defined.

(** X5.  The order of the traces does not matter to the precedence matrix:
    permuting the grouped log leaves the returned matrix unchanged. *)
Theorem ps_ignores_trace_order {L : Type} (activities : list L)
    (tgl tgl' : list (list (list Event))) (timestamp_key : string) :
  tgl ≡ₚ tgl' →
  well_shaped (length activities) tgl = true →
  ∃ M, get_precede_succeed_matrix activities tgl timestamp_key = Ok M
       ∧ get_precede_succeed_matrix activities tgl' timestamp_key = Ok M.
Proof.
  intros Hp Hws.
  pose proof (well_shaped_Permutation _ _ _ Hp Hws) as Hws'.
  destruct (ps_matrix_cells activities tgl timestamp_key Hws) as (M & HM & Hrep).
  destruct (ps_matrix_cells activities tgl' timestamp_key Hws') as (M' & HM' & Hrep').
  exists M. split; [done|]. rewrite HM'. f_equal.
  apply (matrix_ext (length activities));
    [by eapply ps_matrix_shape | by eapply ps_matrix_shape |].
  intros a b Ha Hb. rewrite (Hrep a b Ha Hb), (Hrep' a b Ha Hb). f_equal.
  unfold ps_fun. by rewrite !(ps_value_Permutation tgl tgl' _ _ Hp).
Qed.

Lemma ps_ignores_trace_order_witness :
  (grouped_reversed ++ [trace_in_order] ≡ₚ trace_in_order :: grouped_reversed
   ∧ well_shaped (length two_activities) (grouped_reversed ++ [trace_in_order]) = true)
  ∧ ∃ M, get_precede_succeed_matrix two_activities (grouped_reversed ++ [trace_in_order])
           "time:timestamp" = Ok M
         ∧ get_precede_succeed_matrix two_activities (trace_in_order :: grouped_reversed)
             "time:timestamp" = Ok M.
Proof.
  assert (grouped_reversed ++ [trace_in_order] ≡ₚ trace_in_order :: grouped_reversed) as Hp.
  { symmetry. apply Permutation_cons_append. }
  split; [split; [exact Hp | reflexivity]|].
  apply (ps_ignores_trace_order two_activities _ _ "time:timestamp" Hp). reflexivity.
Defined.

Lemma bind_returns_or_IndexError {A B : Type} (m : result A) (f : A → result B) :
  returns_or_IndexError m → (∀ a, returns_or_IndexError (f a)) →
  returns_or_IndexError (m ≫= f).
Proof. destruct m as [a|e|]; cbn; [by intros _ Hf | by destruct e | done]. Qed.

Lemma py_item_returns_or_IndexError {A : Type} (l : list A) (i : nat) :
  returns_or_IndexError (py_item l i).
Proof. unfold py_item. by destruct (l !! i). Qed.

Lemma for_each_returns_or_IndexError {S A : Type} (body : S → A → result S) (l : list A) :
  (∀ s x, returns_or_IndexError (body s x)) →
  ∀ s, returns_or_IndexError (for_each body s l).
Proof.
  intros Hb. induction l as [|x l IH]; intros s; [done|].
  cbn [for_each]. by apply bind_returns_or_IndexError.
Qed.

Lemma mat_get_returns_or_IndexError (M : Matrix) (i j : nat) :
  returns_or_IndexError (mat_get M i j).
Proof.
  unfold mat_get. apply bind_returns_or_IndexError;
    intros; apply py_item_returns_or_IndexError.
Qed.

Lemma mat_set_returns_or_IndexError (M : Matrix) (i j : nat) (v : Q) :
  returns_or_IndexError (mat_set M i j v).
Proof.
  unfold mat_set. apply bind_returns_or_IndexError;
    [apply py_item_returns_or_IndexError|]. intros row.
  apply bind_returns_or_IndexError; [apply py_item_returns_or_IndexError|done].
Qed.

Lemma ps_trace_returns_or_IndexError (i j : nat) (ct : Z * Z) (tr : list (list Event)) :
  returns_or_IndexError (ps_trace i j ct tr).
Proof.
  unfold ps_trace. destruct ct as [count total].
  apply bind_returns_or_IndexError; [apply py_item_returns_or_IndexError|]. intros tr_i.
  apply bind_returns_or_IndexError; [apply py_item_returns_or_IndexError|]. intros tr_j.
  destruct (truthy _ && truthy _); [|done].
  destruct (ps_loops (ev_timestamp <$> tr_i) (ev_timestamp <$> tr_j) count) as (s & -> & _).
  done.
Qed.

Lemma dur_trace_returns_or_IndexError (i j : nat) (tt : list Q * list Q)
    (tr : list (list Event)) :
  returns_or_IndexError (dur_trace i j tt tr).
Proof.
  unfold dur_trace. destruct tt as [times0 times1].
  apply bind_returns_or_IndexError; [apply py_item_returns_or_IndexError|]. intros tr_i.
  apply bind_returns_or_IndexError; [apply py_item_returns_or_IndexError|]. intros tr_j.
  destruct (truthy _ && truthy _); [|done].
  rewrite fifo_trace_eq. cbn [mbind result_bind]. by rewrite lifo_trace_eq.
Qed.

Lemma ps_matrix_returns_or_IndexError {L : Type} (activities : list L)
    (tgl : list (list (list Event))) (timestamp_key : string) :
  returns_or_IndexError (get_precede_succeed_matrix activities tgl timestamp_key).
Proof.
  unfold get_precede_succeed_matrix. cbv zeta.
  apply for_each_returns_or_IndexError. intros M i.
  apply for_each_returns_or_IndexError. intros M1 j. unfold ps_cell.
  apply bind_returns_or_IndexError;
    [apply for_each_returns_or_IndexError; intros; apply ps_trace_returns_or_IndexError|].
  intros [count total].
  apply bind_returns_or_IndexError;
    [destruct (0 <? total); [apply mat_set_returns_or_IndexError | done]|].
  intros M2. apply bind_returns_or_IndexError; [apply mat_get_returns_or_IndexError|].
  intros x. apply mat_set_returns_or_IndexError.
Qed.

Lemma dur_matrix_returns_or_IndexError {L : Type} (activities : list L)
    (tgl : list (list (list Event))) (timestamp_key : string) :
  returns_or_IndexError (get_duration_matrix activities tgl timestamp_key).
Proof.
  unfold get_duration_matrix. cbv zeta.
  apply for_each_returns_or_IndexError. intros M i.
  apply for_each_returns_or_IndexError. intros M1 j. unfold dur_cell.
  destruct (negb (i =? j)%nat); [|done].
  apply bind_returns_or_IndexError;
    [apply for_each_returns_or_IndexError; intros; apply dur_trace_returns_or_IndexError|].
  intros [times0 times1]. apply mat_set_returns_or_IndexError.
Qed.

Lemma dur_trace_Ok (i j : nat) (tt tt' : list Q * list Q) (tr : list (list Event)) :
  dur_trace i j tt tr = Ok tt' → (j < length tr)%nat.
Proof.
  unfold dur_trace, py_item. destruct tt as [times0 times1].
  destruct (tr !! i); [|done]. cbn [mbind result_bind].
  destruct (tr !! j) eqn:Hj; [|done]. intros _. by eapply lookup_lt_Some.
Qed.

Lemma dur_cell_Ok (tgl : list (list (list Event))) (i j : nat) (M M' : Matrix) :
  i ≠ j → dur_cell tgl i M j = Ok M' → well_shaped (S j) tgl = true.
Proof.
  intros Hne. unfold dur_cell.
  destruct (Nat.eqb_spec i j) as [?|_]; [done|]. cbn [negb]. intros H.
  destruct (for_each (dur_trace i j) ([], []) tgl) as [tt| |] eqn:Hfe; try done.
  unfold well_shaped. apply forallb_forall. intros tr Htr.
  apply list_elem_of_In in Htr.
  destruct (for_each_Ok_elem _ _ _ _ Hfe tr Htr) as (s1 & s2 & Hs).
  apply Nat.leb_le. apply dur_trace_Ok in Hs. lia.
Qed.

Lemma dur_matrix_Ok_shape {L : Type} (activities : list L)
    (tgl : list (list (list Event))) (timestamp_key : string) (M : Matrix) :
  get_duration_matrix activities tgl timestamp_key = Ok M →
  (2 ≤ length activities)%nat →
  well_shaped (length activities) tgl = true.
Proof.
  unfold get_duration_matrix. cbv zeta.
  set (n := length activities). intros HM Hn.
  destruct (for_each_Ok_elem _ _ _ _ HM O) as (M1 & M2 & Hrow).
  { apply elem_of_seq. lia. }
  cbn beta in Hrow.
  destruct (for_each_Ok_elem _ _ _ _ Hrow (n - 1)%nat) as (M3 & M4 & Hcell).
  { apply elem_of_seq. lia. }
  apply dur_cell_Ok in Hcell; [|lia]. by replace (S (n - 1)) with n in Hcell by lia.
Qed.

(** X6.  With two activities or more, a grouped trace that has fewer groups than
    there are activities makes both estimators raise [IndexError]. *)
Theorem estimators_raise_IndexError_on_short_trace {L : Type} (activities : list L)
    (tgl : list (list (list Event))) (timestamp_key : string) :
  (2 ≤ length activities)%nat →
  well_shaped (length activities) tgl = false →
  get_precede_succeed_matrix activities tgl timestamp_key = Raise IndexError
  ∧ get_duration_matrix activities tgl timestamp_key = Raise IndexError.
Proof.
  intros Hn Hws. split.
  - pose proof (ps_matrix_returns_or_IndexError activities tgl timestamp_key) as Hr.
    destruct (get_precede_succeed_matrix activities tgl timestamp_key)
      as [M|e|] eqn:HM; [|by destruct e|done].
    rewrite (ps_matrix_Ok_shape activities tgl timestamp_key M HM Hn) in Hws. done.
  - pose proof (dur_matrix_returns_or_IndexError activities tgl timestamp_key) as Hr.
    destruct (get_duration_matrix activities tgl timestamp_key)
      as [M|e|] eqn:HM; [|by destruct e|done].
    rewrite (dur_matrix_Ok_shape activities tgl timestamp_key M HM Hn) in Hws. done.
Qed.

Lemma estimators_raise_IndexError_on_short_trace_witness :
  ((2 ≤ length two_activities)%nat
   ∧ well_shaped (length two_activities) [ [ [at_time "A" 0 0] ] ] = false)
  ∧ get_precede_succeed_matrix two_activities [ [ [at_time "A" 0 0] ] ] "time:timestamp"
    = Raise IndexError
  ∧ get_duration_matrix two_activities [ [ [at_time "A" 0 0] ] ] "time:timestamp"
    = Raise IndexError.
Proof.
  split; [split; [cbn; lia | reflexivity]|].
  apply (estimators_raise_IndexError_on_short_trace two_activities
           [ [ [at_time "A" 0 0] ] ] "time:timestamp"); [cbn; lia | reflexivity].
Defined.

(** X7.  With fewer than two activities neither estimator reads the traces: both
    return the zero matrix, whatever the grouped log holds. *)
Theorem estimators_on_fewer_than_two_activities {L : Type} (activities : list L)
    (tgl : list (list (list Event))) (timestamp_key : string) :
  (length activities ≤ 1)%nat →
  get_precede_succeed_matrix activities tgl timestamp_key
  = Ok (np_zeros (length activities) (length activities))
  ∧ get_duration_matrix activities tgl timestamp_key
    = Ok (np_zeros (length activities) (length activities)).
Proof.
  intros Hn. destruct activities as [|a [|b activities]]; [done|done|cbn in Hn; lia].
Qed.

Lemma estimators_on_fewer_than_two_activities_witness :
  (length ["A"] ≤ 1)%nat
  ∧ get_precede_succeed_matrix ["A"] [ [] ] "time:timestamp" = Ok [[0%Q]]
  ∧ get_duration_matrix ["A"] [ [] ] "time:timestamp" = Ok [[0%Q]].
Proof.
  split; [cbn; lia|].
  apply (estimators_on_fewer_than_two_activities ["A"] [ [] ] "time:timestamp").
  cbn; lia.
Defined.

(** * Further properties of the duration matrix *)

Lemma fifo_step_gap (a : Q) (aj : list Q) :
  Forall (λ g, (0 < g)%Q) (fifo_step a aj).2
  ∧ (length (fifo_step a aj).2 ≤ (fifo_step a aj).1)%nat
  ∧ (length (fifo_step a aj).2 ≤ 1)%nat.
Proof.
  induction aj as [|b aj IH]; cbn [fifo_step]; [cbn; split; [done|lia]|].
  destruct (float_lt a b) eqn:Hab.
  - cbn. split; [|lia]. constructor; [|done].
    apply float_lt_spec in Hab. unfold Qminus. by rewrite <- Qlt_minus_iff.
  - destruct (fifo_step a aj) as [n gap]. cbn in *.
    destruct IH as (? & ? & ?). split; [done|]. lia.
Qed.

Lemma lifo_step_gap (b : Q) (ra : list Q) :
  Forall (λ g, (0 < g)%Q) (lifo_step b ra).2
  ∧ (length (lifo_step b ra).2 ≤ (lifo_step b ra).1)%nat
  ∧ (length (lifo_step b ra).2 ≤ 1)%nat.
Proof.
  induction ra as [|a ra IH]; cbn [lifo_step]; [cbn; split; [done|lia]|].
  destruct (float_lt a b) eqn:Hab.
  - cbn. split; [|lia]. constructor; [|done].
    apply float_lt_spec in Hab. unfold Qminus. by rewrite <- Qlt_minus_iff.
  - destruct (lifo_step b ra) as [n gap]. cbn in *.
    destruct IH as (? & ? & ?). split; [done|]. lia.
Qed.

Lemma fifo_scan_samples (ai aj : list Q) :
  Forall (λ g, (0 < g)%Q) (fifo_scan ai aj)
  ∧ (length (fifo_scan ai aj) ≤ length ai `min` length aj)%nat.
Proof.
  revert aj. induction ai as [|a ai IH]; intros aj; [cbn; split; [done|lia]|].
  cbn [fifo_scan].
  destruct (fifo_step_gap a aj) as (Hpos & Hn & H1).
  pose proof (fifo_step_le a aj) as Hle.
  destruct (fifo_step a aj) as [n gap]. cbn [fst snd] in *.
  destruct (IH (drop n aj)) as [Hpos' Hlen'].
  split; [by apply Forall_app|].
  rewrite length_app. rewrite length_drop in Hlen'. cbn [length]. lia.
Qed.

Lemma lifo_scan_samples (ra rb : list Q) :
  Forall (λ g, (0 < g)%Q) (lifo_scan ra rb)
  ∧ (length (lifo_scan ra rb) ≤ length ra `min` length rb)%nat.
Proof.
  revert ra. induction rb as [|b rb IH]; intros ra; [cbn; split; [done|lia]|].
  cbn [lifo_scan].
  destruct (lifo_step_gap b ra) as (Hpos & Hn & H1).
  pose proof (lifo_step_le b ra) as Hle.
  destruct (lifo_step b ra) as [n gap]. cbn [fst snd] in *.
  destruct (IH (drop n ra)) as [Hpos' Hlen'].
  split; [by apply Forall_app|].
  rewrite length_app. rewrite length_drop in Hlen'. cbn [length]. lia.
Qed.

(** X8.  The FIFO block is the greedy earliest match: for a trace whose occurrence
    lists are sorted and non-empty, the samples it appends are the gaps
    obtained by scanning [ai] in increasing time order and letting each
    i-occurrence consume the earliest not-yet-consumed j-occurrence whose
    timestamp is strictly greater. *)
Theorem fifo_samples_are_earliest_match (i j : nat) (tr : list (list Event))
    (times0 times1 : list Q) :
  (i < length tr)%nat → (j < length tr)%nat →
  truthy (occ tr i) = true → truthy (occ tr j) = true →
  nondecreasing (occ tr i) = true → nondecreasing (occ tr j) = true →
  ∃ times1',
    dur_trace i j (times0, times1) tr
    = Ok (times0 ++ fifo_match (occ tr i) (occ tr j), times1').
Proof.
  intros Hi Hj Hti Htj Hsi Hsj.
  rewrite (dur_trace_eq i j times0 times1 tr Hi Hj), Hti, Htj. cbn [andb].
  eexists. by rewrite (fifo_scan_match _ _ Hsi).
Qed.

Lemma fifo_samples_are_earliest_match_witness :
  ((0 < length trace_interleaved)%nat ∧ (1 < length trace_interleaved)%nat
   ∧ truthy (occ trace_interleaved 0) = true ∧ truthy (occ trace_interleaved 1) = true
   ∧ nondecreasing (occ trace_interleaved 0) = true
   ∧ nondecreasing (occ trace_interleaved 1) = true)
  ∧ ∃ times1',
      dur_trace 0 1 ([], []) trace_interleaved
      = Ok ([] ++ fifo_match (occ trace_interleaved 0) (occ trace_interleaved 1), times1').
Proof.
  split.
  - repeat split; (reflexivity || (cbn; lia)).
  - apply (fifo_samples_are_earliest_match 0 1 trace_interleaved [] []);
      (reflexivity || (cbn; lia)).
Defined.

Lemma matching_positive (ai aj samples : list Q) :
  is_matching ai aj samples → Forall (λ g, (0 < g)%Q) samples.
Proof.
  intros (used_i & used_j & _ & _ & Hlt & ->).
  induction Hlt as [|a b used_i used_j Hab _ IH]; [done|].
  cbn [zip_with]. constructor; [|done].
  apply float_lt_spec in Hab. unfold Qminus. by rewrite <- Qlt_minus_iff.
Qed.

Lemma matching_length (ai aj samples : list Q) :
  is_matching ai aj samples → (length samples ≤ length ai `min` length aj)%nat.
Proof.
  intros (used_i & used_j & Hi & Hj & Hlt & ->).
  apply sublist_length in Hi, Hj. apply Forall2_length in Hlt.
  rewrite length_zip_with. lia.
Qed.

(** The forward scan pairs each [a] with the occurrence it stops at. *)
Lemma fifo_scan_matching (ai aj : list Q) : is_matching ai aj (fifo_scan ai aj).
Proof.
  revert aj. induction ai as [|a ai IH]; intros aj.
  { exists [], []. repeat split; [apply sublist_nil_l.. | constructor]. }
  cbn [fifo_scan].
  destruct (fifo_step_split a aj)
    as (skipped & _ & [(-> & -> & _)|(b & rest & -> & Hb & -> & _)]).
  - rewrite drop_all, fifo_scan_nil.
    exists [], []. repeat split; [apply sublist_nil_l.. | constructor].
  - change (S (length skipped)) with (1 + length skipped)%nat.
    rewrite Nat.add_comm, <- drop_drop, drop_app_length. cbn [drop app].
    rewrite drop_0. destruct (IH rest) as (used_i & used_j & Hi & Hj & Hlt & ->).
    exists (a :: used_i), (b :: used_j). repeat split.
    + by apply sublist_skip.
    + by apply sublist_inserts_l, sublist_skip.
    + by constructor.
Qed.

(** The backward scan does the same on the two lists read latest first. *)
Lemma lifo_scan_matching (ai_back aj_back : list Q) :
  is_matching ai_back aj_back (lifo_scan ai_back aj_back).
Proof.
  rewrite lifo_scan_merge. revert aj_back.
  induction ai_back as [|a ai_back IH]; intros aj_back.
  { exists [], []. repeat split; [apply sublist_nil_l.. | constructor]. }
  destruct aj_back as [|b aj_back].
  { exists [], []. repeat split; [apply sublist_nil_l.. | constructor]. }
  cbn [lifo_merge]. destruct (float_lt a b) eqn:Hab.
  - destruct (IH aj_back) as (used_i & used_j & Hi & Hj & Hlt & ->).
    exists (a :: used_i), (b :: used_j).
    repeat split; [by apply sublist_skip.. | by constructor].
  - destruct (IH (b :: aj_back)) as (used_i & used_j & Hi & Hj & Hlt & ->).
    exists used_i, used_j. repeat split; [by apply sublist_cons | done..].
Qed.

(** X9.  Whatever the order of the timestamps, the samples one trace adds are
    the gaps of a matching: the FIFO block pairs occurrences of [ai] with
    occurrences of [aj], both taken in list order, and the LIFO block does so
    on the two lists read from their ends, so that no occurrence is used
    twice and every i-occurrence is strictly before its partner.  Hence the
    gaps are strictly positive and each of the two lists gets at most as
    many of them as the rarer of the two activities occurs. *)
Theorem duration_samples_positive_and_bounded (i j : nat) (tr : list (list Event))
    (times0 times1 : list Q) :
  (i < length tr)%nat → (j < length tr)%nat →
  ∃ fifo lifo,
    dur_trace i j (times0, times1) tr = Ok (times0 ++ fifo, times1 ++ lifo)
    ∧ is_matching (occ tr i) (occ tr j) fifo
    ∧ is_matching (reverse (occ tr i)) (reverse (occ tr j)) lifo
    ∧ Forall (λ g, (0 < g)%Q) fifo ∧ Forall (λ g, (0 < g)%Q) lifo
    ∧ (length fifo ≤ length (occ tr i) `min` length (occ tr j))%nat
    ∧ (length lifo ≤ length (occ tr i) `min` length (occ tr j))%nat.
Proof.
  intros Hi Hj. rewrite (dur_trace_eq i j times0 times1 tr Hi Hj).
  assert (∀ fifo lifo,
            is_matching (occ tr i) (occ tr j) fifo →
            is_matching (reverse (occ tr i)) (reverse (occ tr j)) lifo →
            is_matching (occ tr i) (occ tr j) fifo
            ∧ is_matching (reverse (occ tr i)) (reverse (occ tr j)) lifo
            ∧ Forall (λ g, (0 < g)%Q) fifo ∧ Forall (λ g, (0 < g)%Q) lifo
            ∧ (length fifo ≤ length (occ tr i) `min` length (occ tr j))%nat
            ∧ (length lifo ≤ length (occ tr i) `min` length (occ tr j))%nat) as Hall.
  { intros fifo lifo Hf Hl.
    pose proof (matching_length _ _ _ Hl) as Hll. rewrite !length_reverse in Hll.
    repeat split; [done | done | by eapply matching_positive..
                   | by apply matching_length | done]. }
  destruct (truthy (occ tr i) && truthy (occ tr j)).
  - exists (fifo_scan (occ tr i) (occ tr j)),
           (lifo_scan (reverse (occ tr i)) (reverse (occ tr j))).
    split; [done|]. apply Hall; [apply fifo_scan_matching | apply lifo_scan_matching].
  - exists [], []. rewrite !app_nil_r. split; [done|].
    apply Hall; exists [], []; repeat split; (apply sublist_nil_l || constructor).
Qed.

Lemma duration_samples_positive_and_bounded_witness :
  ((0 < length trace_interleaved)%nat ∧ (1 < length trace_interleaved)%nat)
  ∧ ∃ fifo lifo,
      dur_trace 0 1 ([], []) trace_interleaved = Ok ([] ++ fifo, [] ++ lifo)
      ∧ is_matching (occ trace_interleaved 0) (occ trace_interleaved 1) fifo
      ∧ is_matching (reverse (occ trace_interleaved 0)) (reverse (occ trace_interleaved 1)) lifo
      ∧ Forall (λ g, (0 < g)%Q) fifo ∧ Forall (λ g, (0 < g)%Q) lifo
      ∧ (length fifo ≤ length (occ trace_interleaved 0) `min` length (occ trace_interleaved 1))%nat
      ∧ (length lifo ≤ length (occ trace_interleaved 0) `min` length (occ trace_interleaved 1))%nat.
Proof.
  split; [split; cbn; lia|].
  apply (duration_samples_positive_and_bounded 0 1 trace_interleaved [] []); cbn; lia.
Defined.

Lemma Qsum_nonneg (l : list Q) : Forall (λ g, (0 < g)%Q) l → (0 <= Qsum l)%Q.
Proof.
  induction 1 as [|g l Hg _ IH]; [done|]. cbn.
  apply Qlt_le_weak in Hg. change (0 + 0 <= g + Qsum l)%Q. by apply Qplus_le_compat.
Qed.

Lemma mean_or_zero_nonneg (l : list Q) :
  Forall (λ g, (0 < g)%Q) l → (0 <= mean_or_zero l)%Q.
Proof.
  intros Hl. unfold mean_or_zero. destruct l as [|g l]; [done|]. cbn [truthy].
  unfold mean. apply Qle_shift_div_l.
  - rewrite len_cons. pose proof (len_nonneg l). unfold Qlt. cbn. lia.
  - rewrite Qmult_0_l. by apply Qsum_nonneg.
Qed.

Lemma py_min_nonneg (a b : Q) : (0 <= a)%Q → (0 <= b)%Q → (0 <= py_min a b)%Q.
Proof. intros Ha Hb. unfold py_min. by destruct (float_lt b a). Qed.

Lemma fifo_samples_positive (i j : nat) (tgl : list (list (list Event))) :
  Forall (λ g, (0 < g)%Q) (fifo_samples i j tgl).
Proof.
  unfold fifo_samples. induction tgl as [|tr tgl IH]; [done|].
  cbn [fmap list_fmap concat]. apply Forall_app. split; [|done].
  destruct (truthy (occ tr i) && truthy (occ tr j)); [|done].
  apply fifo_scan_samples.
Qed.

Lemma lifo_samples_positive (i j : nat) (tgl : list (list (list Event))) :
  Forall (λ g, (0 < g)%Q) (lifo_samples i j tgl).
Proof.
  unfold lifo_samples. induction tgl as [|tr tgl IH]; [done|].
  cbn [fmap list_fmap concat]. apply Forall_app. split; [|done].
  destruct (truthy (occ tr i) && truthy (occ tr j)); [|done].
  apply lifo_scan_samples.
Qed.

(** X10.  No cell of the duration matrix is negative. *)
Theorem duration_cells_nonnegative {L : Type} (activities : list L)
    (tgl : list (list (list Event))) (timestamp_key : string) :
  well_shaped (length activities) tgl = true →
  ∃ M, get_duration_matrix activities tgl timestamp_key = Ok M
       ∧ ∀ a b, (a < length activities)%nat → (b < length activities)%nat →
           ∃ x, cell M a b = Some x ∧ (0 <= x)%Q.
Proof.
  intros Hws.
  destruct (dur_matrix_entries activities tgl timestamp_key Hws) as (M & HM & Hcells & Hdiag).
  exists M. split; [done|]. intros a b Ha Hb.
  destruct (decide (a = b)) as [->|Hne].
  - exists 0%Q. split; [by apply Hdiag | done].
  - exists (dur_value tgl a b). split; [by apply Hcells|].
    apply py_min_nonneg; apply mean_or_zero_nonneg;
      [apply fifo_samples_positive | apply lifo_samples_positive].
Qed.

Lemma duration_cells_nonnegative_witness :
  well_shaped (length two_activities) grouped_reversed = true
  ∧ ∃ M, get_duration_matrix two_activities grouped_reversed "time:timestamp" = Ok M
         ∧ ∀ a b, (a < length two_activities)%nat → (b < length two_activities)%nat →
             ∃ x, cell M a b = Some x ∧ (0 <= x)%Q.
Proof.
  split; [reflexivity|].
  apply (duration_cells_nonnegative two_activities grouped_reversed "time:timestamp").
  reflexivity.
Defined.

Lemma fifo_scan_never_before (ai aj : list Q) :
  Forall (λ a, Forall (λ b, float_lt a b = false) aj) ai → fifo_scan ai aj = [].
Proof.
  intros H. destruct H as [|a ai Ha _]; [done|].
  cbn [fifo_scan].
  assert (fifo_step a aj = (length aj, [])) as ->.
  { induction Ha as [|b aj Hb _ IH]; [done|]. cbn. by rewrite Hb, IH. }
  by rewrite drop_all, fifo_scan_nil.
Qed.

Lemma lifo_scan_never_before (ra rb : list Q) :
  Forall (λ a, Forall (λ b, float_lt a b = false) rb) ra → lifo_scan ra rb = [].
Proof.
  intros H. destruct rb as [|b rb]; [done|].
  cbn [lifo_scan].
  assert (lifo_step b ra = (length ra, [])) as ->.
  { induction H as [|a ra Ha _ IH]; [done|]. cbn.
    inversion Ha as [|? ? Hab _]; subst. by rewrite Hab, IH. }
  by rewrite drop_all, lifo_scan_nil.
Qed.

Lemma samples_never_before (i j : nat) (tgl : list (list (list Event))) :
  never_before i j tgl = true →
  fifo_samples i j tgl = [] ∧ lifo_samples i j tgl = [].
Proof.
  induction tgl as [|tr tgl IH]; [done|].
  unfold never_before. cbn [forallb]. rewrite andb_true_iff. intros [Htr Htgl].
  destruct (IH Htgl) as [Hf Hl]. apply never_before_Forall in Htr.
  unfold fifo_samples, lifo_samples. cbn [fmap list_fmap concat].
  fold (fifo_samples i j tgl). fold (lifo_samples i j tgl). rewrite Hf, Hl.
  destruct (truthy (occ tr i) && truthy (occ tr j)); [|done].
  rewrite (fifo_scan_never_before _ _ Htr). rewrite lifo_scan_never_before; [done|].
  apply Forall_reverse. eapply Forall_impl; [exact Htr|].
  intros a Ha. by apply Forall_reverse.
Qed.

(** X11.  When in no trace an occurrence of [i] is strictly before an occurrence of
    [j] (in particular when the two never share a trace), both sample lists
    stay empty and [Duration[i][j]] is 0. *)
Theorem duration_zero_without_precedence {L : Type} (activities : list L)
    (tgl : list (list (list Event))) (timestamp_key : string) (i j : nat) :
  (i < length activities)%nat → (j < length activities)%nat → i ≠ j →
  well_shaped (length activities) tgl = true →
  never_before i j tgl = true →
  ∃ M, get_duration_matrix activities tgl timestamp_key = Ok M
       ∧ for_each (dur_trace i j) ([], []) tgl = Ok ([], [])
       ∧ cell M i j = Some 0%Q.
Proof.
  intros Hi Hj Hne Hws Hnever.
  destruct (dur_matrix_entries activities tgl timestamp_key Hws) as (M & HM & Hcells & _).
  destruct (samples_never_before _ _ _ Hnever) as [Hf Hl].
  exists M. split; [done|]. split.
  - by rewrite (dur_fold_eq (length activities)), Hf, Hl.
  - rewrite (Hcells i j Hi Hj Hne). unfold dur_value. by rewrite Hf, Hl.
Qed.

Lemma duration_zero_without_precedence_witness :
  ((0 < length two_activities)%nat ∧ (1 < length two_activities)%nat ∧ 0%nat ≠ 1%nat
   ∧ well_shaped (length two_activities) grouped_reversed = true
   ∧ never_before 0 1 grouped_reversed = true)
  ∧ ∃ M, get_duration_matrix two_activities grouped_reversed "time:timestamp" = Ok M
         ∧ for_each (dur_trace 0 1) ([], []) grouped_reversed = Ok ([], [])
         ∧ cell M 0 1 = Some 0%Q.
Proof.
  split.
  - repeat split; (reflexivity || discriminate || (cbn; lia)).
  - apply (duration_zero_without_precedence two_activities grouped_reversed
             "time:timestamp" 0 1);
      (reflexivity || discriminate || (cbn; lia)).
Defined.

(** * Further properties of the entry points *)

Lemma key_sorted_cons (x : Event) (l : list Event) :
  key_sorted (x :: l) = true →
  Forall (λ y, (ev_timestamp x <= ev_timestamp y)%Q) l ∧ key_sorted l = true.
Proof.
  cbn [key_sorted]. rewrite andb_true_iff, forallb_forall. intros [Hx Hl].
  split; [|done]. apply Forall_forall. intros y Hy.
  apply list_elem_of_In in Hy. specialize (Hx y Hy).
  apply negb_true_iff in Hx. unfold key_ltb in Hx.
  apply orb_false_iff in Hx as [Hlt _]. by apply float_lt_false.
Qed.

(** The events of one activity, taken from a trace sorted by (timestamp,
    index), have non-decreasing timestamps. *)
Lemma filter_key_sorted (f : Event → bool) (trace : list Event) :
  key_sorted trace = true →
  nondecreasing (ev_timestamp <$> List.filter f trace) = true.
Proof.
  induction trace as [|x trace IH]; intros Hs; [done|].
  destruct (key_sorted_cons _ _ Hs) as [Hx Htrace].
  cbn [List.filter]. destruct (f x); [|by apply IH].
  cbn [fmap list_fmap]. apply nondecreasing_intro; [|by apply IH].
  apply Forall_fmap. apply Forall_forall. intros y Hy.
  apply list_elem_of_In, filter_In in Hy as [Hy _].
  rewrite Forall_forall in Hx. apply Hx. by apply list_elem_of_In.
Qed.

Lemma group_by_activity_shape (activities : list attr) (traces_list : list (list Event)) :
  well_shaped (length activities) (group_by_activity activities traces_list) = true.
Proof.
  unfold well_shaped, group_by_activity. apply forallb_forall. intros tr Htr.
  apply list_elem_of_In, list_elem_of_fmap in Htr as (trace & -> & _).
  rewrite length_fmap. by apply Nat.leb_le.
Qed.

Lemma group_by_activity_sorted (activities : list attr) (traces_list : list (list Event))
    (i j : nat) :
  Forall (λ trace, key_sorted trace = true) traces_list →
  sorted_occurrences i j (group_by_activity activities traces_list) = true.
Proof.
  intros Hs. unfold sorted_occurrences, group_by_activity.
  apply forallb_forall. intros tr Htr.
  apply list_elem_of_In, list_elem_of_fmap in Htr as (trace & -> & Htrace).
  rewrite Forall_forall in Hs. specialize (Hs trace Htrace).
  assert (∀ k, nondecreasing
                 (occ ((λ act, List.filter (λ x, attr_eqb (ev_activity x) act) trace)
                         <$> activities) k) = true) as Hk.
  { intros k. unfold occ. rewrite list_lookup_fmap.
    destruct (activities !! k) as [act|]; [|done]. cbn. by apply filter_key_sorted. }
  by rewrite !Hk.
Qed.

Lemma apply_from_loads :
  load_names apply_locals ["sorted"; "list"] = Ok ()
  ∧ load_names apply_locals
      ["get_precede_succeed_matrix"; "get_duration_matrix"; "cm_util"] = Ok ().
Proof. split; by vm_compute. Qed.

Section Pipeline.

Context (DataFrame : Type)
  (select_columns : DataFrame → list string → result DataFrame)
  (get_param_value : Parameters → gmap string string → string → string)
  (DEFAULT_NAME_KEY DEFAULT_TIMESTAMP_KEY DEFAULT_TRACEID_KEY : string)
  (converter_apply : log_obj DataFrame → gmap string string
                     → result (list (list RawEvent)))
  (get_c_matrix : Matrix → Matrix → list attr → list (attr * Z) → result Matrix)
  (resolve_LP : Matrix → Matrix → list attr → list (attr * Z) → result (DFG * DFG)).

(** X12.  Lines 50-61 compose: once the activity labels are sorted, the grouping of
    lines 52-58 gives every trace one group per activity, so both estimators
    return on it and only the two [cm_util] calls remain; and when the
    traces are sorted by (timestamp, index), as [preprocess_log] builds
    them, every occurrence list handed to the estimators is sorted. *)
Theorem apply_grouping_feeds_estimators (activity_key timestamp_key : string)
    (traces_list : list (list Event)) (activities : list attr) :
  py_sorted attr_lt ((Counter (x ← traces_list; y ← x; [ev_activity y])).*1)
  = Ok activities →
  well_shaped (length activities) (group_by_activity activities traces_list) = true
  ∧ (Forall (λ trace, key_sorted trace = true) traces_list →
     ∀ i j, sorted_occurrences i j (group_by_activity activities traces_list) = true)
  ∧ ∃ PS_matrix duration_matrix,
      get_precede_succeed_matrix activities
        (group_by_activity activities traces_list) timestamp_key = Ok PS_matrix
      ∧ get_duration_matrix activities
          (group_by_activity activities traces_list) timestamp_key = Ok duration_matrix
      ∧ apply_from get_c_matrix resolve_LP activity_key timestamp_key traces_list
        = (C_matrix ← get_c_matrix PS_matrix duration_matrix activities
                         (Counter (x ← traces_list; y ← x; [ev_activity y]));
           resolve_LP C_matrix duration_matrix activities
             (Counter (x ← traces_list; y ← x; [ev_activity y]))
           ≫= λ '(dfg, performance_dfg), Ok (dfg, performance_dfg)).
Proof.
  intros Hsort.
  pose proof (group_by_activity_shape activities traces_list) as Hws.
  split; [done|]. split; [intros Hs i j; by apply group_by_activity_sorted|].
  destruct (ps_matrix_entries activities _ timestamp_key Hws) as (PS & HPS & _).
  destruct (dur_matrix_entries activities _ timestamp_key Hws) as (D & HD & _).
  exists PS, D. split; [done|]. split; [done|].
  unfold apply_from. destruct apply_from_loads as [-> ->].
  cbn [mbind result_bind]. rewrite Hsort. cbn [mbind result_bind].
  fold (group_by_activity activities traces_list).
  rewrite HPS. cbn [mbind result_bind]. rewrite HD. done.
Qed.

End Pipeline.

Lemma apply_grouping_feeds_estimators_witness :
  py_sorted attr_lt
    ((Counter (x ← [[at_time "B" 1 0; at_time "A" 2 1]]; y ← x; [ev_activity y])).*1)
  = Ok [AStr "A"; AStr "B"]
  ∧ well_shaped 2
      (group_by_activity [AStr "A"; AStr "B"] [[at_time "B" 1 0; at_time "A" 2 1]]) = true.
Proof.
  split; [by vm_compute|].
  apply (apply_grouping_feeds_estimators (λ _ _ _ _, Ok []) (λ _ _ _ _, Ok ([], []))
           "concept:name" "time:timestamp" [[at_time "B" 1 0; at_time "A" 2 1]]
           [AStr "A"; AStr "B"]).
  by vm_compute.
Defined.

(** ** The events [preprocess_log] reads *)

Lemma readable_event_read (activity_key timestamp_key : string) (e : RawEvent) :
  readable_event activity_key timestamp_key e = true →
  ∃ a t, event_item e activity_key = Ok a
         ∧ (event_item e timestamp_key ≫= timestamp_of) = Ok t
         ∧ ∀ i, triple_of activity_key timestamp_key i e
                = Some (mkEvent a t (Z.of_nat i)).
Proof.
  unfold readable_event, event_item, triple_of.
  destruct (e !! activity_key) as [a|]; [|done].
  destruct (e !! timestamp_key) as [[s|t]|]; [done| |done].
  intros _. by exists a, t.
Qed.

Lemma unreadable_event_raises (activity_key timestamp_key : string) (e : RawEvent)
    {B : Type} (rest : attr → Q → result B) :
  readable_event activity_key timestamp_key e = false →
  (a ← event_item e activity_key;
   t ← event_item e timestamp_key;
   t ← timestamp_of t;
   rest a t)
  = Raise (event_error activity_key timestamp_key e).
Proof.
  unfold readable_event, event_error, event_item.
  destruct (e !! activity_key) as [a|]; [|done].
  destruct (e !! timestamp_key) as [[s|t]|]; done.
Qed.

(** The loop of line 86 over the events from position [length read] on. *)
Lemma read_events_good (activity_key timestamp_key index_key : string)
    (read rest : list RawEvent) :
  Forall (λ e, readable_event activity_key timestamp_key e = true) rest →
  ∀ acc,
    for_each
      (λ acc i,
         e ← py_item (read ++ rest) i;
         a ← event_item e activity_key;
         t ← event_item e timestamp_key;
         t ← timestamp_of t;
         Ok (acc ++ [stream_event activity_key timestamp_key index_key a t (Z.of_nat i)]))
      acc (seq (length read) (length rest))
    = Ok (acc ++ (event_dict activity_key timestamp_key index_key
                    <$> triples_from activity_key timestamp_key (length read) rest)).
Proof.
  revert read. induction rest as [|e rest IH]; intros read Hgood acc.
  { cbn. by rewrite app_nil_r. }
  inversion Hgood as [|? ? He Hrest]; subst.
  destruct (readable_event_read _ _ _ He) as (a & t & Ha & Ht & Htriple).
  cbn [length seq for_each triples_from]. rewrite Htriple, py_item_middle.
  cbn [mbind result_bind]. rewrite Ha. cbn [mbind result_bind].
  unfold event_item in Ht |- *. destruct (e !! timestamp_key) as [v|]; [|done].
  cbn [mbind result_bind] in Ht |- *. rewrite Ht. cbn [mbind result_bind].
  specialize (IH (read ++ [e]) Hrest
                (acc ++ [stream_event activity_key timestamp_key index_key a t
                           (Z.of_nat (length read))])).
  rewrite length_app, <- !app_assoc in IH. cbn [length app] in IH.
  rewrite Nat.add_1_r in IH. exact IH.
Qed.

Lemma read_events_bad (activity_key timestamp_key index_key : string)
    (read good : list RawEvent) (bad : RawEvent) (rest : list RawEvent) :
  Forall (λ e, readable_event activity_key timestamp_key e = true) good →
  readable_event activity_key timestamp_key bad = false →
  ∀ acc,
    for_each
      (λ acc i,
         e ← py_item (read ++ good ++ bad :: rest) i;
         a ← event_item e activity_key;
         t ← event_item e timestamp_key;
         t ← timestamp_of t;
         Ok (acc ++ [stream_event activity_key timestamp_key index_key a t (Z.of_nat i)]))
      acc (seq (length read) (length (good ++ bad :: rest)))
    = Raise (event_error activity_key timestamp_key bad).
Proof.
  revert read. induction good as [|e good IH]; intros read Hgood Hbad acc.
  - cbn [app length seq for_each]. rewrite py_item_middle. cbn [mbind result_bind].
    by rewrite (unreadable_event_raises _ _ _ _ Hbad).
  - inversion Hgood as [|? ? He Hrest]; subst.
    destruct (readable_event_read _ _ _ He) as (a & t & Ha & Ht & _).
    cbn [app length seq for_each]. rewrite py_item_middle. cbn [mbind result_bind].
    rewrite Ha. cbn [mbind result_bind].
    unfold event_item in Ht |- *. destruct (e !! timestamp_key) as [v|]; [|done].
    cbn [mbind result_bind] in Ht |- *. rewrite Ht. cbn [mbind result_bind].
    specialize (IH (read ++ [e]) Hrest Hbad
                  (acc ++ [stream_event activity_key timestamp_key index_key a t
                             (Z.of_nat (length read))])).
    rewrite length_app, <- app_assoc in IH. cbn [length app] in IH.
    by rewrite Nat.add_1_r in IH.
Qed.

Lemma trace_stream_of_good (activity_key timestamp_key index_key : string)
    (trace : list RawEvent) :
  Forall (λ e, readable_event activity_key timestamp_key e = true) trace →
  ∃ stream, trace_stream_of activity_key timestamp_key index_key trace = Ok stream.
Proof.
  intros Hgood. destruct preprocess_log_loads as (_ & _ & _ & L4 & L5).
  unfold trace_stream_of. rewrite L4. cbn [mbind result_bind].
  pose proof (read_events_good activity_key timestamp_key index_key [] trace Hgood [])
    as Hs.
  cbn [app length] in Hs. rewrite Hs. cbn [mbind result_bind]. rewrite L5.
  cbn [mbind result_bind].
  destruct (sort_stream activity_key timestamp_key index_key
              (triples_from activity_key timestamp_key 0 trace)) as (sorted & -> & _).
  by eexists.
Qed.

Lemma trace_stream_of_bad (activity_key timestamp_key index_key : string)
    (good : list RawEvent) (bad : RawEvent) (rest : list RawEvent) :
  Forall (λ e, readable_event activity_key timestamp_key e = true) good →
  readable_event activity_key timestamp_key bad = false →
  trace_stream_of activity_key timestamp_key index_key (good ++ bad :: rest)
  = Raise (event_error activity_key timestamp_key bad).
Proof.
  intros Hgood Hbad. destruct preprocess_log_loads as (_ & _ & _ & L4 & _).
  unfold trace_stream_of. rewrite L4. cbn [mbind result_bind].
  pose proof (read_events_bad activity_key timestamp_key index_key [] good bad rest
                Hgood Hbad []) as Hs.
  cbn [app length] in Hs. by rewrite Hs.
Qed.

Section Validation.

Context (DataFrame : Type)
  (select_columns : DataFrame → list string → result DataFrame)
  (get_param_value : Parameters → gmap string string → string → string)
  (DEFAULT_NAME_KEY DEFAULT_TIMESTAMP_KEY DEFAULT_TRACEID_KEY : string)
  (converter_apply : log_obj DataFrame → gmap string string
                     → result (list (list RawEvent))).

(** X13.  [preprocess_log] reads every event of the converted log: it returns
    [None] when each event has the activity attribute and a [datetime] under
    the timestamp attribute, and otherwise the first event it cannot read
    decides the exception, [KeyError] for a missing attribute and
    [AttributeError] for a timestamp that is not a [datetime]. *)
Theorem preprocess_log_checks_events (raw : list (list RawEvent))
    (parameters : option (gmap string string)) (traces : list (list RawEvent)) :
  converter_apply (LogEventLog raw) (default ∅ parameters) = Ok traces →
  let activity_key := get_param_value ACTIVITY_KEY (default ∅ parameters) DEFAULT_NAME_KEY in
  let timestamp_key :=
    get_param_value TIMESTAMP_KEY (default ∅ parameters) DEFAULT_TIMESTAMP_KEY in
  (Forall (Forall (λ e, readable_event activity_key timestamp_key e = true)) traces →
   preprocess_log DataFrame select_columns get_param_value
     DEFAULT_NAME_KEY DEFAULT_TIMESTAMP_KEY DEFAULT_TRACEID_KEY converter_apply
     (LogEventLog raw) parameters = Ok ObjNone)
  ∧ (∀ before good bad rest after,
       traces = before ++ (good ++ bad :: rest) :: after →
       Forall (Forall (λ e, readable_event activity_key timestamp_key e = true)) before →
       Forall (λ e, readable_event activity_key timestamp_key e = true) good →
       readable_event activity_key timestamp_key bad = false →
       preprocess_log DataFrame select_columns get_param_value
         DEFAULT_NAME_KEY DEFAULT_TIMESTAMP_KEY DEFAULT_TRACEID_KEY converter_apply
         (LogEventLog raw) parameters
       = Raise (event_error activity_key timestamp_key bad)).
Proof.
  intros Hconv activity_key timestamp_key.
  destruct preprocess_log_loads as (L1 & L2 & L3 & _ & _).
  set (index_key := get_param_value INDEX_KEY (default ∅ parameters) DEFAULT_INDEX_KEY).
  assert (∀ before acc,
            Forall (Forall (λ e, readable_event activity_key timestamp_key e = true)) before →
            ∃ acc',
              ∀ later,
                for_each (S := list (list StreamEvent))
                  (λ traces_list trace,
                     trace_stream ← trace_stream_of activity_key timestamp_key index_key trace;
                     Ok (traces_list ++ [trace_stream]))
                  acc (before ++ later)
                = for_each
                    (λ traces_list trace,
                       trace_stream ← trace_stream_of activity_key timestamp_key index_key trace;
                       Ok (traces_list ++ [trace_stream]))
                    acc' later) as Hprefix.
  { induction before as [|trace before IH]; intros acc Hgood; [by exists acc|].
    inversion Hgood as [|? ? Htrace Hbefore]; subst.
    destruct (trace_stream_of_good _ _ index_key _ Htrace) as [stream Hs].
    destruct (IH (acc ++ [stream]) Hbefore) as [acc' Hacc'].
    exists acc'. intros later. cbn [app for_each]. rewrite Hs.
    cbn [mbind result_bind]. apply Hacc'. }
  unfold preprocess_log, preprocess_log_traces_list. cbv zeta.
  rewrite L1. cbn [mbind result_bind]. rewrite L2. cbn [mbind result_bind select_log].
  rewrite L3. cbn [mbind result_bind]. rewrite Hconv. cbn [mbind result_bind].
  fold activity_key. fold timestamp_key. fold index_key. split.
  - intros Hgood. destruct (Hprefix traces [] Hgood) as [acc' Hacc'].
    specialize (Hacc' []). rewrite app_nil_r in Hacc'. by rewrite Hacc'.
  - intros before good bad rest after -> Hbefore Hgood Hbad.
    destruct (Hprefix before [] Hbefore) as [acc' Hacc'].
    rewrite Hacc'. cbn [for_each].
    by rewrite (trace_stream_of_bad _ _ _ _ _ _ Hgood Hbad).
Qed.

End Validation.

Lemma preprocess_log_checks_events_witness :
  convert_event_log (LogEventLog [[raw_event "A" 0; event_without_activity]]) ∅
  = Ok [[raw_event "A" 0; event_without_activity]]
  ∧ sample_preprocess_log (LogEventLog [[raw_event "A" 0; event_without_activity]]) None
    = Raise (KeyError "concept:name")
  ∧ sample_preprocess_log (LogEventLog [[raw_event "A" 0; event_with_text_time]]) None
    = Raise AttributeError.
Proof.
  split; [reflexivity|]. split.
  - apply (proj2 (preprocess_log_checks_events unit (λ df _, Ok df) default_param_value
                    "concept:name" "time:timestamp" "concept:name" convert_event_log
                    [[raw_event "A" 0; event_without_activity]] None
                    [[raw_event "A" 0; event_without_activity]] eq_refl)
             [] [raw_event "A" 0] event_without_activity [] []);
      [reflexivity | constructor | repeat constructor | by vm_compute].
  - by vm_compute.
Defined.

(** * performance_map.py: durations as text, and the extremes of the statistics *)

(** X14.  A non-negative duration is shown in its largest unit that is not zero,
    as the whole number of such units: days from 86400 seconds on, hours
    from 3600, minutes from 60, seconds below; the fraction of a second is
    dropped first. *)
Theorem human_readable_stat_largest_unit (c : Q) :
  0 <= py_int c →
  human_readable_stat c
  = if 86400 <=? py_int c then String.append (py_str (py_int c / 86400)) "D"
    else if 3600 <=? py_int c then String.append (py_str (py_int c / 3600)) "h"
    else if 60 <=? py_int c then String.append (py_str (py_int c / 60)) "m"
    else String.append (py_str (py_int c)) "s".
Proof.
  intros Hc. unfold human_readable_stat. cbv zeta. set (n := py_int c) in *.
  destruct (Z.leb_spec 86400 n) as [Hd|Hd].
  - assert (0 < n / 86400) as Hpos by (apply Z.div_str_pos; lia).
    by destruct (Z.ltb_spec 0 (n / 86400)); [|lia].
  - assert (n / 86400 = 0) as -> by (apply Z.div_small; lia). cbn [Z.ltb Z.compare].
    destruct (Z.leb_spec 3600 n) as [Hh|Hh].
    + assert (0 < n / 3600) as Hpos by (apply Z.div_str_pos; lia).
      assert (n / 3600 < 24) as Hlt by (apply Z.div_lt_upper_bound; lia).
      rewrite (Z.mod_small (n / 3600) 24) by lia.
      by destruct (Z.ltb_spec 0 (n / 3600)); [|lia].
    + assert (n / 3600 = 0) as -> by (apply Z.div_small; lia). cbn [Z.modulo Z.div_eucl Z.ltb Z.compare].
      destruct (Z.leb_spec 60 n) as [Hm|Hm].
      * assert (0 < n / 60) as Hpos by (apply Z.div_str_pos; lia).
        assert (n / 60 < 60) as Hlt by (apply Z.div_lt_upper_bound; lia).
        rewrite (Z.mod_small (n / 60) 60) by lia.
        by destruct (Z.ltb_spec 0 (n / 60)); [|lia].
      * assert (n / 60 = 0) as -> by (apply Z.div_small; lia).
        cbn [Z.modulo Z.div_eucl Z.ltb Z.compare].
        by rewrite (Z.mod_small n 60) by lia.
Qed.

Lemma human_readable_stat_largest_unit_witness :
  0 <= py_int (7325 # 2)
  ∧ human_readable_stat (7325 # 2) = "1h"%string.
Proof.
  split; [by vm_compute|].
  rewrite (human_readable_stat_largest_unit (7325 # 2)); by vm_compute.
Defined.

(** X15.  Whatever the duration, negative ones included, the number shown is never
    negative and stays within its unit: at least one day, 1 to 23 hours, 1 to
    59 minutes or 0 to 59 seconds; a negative duration is never shown in
    days. *)
Theorem human_readable_stat_number_in_range (c : Q) :
  ∃ k unit,
    human_readable_stat c = String.append (py_str k) unit
    ∧ ((unit = "D"%string ∧ 1 <= k ∧ 0 <= py_int c)
       ∨ (unit = "h"%string ∧ 1 <= k <= 23)
       ∨ (unit = "m"%string ∧ 1 <= k <= 59)
       ∨ (unit = "s"%string ∧ 0 <= k <= 59)).
Proof.
  unfold human_readable_stat. cbv zeta. set (n := py_int c).
  pose proof (Z.mod_pos_bound (n / 3600) 24 eq_refl).
  pose proof (Z.mod_pos_bound (n / 60) 60 eq_refl).
  pose proof (Z.mod_pos_bound n 60 eq_refl).
  destruct (Z.ltb_spec 0 (n / 86400)) as [Hd|Hd].
  { exists (n / 86400), "D"%string. split; [done|]. left.
    split; [done|]. split; [lia|].
    destruct (Z.le_gt_cases 0 n) as [|Hneg]; [done|].
    pose proof (Z.div_lt_upper_bound n 86400 0 eq_refl). lia. }
  destruct (Z.ltb_spec 0 ((n / 3600) mod 24)) as [Hh|Hh].
  { exists ((n / 3600) mod 24), "h"%string. split; [done|]. right. left. split; [done|lia]. }
  destruct (Z.ltb_spec 0 ((n / 60) mod 60)) as [Hm|Hm].
  { exists ((n / 60) mod 60), "m"%string. split; [done|]. right. right. left.
    split; [done|lia]. }
  exists (n mod 60), "s"%string. split; [done|]. right. right. right. split; [done|lia].
Qed.

Lemma update_extremes_bounds (values : list Z) :
  ∀ mn mx,
    let r := foldl (λ '(mn, mx) v, (if v <? mn then v else mn, if mx <? v then v else mx))
               (mn, mx) values in
    r.1 <= mn ∧ mx <= r.2 ∧ Forall (λ v, r.1 <= v <= r.2) values.
Proof.
  induction values as [|v values IH]; intros mn mx; cbn [foldl]; [cbn; split; [lia|done]|].
  specialize (IH (if v <? mn then v else mn) (if mx <? v then v else mx)).
  cbv zeta in IH |- *.
  destruct (foldl _ _ values) as [lo hi]. cbn [fst snd] in *.
  destruct IH as (Hlo & Hhi & Hall).
  destruct (Z.ltb_spec v mn), (Z.ltb_spec mx v);
    (split; [lia|]; split; [lia|]; constructor; [lia|done]).
Qed.

Lemma trans_frequency_as_fold (statistics : statistics_dict) :
  ∀ mn mx,
    foldl
      (λ '(min_frequency, max_frequency) '(elem, st),
         match elem with
         | Transition _ _ =>
             (if st_count st <? min_frequency then st_count st else min_frequency,
              if max_frequency <? st_count st then st_count st else max_frequency)
         | _ => (min_frequency, max_frequency)
         end)
      (mn, mx) statistics
    = foldl (λ '(mn, mx) v, (if v <? mn then v else mn, if mx <? v then v else mx))
        (mn, mx)
        (omap (λ '(elem, st), match elem with Transition _ _ => Some (st_count st)
                                            | _ => None end) statistics).
Proof.
  induction statistics as [|[elem st] statistics IH]; intros mn mx; [done|].
  cbn [foldl omap list_omap]. destruct elem; cbn; by rewrite IH.
Qed.

Lemma arc_frequency_as_fold (statistics : statistics_dict) :
  ∀ mn mx,
    foldl
      (λ '(min_frequency, max_frequency) '(elem, st),
         match elem with
         | Arc _ _ =>
             (if st_count st <? min_frequency then st_count st else min_frequency,
              if max_frequency <? st_count st then st_count st else max_frequency)
         | _ => (min_frequency, max_frequency)
         end)
      (mn, mx) statistics
    = foldl (λ '(mn, mx) v, (if v <? mn then v else mn, if mx <? v then v else mx))
        (mn, mx)
        (omap (λ '(elem, st), match elem with Arc _ _ => Some (st_count st)
                                            | _ => None end) statistics).
Proof.
  induction statistics as [|[elem st] statistics IH]; intros mn mx; [done|].
  cbn [foldl omap list_omap]. destruct elem; cbn; by rewrite IH.
Qed.

(** X16.  The two frequency extremes bracket every count they are taken over: the
    count of each transition lies between the minimum and the maximum of
    [find_min_max_trans_frequency], the count of each arc between those of
    [find_min_max_arc_frequency]; the minimum never exceeds its initial
    9999999999 and the maximum is never below 0, so that without any
    transition, or arc, the pair is [(9999999999, 0)]. *)
Theorem frequency_extremes_bracket_counts (statistics : statistics_dict) :
  (let '(mn, mx) := find_min_max_trans_frequency statistics in
   mn <= 9999999999 ∧ 0 <= mx
   ∧ ∀ name label st, (Transition name label, st) ∈ statistics → mn <= st_count st <= mx)
  ∧ (let '(mn, mx) := find_min_max_arc_frequency statistics in
     mn <= 9999999999 ∧ 0 <= mx
     ∧ ∀ source target st, (Arc source target, st) ∈ statistics → mn <= st_count st <= mx)
  ∧ ((∀ name label st, (Transition name label, st) ∉ statistics) →
     find_min_max_trans_frequency statistics = (9999999999, 0))
  ∧ ((∀ source target st, (Arc source target, st) ∉ statistics) →
     find_min_max_arc_frequency statistics = (9999999999, 0)).
Proof.
  split; [|split; [|split]].
  - unfold find_min_max_trans_frequency. rewrite trans_frequency_as_fold.
    pose proof (update_extremes_bounds
                  (omap (λ '(elem, st), match elem with Transition _ _ => Some (st_count st)
                                                      | _ => None end) statistics)
                  9999999999 0) as H.
    cbv zeta in H. destruct (foldl _ _ _) as [mn mx]. cbn [fst snd] in H.
    destruct H as (Hmn & Hmx & Hall). split; [done|]. split; [done|].
    intros name label st Hin. rewrite Forall_forall in Hall. apply Hall.
    apply list_elem_of_omap. by exists (Transition name label, st).
  - unfold find_min_max_arc_frequency. rewrite arc_frequency_as_fold.
    pose proof (update_extremes_bounds
                  (omap (λ '(elem, st), match elem with Arc _ _ => Some (st_count st)
                                                      | _ => None end) statistics)
                  9999999999 0) as H.
    cbv zeta in H. destruct (foldl _ _ _) as [mn mx]. cbn [fst snd] in H.
    destruct H as (Hmn & Hmx & Hall). split; [done|]. split; [done|].
    intros source target st Hin. rewrite Forall_forall in Hall. apply Hall.
    apply list_elem_of_omap. by exists (Arc source target, st).
  - intros Hnone. unfold find_min_max_trans_frequency. rewrite trans_frequency_as_fold.
    assert (omap (λ '(elem, st), match elem with Transition _ _ => Some (st_count st)
                                               | _ => None end) statistics = []) as ->; [|done].
    induction statistics as [|[elem st] statistics IH]; [done|].
    cbn [omap list_omap]. destruct elem as [name|name label|source target].
    + cbn. apply IH. intros n l s Hin. apply (Hnone n l s). by right.
    + exfalso. apply (Hnone name label st). by left.
    + cbn. apply IH. intros n l s Hin. apply (Hnone n l s). by right.
  - intros Hnone. unfold find_min_max_arc_frequency. rewrite arc_frequency_as_fold.
    assert (omap (λ '(elem, st), match elem with Arc _ _ => Some (st_count st)
                                               | _ => None end) statistics = []) as ->; [|done].
    induction statistics as [|[elem st] statistics IH]; [done|].
    cbn [omap list_omap]. destruct elem as [name|name label|source target].
    + cbn. apply IH. intros n l s Hin. apply (Hnone n l s). by right.
    + cbn. apply IH. intros n l s Hin. apply (Hnone n l s). by right.
    + exfalso. apply (Hnone source target st). by left.
Qed.

Lemma frequency_extremes_bracket_counts_witness :
  find_min_max_trans_frequency sample_statistics = (3, 5)
  ∧ find_min_max_arc_frequency sample_statistics = (4, 5)
  ∧ (∀ name label st, (Transition name label, st) ∈ sample_statistics →
       3 <= st_count st <= 5).
Proof.
  split; [reflexivity|]. split; [reflexivity|].
  exact (proj2 (proj2 (proj1 (frequency_extremes_bracket_counts sample_statistics)))).
Defined.

Lemma update_extremes_bounds_Q (values : list Q) :
  ∀ mn mx,
    let r := foldl (λ '(mn, mx) v,
                      (if float_lt v mn then v else mn, if float_lt mx v then v else mx))
               (mn, mx) values in
    (r.1 <= mn)%Q ∧ (mx <= r.2)%Q ∧ Forall (λ v, (r.1 <= v)%Q ∧ (v <= r.2)%Q) values.
Proof.
  induction values as [|v values IH]; intros mn mx; cbn [foldl].
  { cbn. split; [apply Qle_refl|]. split; [apply Qle_refl|done]. }
  specialize (IH (if float_lt v mn then v else mn) (if float_lt mx v then v else mx)).
  cbv zeta in IH |- *.
  destruct (foldl _ _ values) as [lo hi]. cbn [fst snd] in *.
  destruct IH as (Hlo & Hhi & Hall).
  assert ((if float_lt v mn then v else mn) <= mn)%Q as Hmn.
  { destruct (float_lt v mn) eqn:H; [|apply Qle_refl].
    by apply Qlt_le_weak, float_lt_spec. }
  assert ((if float_lt v mn then v else mn) <= v)%Q as Hmnv.
  { destruct (float_lt v mn) eqn:H; [apply Qle_refl|]. by apply float_lt_false. }
  assert (mx <= (if float_lt mx v then v else mx))%Q as Hmx.
  { destruct (float_lt mx v) eqn:H; [|apply Qle_refl].
    by apply Qlt_le_weak, float_lt_spec. }
  assert (v <= (if float_lt mx v then v else mx))%Q as Hmxv.
  { destruct (float_lt mx v) eqn:H; [apply Qle_refl|]. by apply float_lt_false. }
  split; [by eapply Qle_trans|]. split; [by eapply Qle_trans|].
  constructor; [|done]. split; by eapply Qle_trans.
Qed.

Lemma arc_performance_as_fold (statistics : statistics_dict) :
  ∀ mn mx,
    foldl
      (λ '(min_performance, max_performance) '(elem, st),
         match elem with
         | Arc _ _ =>
             if truthy (st_performance st) then
               let aggr_stat := mean (st_performance st) in
               (if float_lt aggr_stat min_performance then aggr_stat else min_performance,
                if float_lt max_performance aggr_stat then aggr_stat else max_performance)
             else (min_performance, max_performance)
         | _ => (min_performance, max_performance)
         end)
      (mn, mx) statistics
    = foldl (λ '(mn, mx) v,
               (if float_lt v mn then v else mn, if float_lt mx v then v else mx))
        (mn, mx)
        (omap (λ '(elem, st),
                 match elem with
                 | Arc _ _ => if truthy (st_performance st)
                              then Some (mean (st_performance st)) else None
                 | _ => None
                 end) statistics).
Proof.
  induction statistics as [|[elem st] statistics IH]; intros mn mx; [done|].
  cbn [foldl omap list_omap]. destruct elem; cbn; try by rewrite IH.
  destruct (truthy (st_performance st)); cbn; by rewrite IH.
Qed.

(** X17.  The performance extremes bracket the mean of every arc that has samples:
    the mean of each non-empty performance list lies between the minimum and
    the maximum of [find_min_max_arc_performance]; arcs without samples are
    passed over, the minimum never exceeds its initial 9999999999 and the
    maximum is never below 0. *)
Theorem performance_extremes_bracket_means (statistics : statistics_dict) :
  let '(mn, mx) := find_min_max_arc_performance statistics in
  (mn <= inject_Z 9999999999)%Q ∧ (0 <= mx)%Q
  ∧ ∀ source target st,
      (Arc source target, st) ∈ statistics → st_performance st ≠ [] →
      (mn <= mean (st_performance st))%Q ∧ (mean (st_performance st) <= mx)%Q.
Proof.
  unfold find_min_max_arc_performance. rewrite arc_performance_as_fold.
  pose proof (update_extremes_bounds_Q
                (omap (λ '(elem, st),
                         match elem with
                         | Arc _ _ => if truthy (st_performance st)
                                      then Some (mean (st_performance st)) else None
                         | _ => None
                         end) statistics)
                (inject_Z 9999999999) 0%Q) as H.
  cbv zeta in H. destruct (foldl _ _ _) as [mn mx]. cbn [fst snd] in H.
  destruct H as (Hmn & Hmx & Hall). split; [done|]. split; [done|].
  intros source target st Hin Hne. rewrite Forall_forall in Hall. apply Hall.
  apply list_elem_of_omap. exists (Arc source target, st). split; [done|].
  cbn. by destruct (st_performance st).
Qed.

Lemma performance_extremes_bracket_means_witness :
  ∃ mn mx, find_min_max_arc_performance sample_statistics = (mn, mx)
           ∧ (mn <= mean [2; 4])%Q ∧ (mean [2; 4] <= mx)%Q.
Proof.
  do 2 eexists. split; [reflexivity|].
  pose proof (performance_extremes_bracket_means sample_statistics) as H.
  change (find_min_max_arc_performance sample_statistics) with (6 # 2, 6 # 2)%Q in H.
  destruct H as (_ & _ & H).
  apply (H "p1"%string "t1"%string (mk_statistics 5 [2; 4]%Q)); [|done].
  right. by left.
Defined.
